(** * WhatsApp weather-alert bot: command dispatcher, user directory and
      alert sweep of [ogindex.js]

    A shallow embedding of the webhook handler, its helper functions and
    the alert cron job, with the four global containers ([subscribers],
    [userLocations], [userPreferences], [userActivities]) as explicit
    state and every call to a provider (weather API, Gemini, Twilio)
    recorded as an event.  The daily reminder job, the earlier handler
    kept in the second half of [ogindex.js], the rule-based
    [getCropAdvice] and the voice pipeline with its audio branch follow
    the same conventions.

    Modelling conventions.
    - A JavaScript string is the [string] of the bytes of its UTF-8
      encoding.  [trim] removes the white space of ECMAScript, inside
      and outside ASCII.  [toLowerCase] maps the letters [A] to [Z],
      where every command word lives; other bytes are carried through
      unchanged, so a statement about the lower case of a text takes
      the text to be ASCII.
    - A JavaScript number read from the weather JSON is a finite double,
      hence a rational: it is a [Q], compared exactly.  Printing a
      number inside a template string is left to [num_to_string].
    - A [Map] or [Set] is a list in insertion order, which is the order
      in which JavaScript iterates it.
    - An [async] function is a function from the history of provider
      calls to its result and the events it adds; a rejected promise or
      a thrown exception is [None].
    - The handler is modelled first on a request body in which each key
      occurs at most once, so that each value is a string; [Parsed]
      takes it to the bodies in which a key occurs several times or
      that were not parsed.
    - A request, and a firing of the alert job, runs to its end before
      the next one starts; the pause of one second after each alert
      notification is not part of the model. *)

From Stdlib Require Import String Ascii List Bool Arith NArith Lia QArith
  DecimalString.
Import ListNotations.
Close Scope Q_scope.
Local Open Scope string_scope.
Local Open Scope list_scope.
Local Open Scope nat_scope.

(** String concatenation, written apart from list concatenation. *)
Infix "+++" := String.append (right associativity, at level 60).

Set Implicit Arguments.

(** ** JavaScript string methods *)

Module Js.

Definition nl : string := String (ascii_of_nat 10) "".
Definition dquote : string := String (ascii_of_nat 34) "".

(** The bytes of the UTF-8 encoding of a code point. *)
Definition utf8 (cp : N) : string :=
  let byte (n : N) := String (ascii_of_N n) in
  let tail (n : N) := byte (0x80 + n mod 0x40)%N in
  if (cp <? 0x80)%N then byte cp ""
  else if (cp <? 0x800)%N then
    byte (0xC0 + cp / 0x40)%N (tail cp "")
  else if (cp <? 0x10000)%N then
    byte (0xE0 + cp / 0x1000)%N (tail (cp / 0x40)%N (tail cp ""))
  else
    byte (0xF0 + cp / 0x40000)%N
      (tail (cp / 0x1000)%N (tail (cp / 0x40)%N (tail cp ""))).

(** White space removed by [String.prototype.trim] and skipped by
    [parseInt]: the code points of WhiteSpace and LineTerminator, that
    is TAB, LF, VT, FF, CR, SPACE, the no-break space, the other space
    separators of Unicode, the line and paragraph separators and the
    byte order mark. *)
Definition whiteSpace : list N :=
  [0x9; 0xA; 0xB; 0xC; 0xD; 0x20; 0xA0; 0x1680;
   0x2000; 0x2001; 0x2002; 0x2003; 0x2004; 0x2005; 0x2006; 0x2007;
   0x2008; 0x2009; 0x200A; 0x2028; 0x2029; 0x202F; 0x205F; 0x3000;
   0xFEFF]%N.

Definition whiteSpaceBytes : list string :=
  Eval vm_compute in map utf8 whiteSpace.

(** [s.toLowerCase()] on the letters [A] to [Z]. *)
Definition is_upper (c : ascii) : bool :=
  let n := nat_of_ascii c in (65 <=? n) && (n <=? 90).

Definition lower_char (c : ascii) : ascii :=
  if is_upper c then ascii_of_nat (nat_of_ascii c + 32) else c.

Fixpoint toLowerCase (s : string) : string :=
  match s with
  | EmptyString => EmptyString
  | String c s' => String (lower_char c) (toLowerCase s')
  end.

(** [s.slice(n)] for [0 <= n]. *)
Fixpoint slice (n : nat) (s : string) : string :=
  match n, s with
  | O, _ => s
  | S _, EmptyString => EmptyString
  | S n', String _ s' => slice n' s'
  end.

(** The number of bytes of the white-space character that [s] starts
    with, [0] when it starts with none. *)
Fixpoint match_len (ws : list string) (s : string) : nat :=
  match ws with
  | [] => 0
  | w :: ws' =>
      if String.prefix w s then String.length w else match_len ws' s
  end.

Definition ws_len (s : string) : nat := match_len whiteSpaceBytes s.

(** [skipWs k s]: [k] bytes of a white-space character are still to be
    dropped, then the white space that follows. *)
Fixpoint skipWs (k : nat) (s : string) {struct s} : string :=
  match s with
  | EmptyString => EmptyString
  | String _ s' =>
      match k with
      | S k' => skipWs k' s'
      | O => match ws_len s with
             | O => s
             | S k' => skipWs k' s'
             end
      end
  end.

(** [s.trimStart()]. *)
Definition trimStart (s : string) : string := skipWs 0 s.

(** The string is nothing but white space. *)
Definition all_ws (s : string) : bool := (trimStart s =? "")%string.

(** [s.trimEnd()]: what is cut is the longest end of [s] that is
    nothing but white space. *)
Fixpoint trimEnd (s : string) : string :=
  match s with
  | EmptyString => EmptyString
  | String c s' => if all_ws s then EmptyString else String c (trimEnd s')
  end.

Definition trim (s : string) : string := trimEnd (trimStart s).

Definition startsWith (s pat : string) : bool := String.prefix pat s.

(** [s.replace(pat, "")] with a string pattern: the first occurrence of
    [pat] is removed, the rest is kept. *)
Fixpoint remove_first (pat s : string) : string :=
  if String.prefix pat s then slice (String.length pat) s
  else match s with
       | EmptyString => EmptyString
       | String c s' => String c (remove_first pat s')
       end.

(** [xs.join(sep)]. *)
Definition join (sep : string) (xs : list string) : string :=
  String.concat sep xs.

(** [a || b] on strings: the empty string is falsy. *)
Definition or_else (a b : string) : string :=
  if (a =? "")%string then b else a.

(** [s.includes(sub)]. *)
Fixpoint includes (s sub : string) : bool :=
  String.prefix sub s
  || match s with
     | EmptyString => false
     | String _ s' => includes s' sub
     end.





(** A continuation byte of UTF-8. *)
Definition is_cont (c : ascii) : bool :=
  let n := nat_of_ascii c in (128 <=? n) && (n <? 192).

Fixpoint all_cont (s : string) : bool :=
  match s with
  | EmptyString => true
  | String c s' => is_cont c && all_cont s'
  end.

(** A character starts with a byte that is no continuation byte and
    goes on with continuation bytes. *)
Definition well_shaped (w : string) : bool :=
  match w with
  | EmptyString => false
  | String c r => negb (is_cont c) && all_cont r
  end.

Definition is_letter (c : ascii) : bool :=
  let n := nat_of_ascii c in
  ((65 <=? n) && (n <=? 90)) || ((97 <=? n) && (n <=? 122)).

Fixpoint no_letter (s : string) : bool :=
  match s with
  | EmptyString => true
  | String c s' => negb (is_letter c) && no_letter s'
  end.

End Js.

(** ** [Map] and [Set] in insertion order *)

Module JsMap.

Section Ops.
Variable V : Type.

Definition t := list (string * V).

Fixpoint get (m : t) (k : string) : option V :=
  match m with
  | [] => None
  | (k', v) :: m' => if (k =? k')%string then Some v else get m' k
  end.

Definition has (m : t) (k : string) : bool :=
  match get m k with Some _ => true | None => false end.

(** [m.set(k, v)]: an existing key keeps its position, a new key goes
    to the end. *)
Fixpoint set (m : t) (k : string) (v : V) : t :=
  match m with
  | [] => [(k, v)]
  | (k', v') :: m' =>
      if (k =? k')%string then (k, v) :: m' else (k', v') :: set m' k v
  end.

Definition delete (m : t) (k : string) : t :=
  filter (fun kv => negb (k =? fst kv)%string) m.

Definition keys (m : t) : list string := map fst m.

End Ops.

End JsMap.

Module JsSet.

Definition t := list string.

Definition has (s : t) (x : string) : bool :=
  existsb (fun y => (x =? y)%string) s.

Definition add (s : t) (x : string) : t :=
  if has s x then s else s ++ [x].

Definition delete (s : t) (x : string) : t :=
  filter (fun y => negb (x =? y)%string) s.

End JsSet.

(** ** Data of the bot *)

(** The language codes stored in [userPreferences]. *)
Inductive Lang : Type := en | hi | mr.

Definition lang_code (l : Lang) : string :=
  match l with en => "en" | hi => "hi" | mr => "mr" end.

Definition lang_eqb (a b : Lang) : bool :=
  match a, b with
  | en, en | hi, hi | mr, mr => true
  | _, _ => false
  end.

(** The object [{ language: code }] kept per phone number. *)
Record Preference : Type := { language : Lang }.

(** One entry [{ activity, date }] of a user's activity array. *)
Record Activity : Type := { activity : string; date : string }.

(** The four global containers. *)
Record Dir : Type := {
  subscribers : JsSet.t;
  userLocations : JsMap.t string;
  userPreferences : JsMap.t Preference;
  userActivities : JsMap.t (list Activity)
}.

Definition empty_dir : Dir :=
  {| subscribers := []; userLocations := [];
     userPreferences := []; userActivities := [] |}.

(** The part of the weather provider's JSON the code reads:
    [name], [main.temp], [wind.speed] and the array [weather] of
    [{ main, description }].  An absent object is [None]. *)
Record Condition : Type := { cond_main : string; cond_description : string }.

Record ApiData : Type := {
  api_name : string;
  api_main : option Q;
  api_wind : option Q;
  api_weather : option (list Condition)
}.

(** What [getWeather] returns. *)
Record Weather : Type := {
  city : string;
  temp : Q;
  description : string;
  alerts : list string;
  wind : Q
}.

(** The HTTP answer [res.status(n).send(text)]. *)
Record Response : Type := { status : nat; sent : string }.

(** The fields of [req.body] the handler reads, for a body in which
    each key occurs at most once; the other bodies are in [Parsed]. *)
Record Request : Type := { Body : option string; From : option string }.

(** ** Provider calls *)

(** Which function called [generateContent]. *)
Inductive GenCaller : Type := Advisory | Translator.

(** One call to a provider, with its outcome. *)
Inductive Event : Type :=
| EvWeatherGet (q : string) (r : option ApiData)
| EvGenerate (who : GenCaller) (prompt : string) (r : option string)
| EvMessage (to body : string) (ok : bool).

(** The world around the handler.  A provider answers as a function of
    everything that happened before and of its argument; [None] and
    [false] are a rejected call.  [num_to_string] is the conversion of a
    number in a template string, [toLocaleString] is
    [new Date(d).toLocaleString()] and [now_iso] is
    [new Date().toISOString()]. *)
Record Env : Type := {
  axios_get : list Event -> string -> option ApiData;
  generateContent : list Event -> string -> option string;
  messages_create : list Event -> string -> string -> bool;
  now_iso : list Event -> string;
  num_to_string : Q -> string;
  toLocaleString : string -> string
}.

(** ** The monad of the handler: directory, history, new events *)

Definition M (A : Type) : Type :=
  Dir -> list Event -> A * Dir * list Event.

Definition ret {A : Type} (a : A) : M A := fun d _ => (a, d, []).

Definition bind {A B : Type} (m : M A) (f : A -> M B) : M B :=
  fun d h =>
    match m d h with
    | (a, d1, e1) =>
        match f a d1 (h ++ e1) with
        | (b, d2, e2) => (b, d2, e1 ++ e2)
        end
    end.

Notation "x <- m ;; k" := (bind m (fun x => k))
  (at level 61, m at next level, right associativity).
Notation "m ;;; k" := (bind m (fun _ => k))
  (at level 61, right associativity).

Definition getDir : M Dir := fun d _ => (d, d, []).
Definition modify (f : Dir -> Dir) : M unit := fun d _ => (tt, f d, []).
Definition history : M (list Event) := fun d h => (h, d, []).
Definition emit (e : Event) : M unit := fun d _ => (tt, d, [e]).

Definition result_of {A : Type} (r : A * Dir * list Event) : A := fst (fst r).
Definition dir_of {A : Type} (r : A * Dir * list Event) : Dir := snd (fst r).
Definition events_of {A : Type} (r : A * Dir * list Event) : list Event := snd r.

Definition with_subscribers (f : JsSet.t -> JsSet.t) (d : Dir) : Dir :=
  {| subscribers := f (subscribers d);
     userLocations := userLocations d;
     userPreferences := userPreferences d;
     userActivities := userActivities d |}.

Definition with_userLocations
  (f : JsMap.t string -> JsMap.t string) (d : Dir) : Dir :=
  {| subscribers := subscribers d;
     userLocations := f (userLocations d);
     userPreferences := userPreferences d;
     userActivities := userActivities d |}.

Definition with_userPreferences
  (f : JsMap.t Preference -> JsMap.t Preference) (d : Dir) : Dir :=
  {| subscribers := subscribers d;
     userLocations := userLocations d;
     userPreferences := f (userPreferences d);
     userActivities := userActivities d |}.

Definition with_userActivities
  (f : JsMap.t (list Activity) -> JsMap.t (list Activity)) (d : Dir) : Dir :=
  {| subscribers := subscribers d;
     userLocations := userLocations d;
     userPreferences := userPreferences d;
     userActivities := f (userActivities d) |}.

(** ** The functions of [ogindex.js] *)

Definition Qgtb (a b : Q) : bool := negb (Qle_bool a b).
Definition Qltb (a b : Q) : bool := negb (Qle_bool b a).

(** [xs.push(x)]. *)
Definition push {A : Type} (xs : list A) (x : A) : list A := xs ++ [x].

(** [undefined] and the empty string are both falsy. *)
Definition opt_str (o : option string) : string :=
  match o with Some s => s | None => "" end.

(** [weather.weather[0]], when the array is there and not empty. *)
Definition weather0 (weather : ApiData) : option Condition :=
  match api_weather weather with
  | Some (c :: _) => Some c
  | _ => None
  end.

Definition ok200 : Response := {| status := 200; sent := "OK" |}.

Section Bot.

Variable env : Env.

Definition heatAlert (t : Q) : string :=
  "🌡️ Heat Alert: " +++ num_to_string env t +++ "°C".
Definition coldAlert (t : Q) : string :=
  "❄️ Cold Alert: " +++ num_to_string env t +++ "°C".
Definition windAlert (v : Q) : string :=
  "💨 Wind Alert: " +++ num_to_string env v +++ " m/s".
Definition rainAlert (d : string) : string := "🌧️ Rain Alert: " +++ d.
Definition stormAlert (d : string) : string := "⛈️ Storm Alert: " +++ d.

(** The body of [getWeather] after the response has arrived.  Reading
    [weather.main.temp] with [main] absent, or
    [weather.weather[0].description] with no first condition, throws and
    lands in the [catch]: the result is [null]. *)
Definition readWeather (weather : ApiData) : option Weather :=
  match api_main weather with
  | None => None
  | Some main_temp =>
      let alerts := [] in
      let alerts :=
        if Qgtb main_temp (35 # 1) then push alerts (heatAlert main_temp)
        else alerts in
      let alerts :=
        if Qltb main_temp (5 # 1) then push alerts (coldAlert main_temp)
        else alerts in
      let alerts :=
        match api_wind weather with
        | Some speed =>
            if Qgtb speed (10 # 1) then push alerts (windAlert speed)
            else alerts
        | None => alerts
        end in
      let alerts :=
        match weather0 weather with
        | Some c =>
            let alerts :=
              if (cond_main c =? "Rain")%string
              then push alerts (rainAlert (cond_description c))
              else alerts in
            if (cond_main c =? "Thunderstorm")%string
            then push alerts (stormAlert (cond_description c))
            else alerts
        | None => alerts
        end in
      match weather0 weather with
      | None => None
      | Some c =>
          Some {| city := api_name weather;
                  temp := main_temp;
                  description := cond_description c;
                  alerts := alerts;
                  wind := match api_wind weather with
                          | Some speed => speed
                          | None => 0 # 1
                          end |}
      end
  end.

Definition getWeather (q : string) : M (option Weather) :=
  h <- history ;;
  let response := axios_get env h q in
  emit (EvWeatherGet q response) ;;;
  match response with
  | None => ret None
  | Some weather => ret (readWeather weather)
  end.

Definition langName (langCode : Lang) : string :=
  match langCode with en => "English" | hi => "Hindi" | mr => "Marathi" end.

Definition advicePrompt (weather : Weather) (langCode : Lang) : string :=
  Js.nl +++
  "You are an expert agricultural advisor. You can suggest crops, pesticides, and fertilizers based on weather conditions. Provide just the response in the specified language without any additional commentary. Provide the answer directly in the requested language without mentioning the language."
  +++ Js.nl +++
  "Given this weather:" +++ Js.nl +++
  "Temperature: " +++ num_to_string env (temp weather) +++ "°C," +++ Js.nl +++
  "Conditions: " +++ description weather +++ "," +++ Js.nl +++
  "Wind speed: " +++ num_to_string env (wind weather) +++ " m/s." +++ Js.nl +++
  Js.nl +++
  "Suggest 3 suitable crops and pesticides and fertilizers recommendation for farmers."
  +++ Js.nl +++
  "Keep the advice short and within 1400 characters." +++ Js.nl +++
  Js.nl +++
  "Respond in " +++ langName langCode +++ "." +++ Js.nl +++
  "    ".

Definition adviceFallback : string := "Could not fetch AI advice right now.".

Definition getCropAdviceAI (weather : Weather) (langCode : Lang) : M string :=
  h <- history ;;
  let prompt := advicePrompt weather langCode in
  let result := generateContent env h prompt in
  emit (EvGenerate Advisory prompt result) ;;;
  match result with
  | Some text => ret text
  | None => ret adviceFallback
  end.

(** The [try]/[catch] swallows a failed send. *)
Definition sendWhatsAppMessage (to message : string) : M unit :=
  h <- history ;;
  emit (EvMessage to message (messages_create env h to message)).

Definition translatePrompt (text : string) (langCode : Lang) : string :=
  "Translate the following text to " +++ lang_code langCode +++ ":" +++
  Js.nl +++ Js.nl +++ text +++
  " do not provide any extra commentary, just the translation. ".

(** [None] is the exception of a failed [generateContent]. *)
Definition translateText (text : string) (langCode : Lang)
  : M (option string) :=
  if lang_eqb langCode en then ret (Some text)
  else
    h <- history ;;
    let prompt := translatePrompt text langCode in
    let result := generateContent env h prompt in
    emit (EvGenerate Translator prompt result) ;;;
    ret result.

(** [userPreferences.get(phone)?.language || "en"]. *)
Definition languageOf (d : Dir) (phone : string) : Lang :=
  match JsMap.get (userPreferences d) phone with
  | Some p => language p
  | None => en
  end.

Definition replyAndEnd (phone text : string) : M Response :=
  d <- getDir ;;
  let userLang := languageOf d phone in
  out <- (if negb (lang_eqb userLang en)
          then r <- translateText text userLang ;;
               ret (match r with Some t => t | None => text end)
          else ret text) ;;
  sendWhatsAppMessage phone out ;;;
  ret ok200.

(** The fixed texts of the handler. *)

Definition welcome : string :=
  "👋 Welcome! Choose your language by sending:" +++ Js.nl +++
  "1. Hindi" +++ Js.nl +++ "2. Marathi" +++ Js.nl +++ "3. English" +++
  Js.nl +++ Js.nl +++ "Then send 'subscribe Mumbai' to start.".

Definition statusText (d : Dir) (from : string) : string :=
  let city := Js.or_else (opt_str (JsMap.get (userLocations d) from))
                         "Not subscribed" in
  let langCode := languageOf d from in
  "📋 *Your Settings*" +++ Js.nl +++ Js.nl +++
  "🌍 City: " +++ city +++ Js.nl +++
  "🗣️ Language: " +++ lang_code langCode +++ Js.nl +++
  "🔔 Subscribed: " +++
  (if JsSet.has (subscribers d) from then "Yes" else "No") +++
  Js.nl +++ Js.nl +++
  "You can type " +++ Js.dquote +++ "subscribe [city]" +++ Js.dquote +++
  " to change city or " +++ Js.dquote +++ "1/2/3" +++ Js.dquote +++
  " to change language.".

Definition languageSetText (name : string) : string :=
  "✅ Language set to " +++ name +++ ".".

Definition logUsageText : string :=
  "⚠️ Please provide an activity to log. Example: 'log sprayed tomatoes'".

Definition loggedText (a : string) : string :=
  "✅ Got it! Logged your activity: " +++ Js.dquote +++ a +++ Js.dquote.

Definition noLogText : string := "No activities logged yet.".

Definition viewLogText (logs : list Activity) : string :=
  "📋 Your logged activities:" +++ Js.nl +++
  Js.join Js.nl
    (map (fun l => "🗓️ " +++ toLocaleString env (date l) +++ ": " +++
                   activity l) logs).

Definition logClearedText : string :=
  "✅ Your activity logs have been cleared.".

Definition subscribeUsageText : string :=
  "Please specify a city. Example: " +++ Js.dquote +++ "subscribe Mumbai" +++
  Js.dquote.

Definition subscribedText (c : string) : string :=
  "✅ Subscribed to weather alerts for " +++ c +++ "!" +++ Js.nl +++ Js.nl +++
  "You'll receive alerts for:" +++ Js.nl +++
  "• Extreme temperatures" +++ Js.nl +++
  "• Heavy rain/storms" +++ Js.nl +++
  "• Strong winds" +++ Js.nl +++ Js.nl +++
  "Send " +++ Js.dquote +++ "unsubscribe" +++ Js.dquote +++ " to stop alerts.".

Definition unsubscribedText : string := "❌ Unsubscribed from weather alerts.".

Definition weatherUsageText : string :=
  "Please specify a city. Example: " +++ Js.dquote +++ "weather Mumbai" +++
  Js.dquote.

Definition weatherFailedText : string :=
  "Sorry, could not fetch weather data. Please check the city name.".

(** The weather section of the reply: temperature, conditions and, when
    there are any, the alert lines. *)
Definition weatherSection (weather : Weather) : string :=
  let response :=
    "🌤️ Current weather in " +++ city weather +++ ":" +++ Js.nl +++ Js.nl +++
    "🌡️ Temperature: " +++ num_to_string env (temp weather) +++ "°C" +++
    Js.nl +++ "☁️ Conditions: " +++ description weather in
  if 0 <? List.length (alerts weather)
  then response +++ Js.nl +++ Js.nl +++ "⚠️ ALERTS:" +++ Js.nl +++
       Js.join Js.nl (alerts weather)
  else response.

Definition tipsSection (aiAdvice : string) : string :=
  Js.nl +++ Js.nl +++ "🌱 Farming Tips:" +++ Js.nl +++ aiAdvice.

Definition helpText : string :=
  "🤖 Weather Alert Bot Commands:" +++ Js.nl +++ Js.nl +++
  "📍 *subscribe [city]* - Get weather alerts" +++ Js.nl +++
  "❌ *unsubscribe* - Stop alerts" +++ Js.nl +++
  "🌤️ *weather [city]* - Current weather" +++ Js.nl +++
  "📝 *log [activity]* - Log farm activity" +++ Js.nl +++
  "📋 *log view* - View logged activities" +++ Js.nl +++
  "🗑️ *log clear* - Clear all logged activities" +++ Js.nl +++
  "❓ *help* - Show this message" +++ Js.nl +++ Js.nl +++
  "Example: " +++ Js.dquote +++ "subscribe Mumbai" +++ Js.dquote.

Definition alertMessage (weather : Weather) : string :=
  "🚨 WEATHER ALERT - " +++ city weather +++ Js.nl +++ Js.nl +++
  Js.join Js.nl (alerts weather) +++ Js.nl +++ Js.nl +++ "Stay safe! 🙏".

(** [req.body.Body || ""], trimmed and lower-cased. *)
Definition incomingMsg (req : Request) : string :=
  Js.toLowerCase (Js.trim (opt_str (Body req))).

(** [(req.body.From || "").replace("whatsapp:", "").trim()]. *)
Definition sender (req : Request) : string :=
  Js.trim (Js.remove_first "whatsapp:" (opt_str (From req))).

(** The argument of [subscribe] and of [weather]. *)
Definition subscribeCity (msg : string) : string :=
  Js.trim (Js.remove_first "subscribe" msg).
Definition weatherCity (msg : string) : string :=
  Js.trim (Js.remove_first "weather" msg).

(** The activity of a [log ] message. *)
Definition logActivity (msg : string) : string := Js.trim (Js.slice 4 msg).

(** The weather branch, from the lookup on. *)
Definition weatherReply (from q : string) : M Response :=
  weather <- getWeather q ;;
  match weather with
  | None => replyAndEnd from weatherFailedText
  | Some weather =>
      let response := weatherSection weather in
      d <- getDir ;;
      let userLang := languageOf d from in
      aiAdvice <- getCropAdviceAI weather userLang ;;
      let response :=
        if 0 <? String.length aiAdvice
        then response +++ tipsSection aiAdvice else response in
      replyAndEnd from response
  end.

(** The command branches of the handler, for a user who is known: what
    follows the first-contact block.  [d] is the directory as the
    handler found it. *)
Definition commands (from incomingMsg : string) (d : Dir) : M Response :=
  if (incomingMsg =? "status")%string
     || (incomingMsg =? "/status")%string
     || (incomingMsg =? "my status")%string then
    replyAndEnd from (statusText d from)
  else if (incomingMsg =? "1")%string || (incomingMsg =? "2")%string
          || (incomingMsg =? "3")%string then
    let '(code, name) :=
      if (incomingMsg =? "1")%string then (hi, "Hindi")
      else if (incomingMsg =? "2")%string then (mr, "Marathi")
      else if (incomingMsg =? "3")%string then (en, "English")
      else (en, "English") in
    modify (with_userPreferences
              (fun m => JsMap.set m from {| language := code |})) ;;;
    replyAndEnd from (languageSetText name)
  else if Js.startsWith incomingMsg "log " then
    let activity := logActivity incomingMsg in
    if String.length activity =? 0 then replyAndEnd from logUsageText
    else
      h <- history ;;
      modify (with_userActivities
                (fun m =>
                   let m := if negb (JsMap.has m from)
                            then JsMap.set m from [] else m in
                   match JsMap.get m from with
                   | Some logs =>
                       JsMap.set m from
                         (push logs {| activity := activity;
                                       date := now_iso env h |})
                   | None => m
                   end)) ;;;
      replyAndEnd from (loggedText activity)
  else if (incomingMsg =? "view log")%string then
    let logs := match JsMap.get (userActivities d) from with
                | Some logs => logs
                | None => []
                end in
    if List.length logs =? 0 then replyAndEnd from noLogText
    else replyAndEnd from (viewLogText logs)
  else if (incomingMsg =? "clear log")%string then
    modify (with_userActivities (fun m => JsMap.delete m from)) ;;;
    replyAndEnd from logClearedText
  else if Js.startsWith incomingMsg "subscribe" then
    let city := subscribeCity incomingMsg in
    if (city =? "")%string then replyAndEnd from subscribeUsageText
    else
      modify (with_subscribers (fun s => JsSet.add s from)) ;;;
      modify (with_userLocations (fun m => JsMap.set m from city)) ;;;
      replyAndEnd from (subscribedText city)
  else if (incomingMsg =? "unsubscribe")%string then
    modify (with_subscribers (fun s => JsSet.delete s from)) ;;;
    modify (with_userLocations (fun m => JsMap.delete m from)) ;;;
    replyAndEnd from unsubscribedText
  else if Js.startsWith incomingMsg "weather" then
    let city := Js.or_else (weatherCity incomingMsg)
                           (opt_str (JsMap.get (userLocations d) from)) in
    if (city =? "")%string then replyAndEnd from weatherUsageText
    else weatherReply from city
  else replyAndEnd from helpText.

(** [app.post("/webhook", ...)]. *)
Definition webhook (req : Request) : M Response :=
  let incomingMsg := incomingMsg req in
  let from := sender req in
  if (from =? "")%string
  then ret {| status := 400; sent := "Missing sender" |}
  else
  d <- getDir ;;
  if negb (JsMap.has (userPreferences d) from) then
    modify (with_userPreferences
              (fun m => JsMap.set m from {| language := en |})) ;;;
    sendWhatsAppMessage from welcome ;;;
    ret ok200
  else commands from incomingMsg d.

(** One pass of the loop of the alert cron job over the entries of
    [userLocations]. *)
Definition alertOne (entry : string * string) : M unit :=
  let '(phone, city) := entry in
  d <- getDir ;;
  if JsSet.has (subscribers d) phone then
    weather <- getWeather city ;;
    match weather with
    | Some weather =>
        if 0 <? List.length (alerts weather)
        then sendWhatsAppMessage phone (alertMessage weather)
        else ret tt
    | None => ret tt
    end
  else ret tt.

Fixpoint forEach {A : Type} (f : A -> M unit) (xs : list A) : M unit :=
  match xs with
  | [] => ret tt
  | x :: xs' => f x ;;; forEach f xs'
  end.

(** The callback of [cron.schedule] for the weather alerts. *)
Definition alertSweep : M unit :=
  d <- getDir ;;
  forEach alertOne (userLocations d).

End Bot.

(** ** The directory as the program reads it *)

(** A user's record, assembled from the four containers the way the
    [status] command reads them.  A user is known when
    [userPreferences] has the phone number. *)
Record UserRecord : Type := {
  subscribed : bool;
  location : option string;
  lang : Lang;
  activityLog : list Activity
}.

Definition activitiesOf (d : Dir) (phone : string) : list Activity :=
  match JsMap.get (userActivities d) phone with
  | Some logs => logs
  | None => []
  end.

Definition userRecord (d : Dir) (phone : string) : option UserRecord :=
  match JsMap.get (userPreferences d) phone with
  | None => None
  | Some p =>
      Some {| subscribed := JsSet.has (subscribers d) phone;
              location := JsMap.get (userLocations d) phone;
              lang := language p;
              activityLog := activitiesOf d phone |}
  end.

(** The directories the running program can be in: the empty one at
    start-up, then any number of webhook requests and alert sweeps, in
    any world. *)
Inductive reachable : Dir -> Prop :=
| reach_start : reachable empty_dir
| reach_webhook (env : Env) (req : Request) (d : Dir) (h : list Event) :
    reachable d -> reachable (dir_of (webhook env req d h))
| reach_sweep (env : Env) (d : Dir) (h : list Event) :
    reachable d -> reachable (dir_of (alertSweep env d h)).

(** What every reachable directory satisfies: no container holds a phone
    number twice, a subscriber has a non-empty city, and only known
    users appear in the other three containers. *)
Record dir_ok (d : Dir) : Prop := {
  ok_subscribers : NoDup (subscribers d);
  ok_locations : NoDup (JsMap.keys (userLocations d));
  ok_preferences : NoDup (JsMap.keys (userPreferences d));
  ok_activities : NoDup (JsMap.keys (userActivities d));
  ok_located : forall p, JsSet.has (subscribers d) p = true ->
      exists c, JsMap.get (userLocations d) p = Some c /\ c <> "";
  ok_sub_known : forall p, JsSet.has (subscribers d) p = true ->
      JsMap.has (userPreferences d) p = true;
  ok_loc_known : forall p, JsMap.has (userLocations d) p = true ->
      JsMap.has (userPreferences d) p = true;
  ok_act_known : forall p, JsMap.has (userActivities d) p = true ->
      JsMap.has (userPreferences d) p = true
}.

(** ** How a request changes the directory *)

(** The append of the [log ] branch, on the activity map. *)
Definition logAppend (from activity date : string)
  (m : JsMap.t (list Activity)) : JsMap.t (list Activity) :=
  let m := if negb (JsMap.has m from) then JsMap.set m from [] else m in
  match JsMap.get m from with
  | Some logs =>
      JsMap.set m from (push logs {| activity := activity; date := date |})
  | None => m
  end.

(** The ways a request can change the directory. *)
Inductive dir_change (from : string) (d : Dir) : Dir -> Prop :=
| change_none : dir_change from d d
| change_language l :
    dir_change from d
      (with_userPreferences
         (fun m => JsMap.set m from {| language := l |}) d)
| change_log a t :
    JsMap.has (userPreferences d) from = true ->
    dir_change from d (with_userActivities (logAppend from a t) d)
| change_clear :
    dir_change from d
      (with_userActivities (fun m => JsMap.delete m from) d)
| change_subscribe c :
    JsMap.has (userPreferences d) from = true -> c <> "" ->
    dir_change from d
      (with_userLocations (fun m => JsMap.set m from c)
         (with_subscribers (fun s => JsSet.add s from) d))
| change_unsubscribe :
    dir_change from d
      (with_userLocations (fun m => JsMap.delete m from)
         (with_subscribers (fun s => JsSet.delete s from) d)).

(** ** Weather requests *)

(** The city a [weather] message asks for: its argument or, without
    one, the stored location. *)
Definition weatherQuery (d : Dir) (from msg : string) : string :=
  Js.or_else (weatherCity msg) (opt_str (JsMap.get (userLocations d) from)).

(** [req] is a weather command of a known user, asking for [q]. *)
Definition weather_request (req : Request) (d : Dir) (q : string) : Prop :=
  sender req <> "" /\
  JsMap.has (userPreferences d) (sender req) = true /\
  Js.startsWith (incomingMsg req) "weather" = true /\
  weatherQuery d (sender req) (incomingMsg req) = q /\
  q <> "".

(** The reply of the weather branch when the advice call fails. *)
Definition weatherWithFallback (env : Env) (weather : Weather) : string :=
  weatherSection env weather +++ tipsSection adviceFallback.

(** What [replyAndEnd] does for [text] after the history [h]. *)
Definition replyEvents (env : Env) (d : Dir) (phone text : string)
  (h : list Event) : list Event :=
  match languageOf d phone with
  | en => [EvMessage phone text (messages_create env h phone text)]
  | l =>
      let prompt := translatePrompt text l in
      let r := generateContent env h prompt in
      let out := match r with Some t => t | None => text end in
      let call := EvGenerate Translator prompt r in
      [call; EvMessage phone out (messages_create env (h ++ [call]) phone out)]
  end.

(** ** The alert sweep, user by user *)

(** What one firing of the alert job does for one entry of
    [userLocations], after the history [h]: nothing for a user who is
    not subscribed; for a subscriber one lookup and, only when it
    succeeds with at least one alert, one notification. *)
Definition alertEvents (env : Env) (subs : JsSet.t) (entry : string * string)
  (h : list Event) : list Event :=
  if JsSet.has subs (fst entry) then
    let lookup := EvWeatherGet (snd entry) (axios_get env h (snd entry)) in
    lookup ::
    match axios_get env h (snd entry) with
    | Some data =>
        match readWeather env data with
        | Some weather =>
            match alerts weather with
            | [] => []
            | _ :: _ =>
                [EvMessage (fst entry) (alertMessage weather)
                   (messages_create env (h ++ [lookup]) (fst entry)
                      (alertMessage weather))]
            end
        | None => []
        end
    | None => []
    end
  else [].

(** The entries are handled one after the other, each after everything
    the earlier ones did. *)
Fixpoint sweepEvents (env : Env) (subs : JsSet.t)
  (entries : list (string * string)) (h : list Event) : list Event :=
  match entries with
  | [] => []
  | entry :: rest =>
      alertEvents env subs entry h
      ++ sweepEvents env subs rest (h ++ alertEvents env subs entry h)
  end.

(** The [(phone, city)] pairs of the subscribers, in the order of
    [userLocations]. *)
Definition subscribedEntries (d : Dir) : list (string * string) :=
  filter (fun entry => JsSet.has (subscribers d) (fst entry))
         (userLocations d).

(** ** The alert policy, rule by rule *)

(** The five threshold rules in their fixed order, stated on their own
    for comparison with the pushes of [getWeather]. *)
Inductive AlertKind : Type := Heat | Cold | Wind | Rain | Storm.

Definition alert_order : list AlertKind := [Heat; Cold; Wind; Rain; Storm].

Definition fires (t : Q) (w : option Q) (c : Condition) (k : AlertKind)
  : bool :=
  match k with
  | Heat => Qgtb t (35 # 1)
  | Cold => Qltb t (5 # 1)
  | Wind => match w with Some v => Qgtb v (10 # 1) | None => false end
  | Rain => (cond_main c =? "Rain")%string
  | Storm => (cond_main c =? "Thunderstorm")%string
  end.

Definition alert_text (env : Env) (t : Q) (w : option Q) (c : Condition)
  (k : AlertKind) : string :=
  match k with
  | Heat => heatAlert env t
  | Cold => coldAlert env t
  | Wind => windAlert env (match w with Some v => v | None => (0 # 1)%Q end)
  | Rain => rainAlert (cond_description c)
  | Storm => stormAlert (cond_description c)
  end.

Definition alerts_by_rules (env : Env) (t : Q) (w : option Q)
  (c : Condition) : list string :=
  map (alert_text env t w c) (filter (fires t w c) alert_order).

(** ** Reading a trace *)

Definition is_advice_call (e : Event) : bool :=
  match e with EvGenerate Advisory _ _ => true | _ => false end.

Definition is_generate_call (e : Event) : bool :=
  match e with EvGenerate _ _ _ => true | _ => false end.

(** The messages handed to Twilio, in order. *)
Fixpoint messages (es : list Event) : list (string * string) :=
  match es with
  | [] => []
  | EvMessage to body _ :: es' => (to, body) :: messages es'
  | _ :: es' => messages es'
  end.

(** The cities looked up at the weather provider, in order. *)
Fixpoint lookups (es : list Event) : list string :=
  match es with
  | [] => []
  | EvWeatherGet q _ :: es' => q :: lookups es'
  | _ :: es' => lookups es'
  end.

(** ** Sample worlds *)

(** A printer that is exact on whole numbers, which JavaScript prints
    without a fraction; used in the examples only. *)
Definition sample_num (q : Q) : string :=
  match Qnum q with
  | Z0 => "0"
  | Zpos p => NilZero.string_of_uint (Pos.to_uint p)
  | Zneg p => "-" +++ NilZero.string_of_uint (Pos.to_uint p)
  end.

(** Every provider is down. *)
Definition down_env : Env :=
  {| axios_get := fun _ _ => None;
     generateContent := fun _ _ => None;
     messages_create := fun _ _ _ => false;
     now_iso := fun _ => "2025-01-01T00:00:00.000Z";
     num_to_string := sample_num;
     toLocaleString := fun d => d |}.

Definition hot_rainy : ApiData :=
  {| api_name := "Mumbai";
     api_main := Some (40 # 1)%Q;
     api_wind := Some (15 # 1)%Q;
     api_weather := Some [{| cond_main := "Rain";
                             cond_description := "light rain" |}] |}.

Definition mild : ApiData :=
  {| api_name := "Pune";
     api_main := Some (25 # 1)%Q;
     api_wind := Some (3 # 1)%Q;
     api_weather := Some [{| cond_main := "Clear";
                             cond_description := "clear sky" |}] |}.

(** The weather provider knows [mumbai] and [pune]; Gemini answers
    translation requests only, with a fixed text; Twilio delivers. *)
Definition sample_env : Env :=
  {| axios_get := fun _ q =>
       if (q =? "mumbai")%string then Some hot_rainy
       else if (q =? "pune")%string then Some mild
       else None;
     generateContent := fun _ prompt =>
       if String.prefix "Translate" prompt then Some "anuvaad" else None;
     messages_create := fun _ _ _ => true;
     now_iso := fun _ => "2025-01-01T00:00:00.000Z";
     num_to_string := sample_num;
     toLocaleString := fun d => d |}.

Definition req (from body : string) : Request :=
  {| Body := Some body; From := Some from |}.

(** The directory after the requests [rs], sent one after the other to
    the bot in world [env], starting from [d]. *)
Fixpoint after (env : Env) (rs : list Request) (d : Dir) : Dir :=
  match rs with
  | [] => d
  | r :: rs' => after env rs' (dir_of (webhook env r d []))
  end.

Definition alice : string := "+911234567890".
Definition bob : string := "+919876543210".

(** Alice has chosen Marathi, logged one activity and subscribed to
    Mumbai; Bob has only said hello. *)
Definition d_sample : Dir :=
  after sample_env
    [req alice "hello"; req alice "2"; req alice "log sowed wheat";
     req alice "subscribe Mumbai"; req bob "hello"] empty_dir.

(** What [getWeather] makes of [hot_rainy]. *)
Definition w_mumbai : Weather :=
  {| city := "Mumbai"; temp := 40 # 1; description := "light rain";
     alerts := ["🌡️ Heat Alert: 40°C"; "💨 Wind Alert: 15 m/s";
                "🌧️ Rain Alert: light rain"];
     wind := 15 # 1 |}.

(** Alice is subscribed to Mumbai, Bob to a city the provider does not
    know, Carol to Pune, and Dave has unsubscribed. *)
Definition carol : string := "+15550003".
Definition dave : string := "+15550004".

Definition d_sweep : Dir :=
  after sample_env
    [req alice "hello"; req alice "subscribe Mumbai";
     req bob "hello"; req bob "subscribe Atlantis";
     req carol "hello"; req carol "subscribe Pune";
     req dave "hello"; req dave "subscribe Mumbai"; req dave "unsubscribe"]
    empty_dir.

(** Bob, whose city the provider does not know, comes before Alice in
    [userLocations]. *)
Definition d_bob_first : Dir :=
  after sample_env
    [req bob "hello"; req bob "subscribe Atlantis";
     req alice "hello"; req alice "subscribe Mumbai"]
    empty_dir.

(** ** Code that can reject *)

(** An [async] function whose promise can be rejected: [None] is the
    rejection, and what was done before it stays done. *)
Definition X (A : Type) : Type :=
  Dir -> list Event -> option A * Dir * list Event.

Definition retX {A : Type} (a : A) : X A := fun d _ => (Some a, d, []).

Definition throwX {A : Type} : X A := fun d _ => (None, d, []).

Definition bindX {A B : Type} (m : X A) (f : A -> X B) : X B :=
  fun d h =>
    match m d h with
    | (Some a, d1, e1) =>
        match f a d1 (h ++ e1) with
        | (b, d2, e2) => (b, d2, e1 ++ e2)
        end
    | (None, d1, e1) => (None, d1, e1)
    end.

(** A call that cannot reject. *)
Definition liftX {A : Type} (m : M A) : X A :=
  fun d h => match m d h with (a, d1, e1) => (Some a, d1, e1) end.

Notation "x <-- m ;; k" := (bindX m (fun x => k))
  (at level 61, m at next level, right associativity).
Notation "m ;;;; k" := (bindX m (fun _ => k))
  (at level 61, right associativity).

Fixpoint forEachX {A : Type} (f : A -> X unit) (xs : list A) : X unit :=
  match xs with
  | [] => retX tt
  | x :: xs' => f x ;;;; forEachX f xs'
  end.

(** ** The daily reminder of [ogindex.js] *)

Definition reminderText : string :=
  "⏰ Reminder: Please log today's farm activities (sprays, irrigation, fertilizers) in the PWA.".

(** [sendActivityReminder]: the translation is awaited outside any
    [try], so its failure rejects the call. *)
Definition sendActivityReminder (env : Env) (phone : string) : X unit :=
  d <-- liftX getDir ;;
  let lang := languageOf d phone in
  message <-- (if negb (lang_eqb lang en)
               then r <-- liftX (translateText env reminderText lang) ;;
                    match r with
                    | Some t => retX t
                    | None => throwX
                    end
               else retX reminderText) ;;
  liftX (sendWhatsAppMessage env phone message).

(** The callback of [cron.schedule] for the daily reminders: a loop
    over [subscribers] that a rejected reminder ends. *)
Definition reminderSweep (env : Env) : X unit :=
  d <-- liftX getDir ;;
  forEachX (sendActivityReminder env) (subscribers d).

(** ** The earlier handler kept in [ogindex.js] *)

(** The second half of [ogindex.js] is the handler as it was before the
    activity log, the [status] command, the sender check and
    [replyAndEnd] were added.  The texts it shares with the later
    handler are reused. *)
Module Old.

Section Handler.

Variable env : Env.

(** [getWeather] reads [weather.wind.speed] and
    [weather.weather[0].main] without a test: an answer without [wind]
    or without a first condition throws and gives [null]. *)
Definition readWeather (weather : ApiData) : option Weather :=
  match api_main weather with
  | None => None
  | Some main_temp =>
      let alerts := [] in
      let alerts :=
        if Qgtb main_temp (35 # 1) then push alerts (heatAlert env main_temp)
        else alerts in
      let alerts :=
        if Qltb main_temp (5 # 1) then push alerts (coldAlert env main_temp)
        else alerts in
      match api_wind weather with
      | None => None
      | Some speed =>
          let alerts :=
            if Qgtb speed (10 # 1) then push alerts (windAlert env speed)
            else alerts in
          match weather0 weather with
          | None => None
          | Some c =>
              let alerts :=
                if (cond_main c =? "Rain")%string
                then push alerts (rainAlert (cond_description c))
                else alerts in
              let alerts :=
                if (cond_main c =? "Thunderstorm")%string
                then push alerts (stormAlert (cond_description c))
                else alerts in
              Some {| city := api_name weather;
                      temp := main_temp;
                      description := cond_description c;
                      alerts := alerts;
                      wind := speed |}
          end
      end
  end.

Definition getWeather (q : string) : M (option Weather) :=
  h <- history ;;
  let response := axios_get env h q in
  emit (EvWeatherGet q response) ;;;
  match response with
  | None => ret None
  | Some weather => ret (readWeather weather)
  end.

Definition advicePrompt (weather : Weather) (langCode : Lang) : string :=
  Js.nl +++
  "  You are an expert agricultural advisor. You can suggest crops, pesticides, and fertilizers based on weather conditions. Provide just the repsonse for the query in the specificied language without any additional commentary. Provide plain text without any markdown or formatting." +++
  Js.nl +++
  "    Given this weather: " +++
  Js.nl +++
  "  Temperature: " +++
  num_to_string env (temp weather) +++
  "°C," +++
  Js.nl +++
  "  Conditions: " +++
  description weather +++
  ", " +++
  Js.nl +++
  "  Wind speed: " +++
  num_to_string env (wind weather) +++
  " m/s." +++
  Js.nl +++
  "  " +++
  Js.nl +++
  "  Suggest 3 suitable crops and 1 pesticide and 1 fertilizer recommendation for farmers. " +++
  Js.nl +++
  "  Keep the advice short and within 1400 characters." +++
  Js.nl +++
  Js.nl +++
  Js.nl +++
  "  " +++
  Js.nl +++
  "  Respond in " +++
  langName langCode +++
  ".".

Definition getCropAdviceAI (weather : Weather) (langCode : Lang) : M string :=
  h <- history ;;
  let prompt := advicePrompt weather langCode in
  let result := generateContent env h prompt in
  emit (EvGenerate Advisory prompt result) ;;;
  match result with
  | Some text => ret text
  | None => ret adviceFallback
  end.

Definition translatePrompt (text : string) (langCode : Lang) : string :=
  "Translate the following text to " +++ lang_code langCode +++ ":" +++
  Js.nl +++ Js.nl +++ text.

(** [translateText] has no [try]: a failed call rejects. *)
Definition translateText (text : string) (langCode : Lang) : X string :=
  h <-- liftX history ;;
  let prompt := translatePrompt text langCode in
  let result := generateContent env h prompt in
  liftX (emit (EvGenerate Translator prompt result)) ;;;;
  match result with
  | Some t => retX t
  | None => throwX
  end.

Definition tipsSection (aiAdvice : string) : string :=
  Js.nl +++ Js.nl +++ "🌱 *Farming Tips*:" +++ Js.nl +++ aiAdvice.

Definition helpText : string :=
  "🤖 Weather Alert Bot Commands:" +++
  Js.nl +++
  Js.nl +++
  "📍 *subscribe [city]* - Get weather alerts" +++
  Js.nl +++
  "❌ *unsubscribe* - Stop alerts  " +++
  Js.nl +++
  "🌤️ *weather [city]* - Current weather" +++
  Js.nl +++
  "❓ *help* - Show this message" +++
  Js.nl +++
  Js.nl +++
  "Example: " +++
  Js.dquote +++
  "subscribe Mumbai" +++
  Js.dquote.

(** What the command branches leave in [response]. *)
Definition respond (from incomingMsg : string) : M string :=
  if Js.startsWith incomingMsg "subscribe" then
    let city := subscribeCity incomingMsg in
    if negb (city =? "")%string then
      modify (with_subscribers (fun s => JsSet.add s from)) ;;;
      modify (with_userLocations (fun m => JsMap.set m from city)) ;;;
      ret (subscribedText city)
    else ret subscribeUsageText
  else if (incomingMsg =? "unsubscribe")%string then
    modify (with_subscribers (fun s => JsSet.delete s from)) ;;;
    modify (with_userLocations (fun m => JsMap.delete m from)) ;;;
    ret unsubscribedText
  else if Js.startsWith incomingMsg "weather" then
    d <- getDir ;;
    let city := Js.or_else (weatherCity incomingMsg)
                           (opt_str (JsMap.get (userLocations d) from)) in
    if negb (city =? "")%string then
      weather <- getWeather city ;;
      match weather with
      | Some weather =>
          let response := weatherSection env weather in
          d <- getDir ;;
          let userLang := languageOf d from in
          aiAdvice <- getCropAdviceAI weather userLang ;;
          if 0 <? String.length aiAdvice
          then ret (response +++ tipsSection aiAdvice)
          else ret response
      | None => ret weatherFailedText
      end
    else ret weatherUsageText
  else ret helpText.

(** The first-contact block: the welcome is sent and the handler goes
    on. *)
Definition greet (from : string) : X unit :=
  d <-- liftX getDir ;;
  if negb (JsMap.has (userPreferences d) from) then
    liftX (modify (with_userPreferences
                     (fun m => JsMap.set m from {| language := en |}))) ;;;;
    liftX (sendWhatsAppMessage env from welcome)
  else retX tt.

(** What follows the first-contact block. *)
Definition answer (from incomingMsg : string) : X Response :=
  if (incomingMsg =? "1")%string || (incomingMsg =? "2")%string
     || (incomingMsg =? "3")%string then
    let '(code, name) :=
      if (incomingMsg =? "1")%string then (hi, "Hindi")
      else if (incomingMsg =? "2")%string then (mr, "Marathi")
      else if (incomingMsg =? "3")%string then (en, "English")
      else (en, "English") in
    liftX (modify (with_userPreferences
                     (fun m => JsMap.set m from {| language := code |}))) ;;;;
    liftX (sendWhatsAppMessage env from (languageSetText name)) ;;;;
    retX ok200
  else
    response <-- liftX (respond from incomingMsg) ;;
    d <-- liftX getDir ;;
    let userLang := languageOf d from in
    response <-- (if negb (lang_eqb userLang en)
                  then translateText response userLang
                  else retX response) ;;
    liftX (sendWhatsAppMessage env from response) ;;;;
    retX ok200.

(** [app.post("/webhook", ...)] of the earlier handler.  Reading
    [req.body.Body.toLowerCase()] or [req.body.From.replace(...)] of an
    absent field throws; a rejected handler sends no HTTP answer. *)
Definition webhook (req : Request) : X Response :=
  match Body req, From req with
  | Some body, Some fromRaw =>
      let incomingMsg := Js.trim (Js.toLowerCase body) in
      let from := Js.remove_first "whatsapp:" fromRaw in
      greet from ;;;; answer from incomingMsg
  | _, _ => throwX
  end.

End Handler.

End Old.

(** ** The rule-based advice of the first handler *)

(** [getCropAdvice], written before the Gemini call and left in the
    first handler without a caller. *)
Definition getCropAdvice (weather : Weather) : list string :=
  let advice := [] in
  let advice :=
    if Qgtb (temp weather) (35 # 1)
    then push advice "Consider heat-tolerant crops like millet or sorghum."
    else advice in
  let advice :=
    if Qgtb (temp weather) (20 # 1) && Qle_bool (temp weather) (35 # 1)
    then push advice "This is a good time for vegetables like spinach or okra."
    else advice in
  let advice :=
    if Js.includes (description weather) "rain"
       || Js.includes (description weather) "mist"
       || Js.includes (description weather) "fog"
    then push advice "High humidity: monitor for fungal diseases."
    else advice in
  let advice :=
    if Qgtb (wind weather) (10 # 1)
    then push advice "Protect young plants with windbreaks."
    else advice in
  let advice :=
    if List.length advice =? 0
    then push advice
           "No specific tips for this weather. Monitor your fields regularly."
    else advice in
  advice.

(** ** Reading the handler's texts and tables *)

(** The text of the [status] reply, for the city, language code and
    subscription word it shows. *)
Definition statusLines (city langCode yesNo : string) : string :=
  "📋 *Your Settings*" +++ Js.nl +++ Js.nl +++
  "🌍 City: " +++ city +++ Js.nl +++
  "🗣️ Language: " +++ langCode +++ Js.nl +++
  "🔔 Subscribed: " +++ yesNo +++ Js.nl +++ Js.nl +++
  "You can type " +++ Js.dquote +++ "subscribe [city]" +++ Js.dquote +++
  " to change city or " +++ Js.dquote +++ "1/2/3" +++ Js.dquote +++
  " to change language.".

(** The language a message selects, with its name in the reply. *)
Definition langChoice (msg : string) : option (Lang * string) :=
  if (msg =? "1")%string then Some (hi, "Hindi")
  else if (msg =? "2")%string then Some (mr, "Marathi")
  else if (msg =? "3")%string then Some (en, "English")
  else None.
(** ** The handler on the parsed body *)

(** [express.urlencoded({ extended: false })] leaves in [req.body] a
    string for a key that occurs once and the array of its values for a
    key that occurs several times.  [webhook] above is the handler on a
    body whose keys occur at most once; here it is on any request. *)
Module Parsed.

Inductive Param : Type :=
| One (s : string)
| Many (xs : list string).

(** The keys of [req.body] the handler reads. *)
Record Fields : Type := { Body : option Param; From : option Param }.

(** [req.body] is the object of the keys, or [undefined] when the
    parser has left the request alone (a content type that is not
    urlencoded, under Express 5; Express 4 then leaves an object
    without keys). *)
Record Request : Type := { body : option Fields }.

(** [v.toString()]: an array is its elements joined by commas. *)
Definition toString (v : Param) : string :=
  match v with
  | One s => s
  | Many xs => Js.join "," xs
  end.

(** [(req.body.Body || "").toString()]: an array is truthy. *)
Definition incomingRaw (fields : Fields) : string :=
  match Body fields with
  | Some v => toString v
  | None => ""
  end.

(** The receiver of [.replace("whatsapp:", "")] in
    [(req.body.From || "").replace("whatsapp:", "")].  An array has no
    method [replace]: the call is a [TypeError], here [None]. *)
Definition fromRaw (fields : Fields) : option string :=
  match From fields with
  | Some (One s) => Some s
  | Some (Many _) => None
  | None => Some ""
  end.

(** The sender of the request, when the handler gets as far as
    computing it. *)
Definition sender (r : Request) : option string :=
  match body r with
  | Some fields =>
      match fromRaw fields with
      | Some s => Some (Js.trim (Js.remove_first "whatsapp:" s))
      | None => None
      end
  | None => None
  end.

(** [app.post("/webhook", ...)]: reading a key of [undefined] and
    calling [replace] on an array throw before anything else is done. *)
Definition webhook (env : Env) (r : Request) : X Response :=
  match body r with
  | Some fields =>
      match fromRaw fields with
      | Some s => liftX (webhook env (req s (incomingRaw fields)))
      | None => throwX
      end
  | None => throwX
  end.

(** The request with each key once. *)
Definition once (from text : string) : Request :=
  {| body := Some {| Body := Some (One text); From := Some (One from) |} |}.

End Parsed.

(** ** The voice pipeline and the audio branch of the voice handler *)

From Stdlib Require DecimalPos DecimalZ SpecFloat.

(** [voicePipeline.js] and the audio branch of the handler that imports
    it.  This branch reads no directory; its providers are the media
    download, speech-to-text, Gemini, text-to-speech, the file system
    and Twilio. *)
Module Voice.

Inductive VoiceEvent : Type :=
| VMediaGet (url : option string) (r : option string)
| VRecognize (audio : string) (r : option (list (list string)))
| VGenerate (prompt : string) (r : option string)
| VSynthesize (text : string) (r : option string)
| VWriteFile (path content : string) (ok : bool)
| VMediaMessage (to mediaUrl : string) (ok : bool)
| VTextMessage (to body : string) (ok : bool).

(** The providers, as functions of what happened before.  The answer
    of speech-to-text is the list [results], each result being the
    transcripts of its [alternatives]; [now_ms] is [Date.now()]. *)
Record VoiceEnv : Type := {
  media_get : list VoiceEvent -> option string -> option string;
  recognize : list VoiceEvent -> string -> option (list (list string));
  generate : list VoiceEvent -> string -> option string;
  synthesize : list VoiceEvent -> string -> option string;
  now_ms : list VoiceEvent -> Z;
  write_file : list VoiceEvent -> string -> string -> bool;
  send_media : list VoiceEvent -> string -> string -> bool;
  send_text : list VoiceEvent -> string -> string -> bool
}.

(** The fields of [req.body] the audio test and the audio branch
    read. *)
Record VoiceRequest : Type := {
  NumMedia : option string;
  MediaContentType0 : option string;
  MediaUrl0 : option string
}.

(** A computation over the history of calls; [None] is a thrown
    exception or a rejected promise. *)
Definition V (A : Type) : Type :=
  list VoiceEvent -> option A * list VoiceEvent.

Definition retV {A : Type} (a : A) : V A := fun _ => (Some a, []).
Definition throwV {A : Type} : V A := fun _ => (None, []).

Definition bindV {A B : Type} (m : V A) (f : A -> V B) : V B :=
  fun h =>
    match m h with
    | (Some a, e1) =>
        match f a (h ++ e1) with
        | (b, e2) => (b, e1 ++ e2)
        end
    | (None, e1) => (None, e1)
    end.

(** A provider call: the event is recorded, a failed call throws. *)
Definition callV {A : Type} (ask : list VoiceEvent -> option A)
  (ev : option A -> VoiceEvent) : V A :=
  fun h => (ask h, [ev (ask h)]).

(** A call that succeeds or throws without a value. *)
Definition actV (ask : list VoiceEvent -> bool) (ev : bool -> VoiceEvent)
  : V unit :=
  fun h => (if ask h then Some tt else None, [ev (ask h)]).

Notation "x <~ m ;; k" := (bindV m (fun x => k))
  (at level 61, m at next level, right associativity).

Section Pipeline.

Variable env : VoiceEnv.

(** [results.map(r => r.alternatives[0].transcript)]: a result without
    alternatives throws. *)
Fixpoint firstAlternatives (results : list (list string))
  : option (list string) :=
  match results with
  | [] => Some []
  | alternatives :: rest =>
      match alternatives with
      | [] => None
      | transcript :: _ =>
          match firstAlternatives rest with
          | Some ts => Some (transcript :: ts)
          | None => None
          end
      end
  end.

Definition transcribeAudio (audioBuffer : string) : V string :=
  results <~ callV (fun h => recognize env h audioBuffer)
                   (VRecognize audioBuffer) ;;
  match firstAlternatives results with
  | Some ts => retV (Js.join Js.nl ts)
  | None => throwV
  end.

Definition generateAIResponse (promptText : string) : V string :=
  callV (fun h => generate env h promptText) (VGenerate promptText).

Definition synthesizeSpeech (text : string) : V string :=
  callV (fun h => synthesize env h text) (VSynthesize text).

(** The [catch] of [processVoiceRequest] logs and throws again. *)
Definition processVoiceRequest (incomingAudioBuffer : string) : V string :=
  transcribedText <~ transcribeAudio incomingAudioBuffer ;;
  aiResponse <~ generateAIResponse transcribedText ;;
  synthesizeSpeech aiResponse.

(** A JavaScript number is a double: a [spec_float] of precision 53
    with exponents up to 1024. *)
Definition Number : Type := SpecFloat.spec_float.

(** The double of the whole number [n], rounded to nearest with ties
    to even; [negative] is the sign of a zero. *)
Definition double (n : Z) (negative : bool) : Number :=
  SpecFloat.binary_normalize 53 1024 n 0 negative.

(** [x > 0], which is false for [NaN]. *)
Definition gt0 (x : Number) : bool :=
  SpecFloat.SFltb (SpecFloat.S754_zero false) x.

(** [parseInt(s, 10)]: white space at the start is skipped, a sign is
    read, then the longest run of decimal digits.  Without a digit the
    result is [NaN]; otherwise it is the double of the whole number the
    digits write, with the sign. *)
Definition digit_of (c : ascii) : option (Decimal.uint -> Decimal.uint) :=
  let n := nat_of_ascii c in
  if n =? 48 then Some Decimal.D0 else if n =? 49 then Some Decimal.D1
  else if n =? 50 then Some Decimal.D2 else if n =? 51 then Some Decimal.D3
  else if n =? 52 then Some Decimal.D4 else if n =? 53 then Some Decimal.D5
  else if n =? 54 then Some Decimal.D6 else if n =? 55 then Some Decimal.D7
  else if n =? 56 then Some Decimal.D8 else if n =? 57 then Some Decimal.D9
  else None.

Fixpoint digitsPrefix (s : string) : Decimal.uint :=
  match s with
  | EmptyString => Decimal.Nil
  | String c s' =>
      match digit_of c with
      | Some digit => digit (digitsPrefix s')
      | None => Decimal.Nil
      end
  end.

Definition parseInt10 (s : string) : Number :=
  let s := Js.trimStart s in
  let negative := Js.startsWith s "-" in
  let s := if Js.startsWith s "-" || Js.startsWith s "+"
           then Js.slice 1 s else s in
  match digitsPrefix s with
  | Decimal.Nil => SpecFloat.S754_nan
  | digits =>
      double (if negative then Z.opp (Z.of_uint digits)
              else Z.of_uint digits) negative
  end.

(** [parseInt(req.body.NumMedia || '0', 10)]. *)
Definition numMedia (req : VoiceRequest) : Number :=
  parseInt10 (Js.or_else (opt_str (NumMedia req)) "0").

(** The test [numMedia > 0 &&
    req.body.MediaContentType0.startsWith('audio')].  A comparison with
    [NaN] is false; with media and no content type the test throws,
    outside any [try]. *)
Definition isAudio (req : VoiceRequest) : option bool :=
  if gt0 (numMedia req) then
    match MediaContentType0 req with
    | Some contentType => Some (Js.startsWith contentType "audio")
    | None => None
    end
  else Some false.

Definition apologyText : string := "Sorry, could not process your audio.".

Definition show_ms (n : Z) : string := NilZero.string_of_int (Z.to_int n).

(** The body of the [try]. *)
Definition voiceReply (from : string) (req : VoiceRequest) : V unit :=
  incomingAudioBuffer <~ callV (fun h => media_get env h (MediaUrl0 req))
                               (VMediaGet (MediaUrl0 req)) ;;
  audioResponseBuffer <~ processVoiceRequest incomingAudioBuffer ;;
  fileName <~ (fun h => (Some (show_ms (now_ms env h) +++ "_response.mp3"),
                         [])) ;;
  _ <~ actV (fun h => write_file env h ("responses/" +++ fileName)
                        audioResponseBuffer)
            (VWriteFile ("responses/" +++ fileName) audioResponseBuffer) ;;
  actV (fun h => send_media env h from
                   ("https://YOUR_DOMAIN/responses/" +++ fileName))
       (VMediaMessage from ("https://YOUR_DOMAIN/responses/" +++ fileName)).

(** The audio branch: whatever fails inside the [try], the [catch]
    sends the apology, and the answer is [200 OK] either way. *)
Definition handleVoice (from : string) (req : VoiceRequest)
  (h : list VoiceEvent) : Response * list VoiceEvent :=
  match voiceReply from req h with
  | (Some _, e) => (ok200, e)
  | (None, e) =>
      (ok200,
       e ++ [VTextMessage from apologyText
               (send_text env (h ++ e) from apologyText)])
  end.

End Pipeline.

Definition is_text_message (e : VoiceEvent) : bool :=
  match e with VTextMessage _ _ _ => true | _ => false end.

Definition is_delivered_media (e : VoiceEvent) : bool :=
  match e with VMediaMessage _ _ true => true | _ => false end.

Definition is_stage (e : VoiceEvent) : bool :=
  match e with
  | VRecognize _ _ | VGenerate _ _ | VSynthesize _ _ => true
  | _ => false
  end.

(** Every provider answers. *)
Definition up_env : VoiceEnv :=
  {| media_get := fun _ _ => Some "ogg-bytes";
     recognize := fun _ _ => Some [["when to sow wheat"; "went to so wheat"];
                                   ["in pune"]];
     generate := fun _ _ => Some "Sow in November.";
     synthesize := fun _ _ => Some "mp3-bytes";
     now_ms := fun _ => 1700000000000%Z;
     write_file := fun _ _ _ => true;
     send_media := fun _ _ _ => true;
     send_text := fun _ _ _ => true |}.

(** Speech-to-text is down. *)
Definition deaf_env : VoiceEnv :=
  {| media_get := fun _ _ => Some "ogg-bytes";
     recognize := fun _ _ => None;
     generate := fun _ _ => Some "Sow in November.";
     synthesize := fun _ _ => Some "mp3-bytes";
     now_ms := fun _ => 1700000000000%Z;
     write_file := fun _ _ _ => true;
     send_media := fun _ _ _ => true;
     send_text := fun _ _ _ => true |}.

Definition voice_note : VoiceRequest :=
  {| NumMedia := Some "1"; MediaContentType0 := Some "audio/ogg";
     MediaUrl0 := Some "https://api.twilio.com/media/1" |}.

End Voice.

(** * Properties *)

Unset Implicit Arguments.

(** ** Strings *)

Module JsFacts.
Import Js.

Lemma length_zero (s : string) : String.length s = 0 -> s = "".
Proof. destruct s; simpl; [reflexivity | discriminate]. Qed.

(** *** Prefixes *)

Lemma prefix_slice (p s : string) :
  String.prefix p s = true -> s = p +++ slice (String.length p) s.
Proof.
  revert s. induction p as [|c p IH]; intros s H; simpl.
  - reflexivity.
  - destruct s as [|c' s]; simpl in H; [discriminate|].
    destruct (ascii_dec c c') as [->|]; [|discriminate].
    simpl. f_equal. auto.
Qed.

Lemma prefix_app (p s : string) : String.prefix p (p +++ s) = true.
Proof.
  induction p as [|c p IH]; simpl; [now destruct s|].
  destruct (ascii_dec c c); [exact IH | congruence].
Qed.

Lemma slice_app (p s : string) : slice (String.length p) (p +++ s) = s.
Proof. induction p as [|c p IH]; simpl; [reflexivity | exact IH]. Qed.

Lemma slice_length (n : nat) (s : string) :
  String.length (slice n s) <= String.length s.
Proof.
  revert s. induction n as [|n IH]; intros [|c s]; simpl; auto.
Qed.

Lemma append_nil_r (s : string) : s +++ "" = s.
Proof. induction s as [|c s IH]; simpl; [reflexivity | now rewrite IH]. Qed.

Lemma append_assoc (a b c : string) : (a +++ b) +++ c = a +++ b +++ c.
Proof. induction a as [|x a IH]; simpl; [reflexivity | now rewrite IH]. Qed.

Lemma append_length (a b : string) :
  String.length (a +++ b) = String.length a + String.length b.
Proof. induction a as [|x a IH]; simpl; [reflexivity | now rewrite IH]. Qed.

(** Two prefixes of one string: the shorter is a prefix of the longer. *)
Lemma prefix_prefix (a b s : string) :
  String.prefix a s = true -> String.prefix b s = true ->
  String.length a <= String.length b -> String.prefix a b = true.
Proof.
  revert b s. induction a as [|x a IH]; intros b s Ha Hb Hl;
    [now destruct b|].
  destruct b as [|y b]; [simpl in Hl; lia|].
  destruct s as [|z s]; [discriminate|].
  simpl in *.
  destruct (ascii_dec x z) as [->|]; [|discriminate].
  destruct (ascii_dec y z) as [->|]; [|discriminate].
  destruct (ascii_dec z z); [|congruence].
  apply (IH b s); auto. lia.
Qed.

(** *** The white-space characters as bytes *)

Lemma ws_shaped w : In w whiteSpaceBytes -> well_shaped w = true.
Proof.
  assert (H : forallb well_shaped whiteSpaceBytes = true) by reflexivity.
  rewrite forallb_forall in H. apply H.
Qed.

Lemma ws_no_letter w : In w whiteSpaceBytes -> no_letter w = true.
Proof.
  assert (H : forallb no_letter whiteSpaceBytes = true) by reflexivity.
  rewrite forallb_forall in H. apply H.
Qed.

(** No white-space character is the beginning of another one. *)
Lemma ws_prefix_free w w' :
  In w whiteSpaceBytes -> In w' whiteSpaceBytes ->
  String.prefix w w' = true -> w = w'.
Proof.
  assert (H : forallb (fun a => forallb (fun b =>
                implb (String.prefix a b) (a =? b)%string) whiteSpaceBytes)
              whiteSpaceBytes = true) by reflexivity.
  rewrite forallb_forall in H. intros Hw Hw' Hp.
  specialize (H w Hw). rewrite forallb_forall in H. specialize (H w' Hw').
  rewrite Hp in H. now apply String.eqb_eq.
Qed.

Lemma match_len_spec ws s :
  (forall w, In w ws -> w <> "") ->
  match match_len ws s with
  | O => forall w, In w ws -> String.prefix w s = false
  | S k => exists w, In w ws /\ String.prefix w s = true
                     /\ String.length w = S k
  end.
Proof.
  induction ws as [|w0 ws IH]; intros Hne; simpl; [intros w []|].
  assert (Hne' : forall w, In w ws -> w <> "") by (intros w H; apply Hne; now right).
  specialize (IH Hne').
  destruct (String.prefix w0 s) eqn:E.
  - destruct w0 as [|c w0]; [now destruct (Hne "" (or_introl eq_refl))|].
    simpl. exists (String c w0). auto.
  - destruct (match_len ws s) as [|k].
    + intros w [<-|H]; auto.
    + destruct IH as (w & ? & ? & ?). exists w. auto.
Qed.

Lemma ws_nonempty w : In w whiteSpaceBytes -> w <> "".
Proof. intros H E. apply ws_shaped in H. now rewrite E in H. Qed.

Lemma ws_len_spec s :
  match ws_len s with
  | O => forall w, In w whiteSpaceBytes -> String.prefix w s = false
  | S k => exists w, In w whiteSpaceBytes /\ String.prefix w s = true
                     /\ String.length w = S k
  end.
Proof. apply match_len_spec, ws_nonempty. Qed.

(** A string that starts with a white-space character. *)
Lemma ws_len_app w rest :
  In w whiteSpaceBytes -> ws_len (w +++ rest) = String.length w.
Proof.
  intros Hw. pose proof (ws_len_spec (w +++ rest)) as H.
  destruct (ws_len (w +++ rest)) as [|k].
  - pose proof (prefix_app w rest) as Hp. rewrite (H w Hw) in Hp.
    discriminate.
  - destruct H as (w' & Hw' & Hp & Hl). rewrite <- Hl. f_equal.
    destruct (Nat.le_ge_cases (String.length w) (String.length w')) as [L|L].
    + symmetry. apply ws_prefix_free; auto.
      apply (prefix_prefix w w' (w +++ rest)); auto using prefix_app.
    + apply ws_prefix_free; auto.
      apply (prefix_prefix w' w (w +++ rest)); auto using prefix_app.
Qed.

Lemma ws_len_some s k :
  ws_len s = S k ->
  exists w rest, In w whiteSpaceBytes /\ s = w +++ rest
                 /\ String.length w = S k /\ slice (S k) s = rest.
Proof.
  intros H. pose proof (ws_len_spec s) as Hs. rewrite H in Hs.
  destruct Hs as (w & Hw & Hp & Hl).
  exists w, (slice (String.length w) s). repeat split; auto.
  - now apply prefix_slice.
  - now rewrite Hl.
Qed.

(** *** [trimStart] *)

Lemma skipWs_slice k s : skipWs k s = skipWs 0 (slice k s).
Proof.
  revert k. induction s as [|c s IH]; intros [|k]; try reflexivity.
  cbn [skipWs slice]. apply IH.
Qed.

Lemma trimStart_step s :
  trimStart s = match ws_len s with
                | O => s
                | S k => trimStart (slice (S k) s)
                end.
Proof.
  unfold trimStart. destruct s as [|c s]; [reflexivity|].
  cbn [skipWs]. destruct (ws_len (String c s)); [reflexivity|].
  cbn [slice]. apply skipWs_slice.
Qed.

Lemma trimStart_none s : ws_len s = 0 -> trimStart s = s.
Proof. intros H. now rewrite trimStart_step, H. Qed.

Lemma trimStart_ws w rest :
  In w whiteSpaceBytes -> trimStart (w +++ rest) = trimStart rest.
Proof.
  intros Hw. rewrite trimStart_step, (ws_len_app w rest Hw).
  destruct (String.length w) eqn:E.
  - apply length_zero in E. now destruct (ws_nonempty w Hw).
  - now rewrite <- E, slice_app.
Qed.

(** Induction along the white space at the start of a string. *)
Lemma trimStart_ind (P : string -> Prop) :
  (forall s, ws_len s = 0 -> P s) ->
  (forall w rest, In w whiteSpaceBytes -> P rest -> P (w +++ rest)) ->
  forall s, P s.
Proof.
  intros H0 HS s.
  remember (String.length s) as n eqn:En.
  revert s En. induction n as [n IH] using lt_wf_ind. intros s En.
  destruct (ws_len s) as [|k] eqn:E; [now apply H0|].
  destruct (ws_len_some s k E) as (w & rest & Hw & -> & Hl & _).
  apply HS; [exact Hw|].
  apply (IH (String.length rest)); [|reflexivity].
  rewrite En, append_length, Hl. lia.
Qed.

Lemma all_ws_iff s : all_ws s = true <-> trimStart s = "".
Proof. unfold all_ws. apply String.eqb_eq. Qed.

Lemma all_ws_false s : all_ws s = false <-> trimStart s <> "".
Proof. unfold all_ws. apply String.eqb_neq. Qed.

Lemma trimStart_empty (s : string) : trimStart s = "" <-> all_ws s = true.
Proof. symmetry. apply all_ws_iff. Qed.

Lemma trimStart_all_ws (s : string) : all_ws s = true -> trimStart s = "".
Proof. apply trimStart_empty. Qed.

Lemma all_ws_ws w rest :
  In w whiteSpaceBytes -> all_ws (w +++ rest) = all_ws rest.
Proof. intros Hw. unfold all_ws. now rewrite trimStart_ws. Qed.

Lemma trimStart_idem s : trimStart (trimStart s) = trimStart s.
Proof.
  induction s as [s H|w rest Hw IH] using trimStart_ind.
  - rewrite (trimStart_none s H). now apply trimStart_none.
  - now rewrite !trimStart_ws.
Qed.

Lemma all_ws_trimStart (s : string) : all_ws (trimStart s) = all_ws s.
Proof. unfold all_ws. now rewrite trimStart_idem. Qed.

Lemma trimStart_app_ws (p s : string) :
  all_ws p = true -> trimStart (p +++ s) = trimStart s.
Proof.
  induction p as [p H|w rest Hw IH] using trimStart_ind; intros Hp.
  - apply all_ws_iff in Hp. rewrite trimStart_none in Hp by exact H.
    now subst p.
  - rewrite all_ws_ws in Hp by exact Hw.
    rewrite append_assoc, trimStart_ws by exact Hw. auto.
Qed.

(** White space begins with a byte that is no continuation byte. *)
Lemma all_ws_head c p : all_ws (String c p) = true -> is_cont c = false.
Proof.
  intros H. apply all_ws_iff in H.
  destruct (ws_len (String c p)) as [|k] eqn:E.
  - rewrite trimStart_none in H by exact E. discriminate.
  - destruct (ws_len_some _ k E) as (w & rest & Hw & Hs & _).
    apply ws_shaped in Hw. destruct w as [|c' w]; [discriminate|].
    simpl in Hs. injection Hs as <- _. simpl in Hw.
    apply andb_true_iff in Hw as [Hw _]. now destruct (is_cont c).
Qed.

Lemma prefix_cont_app r s p :
  all_cont r = true ->
  (forall c p', p = String c p' -> is_cont c = false) ->
  String.prefix r (s +++ p) = true -> String.prefix r s = true.
Proof.
  intros Hr Hp. revert s. induction r as [|a r IH]; intros s H;
    [now destruct s|].
  simpl in Hr. apply andb_true_iff in Hr as [Ha Hr].
  destruct s as [|b s].
  - simpl in H. destruct p as [|c p']; [discriminate|].
    simpl in H. destruct (ascii_dec a c) as [->|]; [|discriminate].
    rewrite (Hp c p' eq_refl) in Ha. discriminate.
  - simpl in *. destruct (ascii_dec a b); [|discriminate]. auto.
Qed.

(** White space after a text that is not empty does not change how the
    text begins. *)
Lemma ws_len_app_ws c s p :
  all_ws p = true -> ws_len (String c s +++ p) = ws_len (String c s).
Proof.
  intros Hp.
  destruct (ws_len (String c s)) as [|k] eqn:E.
  - pose proof (ws_len_spec (String c s)) as H0. rewrite E in H0.
    destruct (ws_len (String c s +++ p)) as [|j] eqn:E'; [reflexivity|].
    exfalso.
    pose proof (ws_len_spec (String c s +++ p)) as H1. rewrite E' in H1.
    destruct H1 as (w & Hw & Hpre & _).
    specialize (H0 w Hw). pose proof (ws_shaped w Hw) as Hsh.
    destruct w as [|a r]; [discriminate|].
    simpl in Hsh. apply andb_true_iff in Hsh as [_ Hr].
    simpl in Hpre, H0. destruct (ascii_dec a c); [|discriminate].
    rewrite (prefix_cont_app r s p Hr) in H0; [discriminate| |exact Hpre].
    intros c' p' ->. now apply all_ws_head in Hp.
  - destruct (ws_len_some _ k E) as (w & rest & Hw & Hs & Hl & _).
    rewrite Hs, append_assoc, ws_len_app by exact Hw. exact Hl.
Qed.

Lemma trimStart_app_r s p :
  all_ws p = true ->
  trimStart (s +++ p) = if all_ws s then "" else trimStart s +++ p.
Proof.
  intros Hp. induction s as [s H|w rest Hw IH] using trimStart_ind.
  - destruct s as [|c s].
    + simpl. now apply all_ws_iff.
    + assert (Hs : all_ws (String c s) = false).
      { apply all_ws_false. now rewrite trimStart_none. }
      rewrite Hs, (trimStart_none (String c s)) by exact H.
      apply trimStart_none. now rewrite ws_len_app_ws.
  - rewrite append_assoc, all_ws_ws, (trimStart_ws w rest),
      (trimStart_ws w (rest +++ p)) by exact Hw.
    exact IH.
Qed.

Lemma all_ws_app_r s p : all_ws p = true -> all_ws (s +++ p) = all_ws s.
Proof.
  intros Hp. unfold all_ws at 1. rewrite trimStart_app_r by exact Hp.
  destruct (all_ws s) eqn:E; [reflexivity|].
  apply String.eqb_neq. apply all_ws_false in E.
  destruct (trimStart s); [congruence | discriminate].
Qed.

Lemma all_ws_app p s :
  all_ws p = true -> all_ws (p +++ s) = all_ws s.
Proof. intros Hp. unfold all_ws. now rewrite trimStart_app_ws. Qed.

(** *** [trimEnd] and [trim] *)

Lemma trimEnd_empty (s : string) : trimEnd s = "" <-> all_ws s = true.
Proof.
  destruct s as [|c s]; [now split|].
  cbn [trimEnd]. destruct (all_ws (String c s)); split;
    congruence || discriminate.
Qed.

Lemma trimEnd_all_ws (s : string) : all_ws s = true -> trimEnd s = "".
Proof. apply trimEnd_empty. Qed.

Lemma trim_empty (s : string) : trim s = "" <-> all_ws s = true.
Proof. unfold trim. rewrite trimEnd_empty, all_ws_trimStart. tauto. Qed.

Lemma trimEnd_app_ws (s p : string) :
  all_ws p = true -> trimEnd (s +++ p) = trimEnd s.
Proof.
  intros Hp. induction s as [|c s IH].
  - now apply trimEnd_all_ws.
  - change (String c s +++ p) with (String c (s +++ p)) at 1.
    cbn [trimEnd]. rewrite IH.
    change (String c (s +++ p)) with (String c s +++ p).
    now rewrite all_ws_app_r.
Qed.

Lemma trim_app_ws_r (s p : string) :
  all_ws p = true -> trim (s +++ p) = trim s.
Proof.
  intros Hp. unfold trim. rewrite trimStart_app_r by exact Hp.
  destruct (all_ws s) eqn:E.
  - now rewrite (trimStart_all_ws s E).
  - now apply trimEnd_app_ws.
Qed.


(** What [trimEnd] removes is white space. *)
Lemma trimEnd_split s :
  exists t, s = trimEnd s +++ t /\ all_ws t = true.
Proof.
  induction s as [|c s (t & Hs & Ht)].
  - now exists "".
  - cbn [trimEnd]. destruct (all_ws (String c s)) eqn:E.
    + now exists (String c s).
    + exists t. split; [|exact Ht]. simpl. now f_equal.
Qed.

Lemma all_ws_trimEnd s : all_ws (trimEnd s) = all_ws s.
Proof.
  destruct (trimEnd_split s) as (t & Hs & Ht).
  rewrite Hs at 2. now rewrite all_ws_app_r.
Qed.

Lemma trimEnd_idem (s : string) : trimEnd (trimEnd s) = trimEnd s.
Proof.
  destruct (trimEnd_split s) as (t & Hs & Ht).
  rewrite Hs at 2. now rewrite trimEnd_app_ws.
Qed.

Lemma trim_trimEnd (s : string) : trimEnd (trim s) = trim s.
Proof. unfold trim. apply trimEnd_idem. Qed.

(** *** Lower case *)


(** A byte that is no letter is the lower case of itself only. *)
Lemma lower_char_no_letter (a c : ascii) :
  is_letter a = false -> lower_char c = a <-> c = a.
Proof.
  destruct c as [b0 b1 b2 b3 b4 b5 b6 b7].
  destruct b0, b1, b2, b3, b4, b5, b6, b7;
    try (intros _; reflexivity);
    cbv [lower_char is_upper]; cbn -[is_letter];
    (intros Ha; split; intros <-; try reflexivity; discriminate Ha).
Qed.

Lemma toLowerCase_app (a b : string) :
  toLowerCase (a +++ b) = toLowerCase a +++ toLowerCase b.
Proof. induction a as [|c a IH]; simpl; [reflexivity | now rewrite IH]. Qed.


Lemma toLowerCase_empty s : toLowerCase s = "" <-> s = "".
Proof. destruct s; simpl; split; congruence || discriminate. Qed.

Lemma prefix_toLowerCase w s :
  no_letter w = true ->
  String.prefix w (toLowerCase s) = String.prefix w s.
Proof.
  revert s. induction w as [|a w IH]; intros s Hw; [now destruct s|].
  simpl in Hw. apply andb_true_iff in Hw as [Ha Hw].
  apply negb_true_iff in Ha.
  destruct s as [|c s]; [reflexivity|]. simpl.
  destruct (ascii_dec a (lower_char c)) as [E|E];
    destruct (ascii_dec a c) as [E'|E']; auto.
  - exfalso. apply E'. symmetry. now apply (lower_char_no_letter a c Ha).
  - exfalso. apply E. symmetry. now apply (lower_char_no_letter a c Ha).
Qed.

Lemma ws_len_toLowerCase s : ws_len (toLowerCase s) = ws_len s.
Proof.
  unfold ws_len.
  assert (H : forall w, In w whiteSpaceBytes -> no_letter w = true)
    by apply ws_no_letter.
  induction whiteSpaceBytes as [|w ws IH]; [reflexivity|].
  simpl. rewrite prefix_toLowerCase by (apply H; now left).
  rewrite IH; [reflexivity|]. intros w' Hw'. apply H. now right.
Qed.

Lemma toLowerCase_slice n s :
  toLowerCase (slice n s) = slice n (toLowerCase s).
Proof. revert s. induction n as [|n IH]; intros [|c s]; simpl; auto. Qed.

Lemma toLowerCase_ws w : In w whiteSpaceBytes -> toLowerCase w = w.
Proof.
  assert (H : forallb (fun w => (toLowerCase w =? w)%string)
                whiteSpaceBytes = true) by reflexivity.
  rewrite forallb_forall in H. intros Hw. now apply String.eqb_eq, H.
Qed.

Lemma toLowerCase_trimStart (s : string) :
  toLowerCase (trimStart s) = trimStart (toLowerCase s).
Proof.
  induction s as [s H|w rest Hw IH] using trimStart_ind.
  - rewrite trimStart_none by exact H.
    symmetry. apply trimStart_none. now rewrite ws_len_toLowerCase.
  - rewrite toLowerCase_app, (toLowerCase_ws w Hw).
    rewrite (trimStart_ws w rest Hw), (trimStart_ws w _ Hw). exact IH.
Qed.

Lemma all_ws_toLowerCase s : all_ws (toLowerCase s) = all_ws s.
Proof.
  unfold all_ws. rewrite <- toLowerCase_trimStart.
  destruct (trimStart s); reflexivity.
Qed.

Lemma toLowerCase_trimEnd (s : string) :
  toLowerCase (trimEnd s) = trimEnd (toLowerCase s).
Proof.
  induction s as [|c s IH]; [reflexivity|].
  cbn [trimEnd toLowerCase].
  change (String (lower_char c) (toLowerCase s))
    with (toLowerCase (String c s)).
  rewrite all_ws_toLowerCase.
  destruct (all_ws (String c s)); [reflexivity|].
  cbn [toLowerCase]. now rewrite IH.
Qed.

(** Lower-casing and trimming commute. *)
Lemma toLowerCase_trim (s : string) :
  toLowerCase (trim s) = trim (toLowerCase s).
Proof.
  unfold trim. now rewrite toLowerCase_trimEnd, toLowerCase_trimStart.
Qed.

(** *** Upper-case letters do not come back *)






(** *** ASCII text *)














End JsFacts.

(** ** Containers *)

Module JsMapFacts.
Import JsMap.

Section Facts.
Variable V : Type.
Implicit Types (m : JsMap.t V) (k : string) (v : V).

Lemma has_In m k : has m k = true <-> In k (keys m).
Proof.
  unfold has. induction m as [|[k' v'] m IH]; simpl.
  - split; [discriminate | tauto].
  - destruct (String.eqb_spec k k') as [->|Hne].
    + split; auto.
    + rewrite IH. split; [auto | intros [H|H]; [congruence | exact H]].
Qed.

Lemma has_false_In m k : has m k = false <-> ~ In k (keys m).
Proof.
  rewrite <- has_In. destruct (has m k); split; congruence.
Qed.

Lemma get_set_same m k v : get (set m k v) k = Some v.
Proof.
  induction m as [|[k' v'] m IH]; simpl.
  - now rewrite String.eqb_refl.
  - destruct (String.eqb_spec k k') as [->|Hne]; simpl.
    + now rewrite String.eqb_refl.
    + destruct (String.eqb_spec k k'); [congruence | exact IH].
Qed.

Lemma get_set_other m k k' v : k <> k' -> get (set m k v) k' = get m k'.
Proof.
  intros Hne. induction m as [|[k0 v0] m IH]; simpl.
  - destruct (String.eqb_spec k' k); [congruence | reflexivity].
  - destruct (String.eqb_spec k k0) as [->|Hk]; simpl.
    + destruct (String.eqb_spec k' k0); [congruence | reflexivity].
    + now rewrite IH.
Qed.

Lemma has_set_same m k v : has (set m k v) k = true.
Proof. unfold has. now rewrite get_set_same. Qed.

Lemma has_set_other m k k' v : k <> k' -> has (set m k v) k' = has m k'.
Proof. intros H. unfold has. now rewrite get_set_other. Qed.

Lemma has_set m k k' v : has m k' = true -> has (set m k v) k' = true.
Proof.
  intros H. destruct (string_dec k k') as [->|Hne].
  - apply has_set_same.
  - now rewrite has_set_other.
Qed.

(** [set] on a key that is there keeps the keys. *)
Lemma keys_set_old m k v : has m k = true -> keys (set m k v) = keys m.
Proof.
  unfold has. induction m as [|[k' v'] m IH]; simpl; [discriminate|].
  destruct (String.eqb_spec k k') as [->|Hne]; simpl; [reflexivity|].
  intros H. now rewrite IH.
Qed.

(** [set] on a new key adds it at the end. *)
Lemma set_new m k v : has m k = false -> set m k v = m ++ [(k, v)].
Proof.
  unfold has. induction m as [|[k' v'] m IH]; simpl; [reflexivity|].
  destruct (String.eqb_spec k k') as [->|Hne]; [discriminate|].
  intros H. now rewrite IH.
Qed.

Lemma keys_set_new m k v : has m k = false -> keys (set m k v) = keys m ++ [k].
Proof.
  intros H. rewrite set_new by exact H. unfold keys. now rewrite map_app.
Qed.

Lemma NoDup_snoc (A : Type) (xs : list A) (x : A) :
  NoDup xs -> ~ In x xs -> NoDup (xs ++ [x]).
Proof.
  intros Hnd Hx. induction Hnd as [|y ys Hy Hnd IH]; simpl.
  - constructor; [tauto | constructor].
  - constructor.
    + rewrite in_app_iff. simpl. intros [H|[H|[]]]; [tauto|].
      subst. apply Hx. now left.
    + apply IH. intros H. apply Hx. now right.
Qed.

Lemma NoDup_keys_set m k v : NoDup (keys m) -> NoDup (keys (set m k v)).
Proof.
  intros H. destruct (has m k) eqn:E.
  - now rewrite keys_set_old.
  - rewrite keys_set_new by exact E.
    apply NoDup_snoc; [exact H | now apply has_false_In].
Qed.

Lemma get_delete_same m k : get (delete m k) k = None.
Proof.
  unfold delete. induction m as [|[k' v'] m IH]; simpl; [reflexivity|].
  destruct (String.eqb_spec k k') as [->|Hne]; simpl; [exact IH|].
  destruct (String.eqb_spec k k'); [congruence | exact IH].
Qed.

Lemma get_delete_other m k k' : k <> k' -> get (delete m k) k' = get m k'.
Proof.
  intros Hne. unfold delete.
  induction m as [|[k0 v0] m IH]; simpl; [reflexivity|].
  destruct (String.eqb_spec k k0) as [->|Hk]; simpl.
  - rewrite IH. destruct (String.eqb_spec k' k0); [congruence | reflexivity].
  - now rewrite IH.
Qed.

Lemma has_delete_same m k : has (delete m k) k = false.
Proof. unfold has. now rewrite get_delete_same. Qed.

Lemma has_delete m k k' : has (delete m k) k' = true -> has m k' = true.
Proof.
  destruct (string_dec k k') as [->|Hne].
  - now rewrite has_delete_same.
  - unfold has. now rewrite get_delete_other.
Qed.

Lemma NoDup_keys_delete m k : NoDup (keys m) -> NoDup (keys (delete m k)).
Proof.
  unfold delete, keys. induction m as [|[k' v'] m IH]; simpl; [auto|].
  intros H. inversion H as [|? ? Hin Hnd]; subst.
  destruct (negb (k =? k')%string); simpl; [|auto].
  constructor; [|auto].
  intros Hk. apply Hin. rewrite in_map_iff in *.
  destruct Hk as [x [Hx Hf]]. apply filter_In in Hf. exists x. tauto.
Qed.

(** Deleting twice is deleting once. *)
Lemma delete_idem m k : delete (delete m k) k = delete m k.
Proof.
  unfold delete. induction m as [|[k' v'] m IH]; simpl; [reflexivity|].
  destruct (negb (k =? k')%string) eqn:E; simpl; [|exact IH].
  now rewrite E, IH.
Qed.

End Facts.

End JsMapFacts.

Module JsSetFacts.
Import JsSet.

Lemma set_has_In (s : JsSet.t) (x : string) : has s x = true <-> In x s.
Proof.
  unfold has. rewrite existsb_exists. split.
  - intros [y [Hy E]]. apply String.eqb_eq in E. now subst.
  - intros H. exists x. split; [exact H | apply String.eqb_refl].
Qed.

Lemma set_has_add (s : JsSet.t) (x y : string) :
  has (add s x) y = true <-> x = y \/ has s y = true.
Proof.
  unfold add. destruct (has s x) eqn:E.
  - split; [auto | intros [<-|H]; auto].
  - rewrite !set_has_In, in_app_iff. simpl. tauto.
Qed.

Lemma set_NoDup_add (s : JsSet.t) (x : string) : NoDup s -> NoDup (add s x).
Proof.
  intros H. unfold add. destruct (has s x) eqn:E; [exact H|].
  apply JsMapFacts.NoDup_snoc; [exact H|].
  rewrite <- set_has_In. congruence.
Qed.

Lemma set_has_delete (s : JsSet.t) (x y : string) :
  has (delete s x) y = true <-> x <> y /\ has s y = true.
Proof.
  unfold delete. rewrite !set_has_In, filter_In, negb_true_iff, String.eqb_neq.
  tauto.
Qed.

Lemma set_has_delete_same (s : JsSet.t) (x : string) : has (delete s x) x = false.
Proof.
  destruct (has (delete s x) x) eqn:E; [|reflexivity].
  apply set_has_delete in E. tauto.
Qed.

Lemma set_NoDup_delete (s : JsSet.t) (x : string) : NoDup s -> NoDup (delete s x).
Proof. apply NoDup_filter. Qed.

(** Deleting twice is deleting once. *)
Lemma set_delete_idem (s : JsSet.t) (x : string) :
  delete (delete s x) x = delete s x.
Proof.
  unfold delete. induction s as [|y s IH]; simpl; [reflexivity|].
  destruct (negb (x =? y)%string) eqn:E; simpl; [|exact IH].
  now rewrite E, IH.
Qed.

End JsSetFacts.

(** ** The helper functions, call by call *)

Lemma result_of_bind (A B : Type) (m : M A) (f : A -> M B) d h :
  result_of (bind m f d h)
  = result_of (f (result_of (m d h)) (dir_of (m d h)) (h ++ events_of (m d h))).
Proof.
  unfold bind, result_of, dir_of, events_of.
  destruct (m d h) as [[a d1] e1]; simpl.
  now destruct (f a d1 (h ++ e1)) as [[b d2] e2].
Qed.

Lemma dir_of_bind (A B : Type) (m : M A) (f : A -> M B) d h :
  dir_of (bind m f d h)
  = dir_of (f (result_of (m d h)) (dir_of (m d h)) (h ++ events_of (m d h))).
Proof.
  unfold bind, result_of, dir_of, events_of.
  destruct (m d h) as [[a d1] e1]; simpl.
  now destruct (f a d1 (h ++ e1)) as [[b d2] e2].
Qed.

Lemma events_of_bind (A B : Type) (m : M A) (f : A -> M B) d h :
  events_of (bind m f d h)
  = events_of (m d h)
    ++ events_of (f (result_of (m d h)) (dir_of (m d h))
                    (h ++ events_of (m d h))).
Proof.
  unfold bind, result_of, dir_of, events_of.
  destruct (m d h) as [[a d1] e1]; simpl.
  now destruct (f a d1 (h ++ e1)) as [[b d2] e2].
Qed.

Lemma triple_eta (A : Type) (r : A * Dir * list Event) :
  r = (result_of r, dir_of r, events_of r).
Proof. now destruct r as [[a d] e]. Qed.

(** [getWeather] makes one call and leaves the directory alone. *)
Lemma getWeather_eq env q d h :
  getWeather env q d h
  = (match axios_get env h q with
     | Some weather => readWeather env weather
     | None => None
     end, d, [EvWeatherGet q (axios_get env h q)]).
Proof.
  unfold getWeather, bind, history, emit, ret; simpl.
  now destruct (axios_get env h q).
Qed.

Lemma getCropAdviceAI_eq env weather l d h :
  getCropAdviceAI env weather l d h
  = (match generateContent env h (advicePrompt env weather l) with
     | Some text => text
     | None => adviceFallback
     end, d,
     [EvGenerate Advisory (advicePrompt env weather l)
        (generateContent env h (advicePrompt env weather l))]).
Proof.
  unfold getCropAdviceAI, bind, history, emit, ret; simpl.
  now destruct (generateContent env h (advicePrompt env weather l)).
Qed.

Lemma sendWhatsAppMessage_eq env to message d h :
  sendWhatsAppMessage env to message d h
  = (tt, d, [EvMessage to message (messages_create env h to message)]).
Proof.
  unfold sendWhatsAppMessage, bind, history, emit; simpl.
  now rewrite ?app_nil_r.
Qed.

(** What [replyAndEnd] sends: the text itself to a user whose language
    is [en]; to the others the translation, or the text itself when the
    translation call fails. *)
Lemma replyAndEnd_eq env phone text d h :
  replyAndEnd env phone text d h
  = (ok200, d,
     match languageOf d phone with
     | en => [EvMessage phone text (messages_create env h phone text)]
     | l =>
         let prompt := translatePrompt text l in
         let r := generateContent env h prompt in
         let out := match r with Some t => t | None => text end in
         let call := EvGenerate Translator prompt r in
         [call; EvMessage phone out (messages_create env (h ++ [call]) phone out)]
     end).
Proof.
  unfold replyAndEnd, translateText, sendWhatsAppMessage.
  unfold bind, getDir, ret, history, emit.
  destruct (languageOf d phone); cbn; now rewrite ?app_nil_r.
Qed.

Lemma replyAndEnd_result env phone text d h :
  result_of (replyAndEnd env phone text d h) = ok200.
Proof. now rewrite replyAndEnd_eq. Qed.

Lemma replyAndEnd_dir env phone text d h :
  dir_of (replyAndEnd env phone text d h) = d.
Proof. now rewrite replyAndEnd_eq. Qed.

(** The weather branch from the lookup on. *)
Lemma weatherReply_eq env from q d h :
  weatherReply env from q d h
  = let lookup := EvWeatherGet q (axios_get env h q) in
    match result_of (getWeather env q d h) with
    | None =>
        (ok200, d,
         lookup :: events_of (replyAndEnd env from weatherFailedText d
                                (h ++ [lookup])))
    | Some weather =>
        let h1 := h ++ [lookup] in
        let prompt := advicePrompt env weather (languageOf d from) in
        let r := generateContent env h1 prompt in
        let aiAdvice := match r with Some t => t | None => adviceFallback end in
        let response :=
          if 0 <? String.length aiAdvice
          then weatherSection env weather +++ tipsSection aiAdvice
          else weatherSection env weather in
        let call := EvGenerate Advisory prompt r in
        (ok200, d,
         lookup :: call
         :: events_of (replyAndEnd env from response d (h ++ [lookup; call])))
    end.
Proof.
  unfold weatherReply, bind at 1. rewrite getWeather_eq.
  unfold result_of at 1; cbn [fst snd]. cbv zeta.
  destruct (match axios_get env h q with
            | Some weather => readWeather env weather
            | None => None
            end) as [weather|] eqn:E.
  - unfold bind at 1, getDir. unfold bind at 1.
    rewrite getCropAdviceAI_eq.
    rewrite (triple_eta _ (replyAndEnd _ _ _ _ _)).
    rewrite replyAndEnd_result, replyAndEnd_dir. simpl.
    rewrite ?app_nil_r, <- ?app_assoc. reflexivity.
  - rewrite (triple_eta _ (replyAndEnd _ _ _ _ _)).
    now rewrite replyAndEnd_result, replyAndEnd_dir.
Qed.

(** ** The dispatcher, branch by branch *)

Lemma weatherReply_result env from q d h :
  result_of (weatherReply env from q d h) = ok200.
Proof.
  rewrite weatherReply_eq. cbv zeta.
  now destruct (result_of (getWeather env q d h)).
Qed.

Lemma weatherReply_dir env from q d h :
  dir_of (weatherReply env from q d h) = d.
Proof.
  rewrite weatherReply_eq. cbv zeta.
  now destruct (result_of (getWeather env q d h)).
Qed.

Ltac io_simpl :=
  repeat first
    [ rewrite dir_of_bind | rewrite result_of_bind
    | rewrite replyAndEnd_dir | rewrite replyAndEnd_result
    | rewrite weatherReply_dir | rewrite weatherReply_result
    | progress cbn [modify getDir ret dir_of result_of fst snd] ].

Lemma webhook_missing_sender env req d h :
  sender req = "" ->
  webhook env req d h = ({| status := 400; sent := "Missing sender" |}, d, []).
Proof. intros E. unfold webhook. now rewrite E. Qed.

(** First contact: the record is created, the welcome is sent, and
    nothing else happens. *)
Lemma webhook_first_contact env req d h :
  sender req <> "" ->
  JsMap.has (userPreferences d) (sender req) = false ->
  webhook env req d h
  = (ok200,
     with_userPreferences
       (fun m => JsMap.set m (sender req) {| language := en |}) d,
     [EvMessage (sender req) welcome
        (messages_create env h (sender req) welcome)]).
Proof.
  intros Hs Hp. unfold webhook.
  apply String.eqb_neq in Hs. rewrite Hs.
  unfold bind at 1, getDir. rewrite Hp. cbn [negb].
  unfold bind, modify, ret. rewrite sendWhatsAppMessage_eq. cbn.
  now rewrite ?app_nil_r.
Qed.

(** A known user's message goes to the command branches. *)
Lemma webhook_known env req d h :
  sender req <> "" ->
  JsMap.has (userPreferences d) (sender req) = true ->
  webhook env req d h = commands env (sender req) (incomingMsg req) d d h.
Proof.
  intros Hs Hp. unfold webhook.
  apply String.eqb_neq in Hs. rewrite Hs.
  unfold bind, getDir. rewrite Hp. cbn [negb].
  rewrite app_nil_r.
  now destruct (commands env (sender req) (incomingMsg req) d d h) as [[a b] c].
Qed.


Lemma commands_dir_change env from msg d h :
  JsMap.has (userPreferences d) from = true ->
  dir_change from d (dir_of (commands env from msg d d h)).
Proof.
  intros Hp. unfold commands.
  repeat match goal with
  | |- context [if ?c then _ else _] => destruct c eqn:?
  end; io_simpl; try (constructor; fail).
  - apply (change_log _ _ _ _ Hp).
  - apply change_subscribe; [exact Hp|].
    now apply String.eqb_neq.
Qed.

Lemma webhook_dir_change env req d h :
  dir_change (sender req) d (dir_of (webhook env req d h)).
Proof.
  destruct (string_dec (sender req) "") as [E|Hs].
  { rewrite webhook_missing_sender by exact E. constructor. }
  destruct (JsMap.has (userPreferences d) (sender req)) eqn:Hp.
  - rewrite webhook_known by assumption. now apply commands_dir_change.
  - rewrite webhook_first_contact by assumption. constructor.
Qed.

(** ** The invariant of the directory *)

Lemma has_set_inv (V : Type) (m : JsMap.t V) k v p :
  JsMap.has (JsMap.set m k v) p = true -> p = k \/ JsMap.has m p = true.
Proof.
  intros H. destruct (string_dec k p) as [->|Hne]; [now left|].
  right. now rewrite JsMapFacts.has_set_other in H.
Qed.

Lemma has_logAppend from a t m p :
  JsMap.has (logAppend from a t m) p = true ->
  p = from \/ JsMap.has m p = true.
Proof.
  unfold logAppend. intros H.
  destruct (JsMap.has m from) eqn:E; cbn [negb] in H.
  - destruct (JsMap.get m from); [|now right].
    now apply has_set_inv in H.
  - rewrite JsMapFacts.get_set_same in H.
    apply has_set_inv in H as [H|H]; [now left|].
    now apply has_set_inv in H.
Qed.

Lemma NoDup_logAppend from a t m :
  NoDup (JsMap.keys m) -> NoDup (JsMap.keys (logAppend from a t m)).
Proof.
  unfold logAppend. intros H.
  destruct (JsMap.has m from); cbn [negb].
  - destruct (JsMap.get m from); [|exact H].
    now apply JsMapFacts.NoDup_keys_set.
  - rewrite JsMapFacts.get_set_same.
    now apply JsMapFacts.NoDup_keys_set, JsMapFacts.NoDup_keys_set.
Qed.

Lemma dir_ok_empty : dir_ok empty_dir.
Proof.
  constructor; simpl; try constructor; intros p H; discriminate.
Qed.

Lemma dir_ok_change from d d' :
  dir_change from d d' -> dir_ok d -> dir_ok d'.
Proof.
  intros Hc [Hs Hl Hp Ha Hloc Hsk Hlk Hak].
  destruct Hc as [|l|a t Hknown| |c Hknown Hne|]; [now constructor|..];
    constructor; simpl; auto.
  - now apply JsMapFacts.NoDup_keys_set.
  - intros p H. now apply JsMapFacts.has_set, Hsk.
  - intros p H. now apply JsMapFacts.has_set, Hlk.
  - intros p H. now apply JsMapFacts.has_set, Hak.
  - now apply NoDup_logAppend.
  - intros p H. apply has_logAppend in H as [->|H]; auto.
  - now apply JsMapFacts.NoDup_keys_delete.
  - intros p H. now apply JsMapFacts.has_delete in H; auto.
  - now apply JsSetFacts.set_NoDup_add.
  - now apply JsMapFacts.NoDup_keys_set.
  - intros p H. destruct (string_dec from p) as [->|Hd].
    + exists c. now rewrite JsMapFacts.get_set_same.
    + apply JsSetFacts.set_has_add in H as [H|H]; [congruence|].
      rewrite JsMapFacts.get_set_other by exact Hd. auto.
  - intros p H. apply JsSetFacts.set_has_add in H as [<-|H]; auto.
  - intros p H. apply has_set_inv in H as [->|H]; auto.
  - now apply JsSetFacts.set_NoDup_delete.
  - now apply JsMapFacts.NoDup_keys_delete.
  - intros p H. apply JsSetFacts.set_has_delete in H as [Hd H].
    rewrite JsMapFacts.get_delete_other by exact Hd. auto.
  - intros p H. apply JsSetFacts.set_has_delete in H as [_ H]. auto.
  - intros p H. apply JsMapFacts.has_delete in H. auto.
Qed.

(** ** The alert sweep *)

Lemma alertOne_eq env phone q d h :
  alertOne env (phone, q) d h
  = (tt, d,
     if JsSet.has (subscribers d) phone then
       let lookup := EvWeatherGet q (axios_get env h q) in
       lookup ::
       match result_of (getWeather env q d h) with
       | Some weather =>
           if 0 <? List.length (alerts weather)
           then [EvMessage phone (alertMessage weather)
                   (messages_create env (h ++ [lookup]) phone
                      (alertMessage weather))]
           else []
       | None => []
       end
     else []).
Proof.
  unfold alertOne, bind at 1, getDir.
  destruct (JsSet.has (subscribers d) phone); [|reflexivity].
  unfold bind. rewrite ?app_nil_r, !getWeather_eq.
  unfold result_of; cbn [fst snd].
  destruct (match axios_get env h q with
            | Some weather => readWeather env weather
            | None => None
            end) as [weather|]; [|reflexivity].
  destruct (0 <? List.length (alerts weather)); [|reflexivity].
  rewrite sendWhatsAppMessage_eq. cbn. now rewrite ?app_nil_r.
Qed.

Lemma forEach_alertOne_dir env entries d h :
  dir_of (forEach (alertOne env) entries d h) = d.
Proof.
  revert h. induction entries as [|[phone q] entries IH]; intros h.
  - reflexivity.
  - cbn [forEach]. rewrite dir_of_bind, alertOne_eq.
    cbn [dir_of result_of events_of fst snd]. apply IH.
Qed.

Lemma alertSweep_dir env d h : dir_of (alertSweep env d h) = d.
Proof.
  unfold alertSweep. rewrite dir_of_bind.
  cbn [getDir dir_of result_of events_of fst snd].
  apply forEach_alertOne_dir.
Qed.

(** Every reachable directory satisfies the invariant. *)
Lemma reachable_ok d : reachable d -> dir_ok d.
Proof.
  induction 1 as [|env req d h _ IH|env d h _ IH].
  - apply dir_ok_empty.
  - exact (dir_ok_change _ _ _ (webhook_dir_change env req d h) IH).
  - now rewrite alertSweep_dir.
Qed.

(** ** Which branch a message takes *)

Lemma prefix_comparable (p q s : string) :
  String.prefix p s = true -> String.prefix q s = true ->
  String.prefix p q = true \/ String.prefix q p = true.
Proof.
  revert p q.
  induction s as [|c s IH]; intros [|a p] [|b q]; simpl; auto;
    try discriminate.
  destruct (ascii_dec a c) as [Ea|]; [|discriminate].
  destruct (ascii_dec b c) as [Eb|]; [|discriminate].
  destruct (ascii_dec a b); [|congruence].
  destruct (ascii_dec b a); [|congruence]. apply IH.
Qed.

(** A message that starts with one command word is not the exact text
    of another command, nor does it start with another command word. *)
Lemma not_exact (p s lit : string) :
  String.prefix p s = true -> String.prefix p lit = false ->
  (s =? lit)%string = false.
Proof.
  intros Hp Hl. apply String.eqb_neq. intros ->. congruence.
Qed.

Lemma not_prefix (p q s : string) :
  String.prefix p s = true ->
  String.prefix p q = false -> String.prefix q p = false ->
  Js.startsWith s q = false.
Proof.
  intros Hp Hpq Hqp. unfold Js.startsWith.
  destruct (String.prefix q s) eqn:E; [|reflexivity].
  destruct (prefix_comparable _ _ _ Hp E); congruence.
Qed.

Lemma commands_subscribe env from msg d h :
  Js.startsWith msg "subscribe" = true ->
  commands env from msg d d h
  = (if (subscribeCity msg =? "")%string
     then replyAndEnd env from subscribeUsageText
     else
       modify (with_subscribers (fun s => JsSet.add s from)) ;;;
       modify (with_userLocations
                 (fun m => JsMap.set m from (subscribeCity msg))) ;;;
       replyAndEnd env from (subscribedText (subscribeCity msg))) d h.
Proof.
  intros H. unfold commands.
  rewrite (not_exact _ _ "status" H eq_refl).
  rewrite (not_exact _ _ "/status" H eq_refl).
  rewrite (not_exact _ _ "my status" H eq_refl).
  rewrite (not_exact _ _ "1" H eq_refl).
  rewrite (not_exact _ _ "2" H eq_refl).
  rewrite (not_exact _ _ "3" H eq_refl).
  rewrite (not_prefix _ "log " _ H eq_refl eq_refl).
  rewrite (not_exact _ _ "view log" H eq_refl).
  rewrite (not_exact _ _ "clear log" H eq_refl).
  rewrite H. reflexivity.
Qed.

Lemma commands_unsubscribe env from d h :
  commands env from "unsubscribe" d d h
  = (modify (with_subscribers (fun s => JsSet.delete s from)) ;;;
     modify (with_userLocations (fun m => JsMap.delete m from)) ;;;
     replyAndEnd env from unsubscribedText) d h.
Proof. reflexivity. Qed.

Lemma commands_weather env from msg d h :
  Js.startsWith msg "weather" = true ->
  commands env from msg d d h
  = let q := Js.or_else (weatherCity msg)
                        (opt_str (JsMap.get (userLocations d) from)) in
    if (q =? "")%string then replyAndEnd env from weatherUsageText d h
    else weatherReply env from q d h.
Proof.
  intros H. unfold commands.
  rewrite (not_exact _ _ "status" H eq_refl).
  rewrite (not_exact _ _ "/status" H eq_refl).
  rewrite (not_exact _ _ "my status" H eq_refl).
  rewrite (not_exact _ _ "1" H eq_refl).
  rewrite (not_exact _ _ "2" H eq_refl).
  rewrite (not_exact _ _ "3" H eq_refl).
  rewrite (not_prefix _ "log " _ H eq_refl eq_refl).
  rewrite (not_exact _ _ "view log" H eq_refl).
  rewrite (not_exact _ _ "clear log" H eq_refl).
  rewrite (not_prefix _ "subscribe" _ H eq_refl eq_refl).
  rewrite (not_exact _ _ "unsubscribe" H eq_refl).
  rewrite H. cbv zeta.
  now destruct (Js.or_else _ _ =? "")%string.
Qed.

Lemma commands_log env from msg d h :
  Js.startsWith msg "log " = true ->
  commands env from msg d d h
  = if String.length (logActivity msg) =? 0
    then replyAndEnd env from logUsageText d h
    else
      (modify (with_userActivities
                 (logAppend from (logActivity msg) (now_iso env h))) ;;;
       replyAndEnd env from (loggedText (logActivity msg))) d h.
Proof.
  intros H. unfold commands.
  rewrite (not_exact _ _ "status" H eq_refl).
  rewrite (not_exact _ _ "/status" H eq_refl).
  rewrite (not_exact _ _ "my status" H eq_refl).
  rewrite (not_exact _ _ "1" H eq_refl).
  rewrite (not_exact _ _ "2" H eq_refl).
  rewrite (not_exact _ _ "3" H eq_refl).
  rewrite H. cbv zeta. cbn [orb].
  destruct (String.length (logActivity msg) =? 0); [reflexivity|].
  unfold bind at 1, history. unfold bind, modify.
  rewrite !app_nil_r.
  now destruct (replyAndEnd env from (loggedText (logActivity msg)) _ h)
    as [[a b] c].
Qed.

Lemma reachable_after env rs d : reachable d -> reachable (after env rs d).
Proof.
  revert d. induction rs as [|r rs IH]; intros d H; simpl; [exact H|].
  apply IH. now constructor.
Qed.

(** * The claims *)

(** ** The user directory *)

(** C1.  In every directory the bot can reach from the empty one, no
    container holds a phone number twice, so a user has at most one
    record, and a user whose record says [subscribed] has a city that is
    not empty.  A [subscribe] message without a city changes neither the
    subscriber set nor the locations, and a known user gets the usage
    text as the reply. *)
Theorem C1_directory_invariant :
  (forall d, reachable d ->
     NoDup (subscribers d) /\
     NoDup (JsMap.keys (userLocations d)) /\
     NoDup (JsMap.keys (userPreferences d)) /\
     NoDup (JsMap.keys (userActivities d)) /\
     (forall p r, userRecord d p = Some r -> subscribed r = true ->
        exists c, location r = Some c /\ c <> ""))
  /\
  (forall env req d h,
     Js.startsWith (incomingMsg req) "subscribe" = true ->
     subscribeCity (incomingMsg req) = "" ->
     subscribers (dir_of (webhook env req d h)) = subscribers d /\
     userLocations (dir_of (webhook env req d h)) = userLocations d /\
     (sender req <> "" ->
      JsMap.has (userPreferences d) (sender req) = true ->
      webhook env req d h
      = replyAndEnd env (sender req) subscribeUsageText d h)).
Proof.
  split.
  - intros d Hr. destruct (reachable_ok d Hr) as [Hs Hl Hp Ha Hloc _ _ _].
    repeat split; auto.
    intros p r Hrec Hsub. unfold userRecord in Hrec.
    destruct (JsMap.get (userPreferences d) p); [|discriminate].
    injection Hrec as <-. simpl in *. auto.
  - intros env req d h Hpre Hcity.
    assert (Hknown : sender req <> "" ->
              JsMap.has (userPreferences d) (sender req) = true ->
              webhook env req d h
              = replyAndEnd env (sender req) subscribeUsageText d h).
    { intros Hs Hp. rewrite webhook_known by assumption.
      rewrite commands_subscribe by exact Hpre. rewrite Hcity. reflexivity. }
    destruct (string_dec (sender req) "") as [E|Hs].
    { rewrite webhook_missing_sender by exact E.
      repeat split. intros Hs. congruence. }
    destruct (JsMap.has (userPreferences d) (sender req)) eqn:Hp.
    + rewrite Hknown by auto. rewrite replyAndEnd_dir. auto.
    + rewrite webhook_first_contact by assumption.
      repeat split. intros _ Hf. discriminate.
Qed.

Lemma C1_directory_invariant_witness :
  (NoDup (subscribers d_sample) /\
   NoDup (JsMap.keys (userLocations d_sample)) /\
   NoDup (JsMap.keys (userPreferences d_sample)) /\
   NoDup (JsMap.keys (userActivities d_sample)) /\
   (forall p r, userRecord d_sample p = Some r -> subscribed r = true ->
      exists c, location r = Some c /\ c <> ""))
  /\
  subscribers (dir_of (webhook sample_env (req alice " Subscribe ")
                         d_sample []))
  = subscribers d_sample /\
  userLocations (dir_of (webhook sample_env (req alice " Subscribe ")
                           d_sample []))
  = userLocations d_sample /\
  webhook sample_env (req alice " Subscribe ") d_sample []
  = replyAndEnd sample_env alice subscribeUsageText d_sample [].
Proof.
  split.
  - apply (proj1 C1_directory_invariant).
    apply reachable_after, reach_start.
  - destruct (proj2 C1_directory_invariant sample_env
                (req alice " Subscribe ") d_sample [] eq_refl eq_refl)
      as [Hs [Hl Hk]].
    split; [exact Hs | split; [exact Hl |]].
    apply Hk; [vm_compute; discriminate | reflexivity].
Defined.

(** C6.  For a known user the [unsubscribe] command leaves the record
    with [subscribed = false] and no location, keeps the language and
    the activity log, and a second [unsubscribe] leaves the directory as
    the first one left it. *)
Theorem C6_unsubscribe :
  forall env1 env2 req1 req2 d h1 h2 r0,
    sender req1 <> "" -> sender req2 = sender req1 ->
    incomingMsg req1 = "unsubscribe" -> incomingMsg req2 = "unsubscribe" ->
    userRecord d (sender req1) = Some r0 ->
    let d1 := dir_of (webhook env1 req1 d h1) in
    userRecord d1 (sender req1)
    = Some {| subscribed := false; location := None;
              lang := lang r0; activityLog := activityLog r0 |} /\
    userPreferences d1 = userPreferences d /\
    userActivities d1 = userActivities d /\
    dir_of (webhook env2 req2 d1 h2) = d1.
Proof.
  intros env1 env2 req1 req2 d h1 h2 r0 Hs Hsame Hm1 Hm2 Hrec d1.
  assert (Hp : JsMap.has (userPreferences d) (sender req1) = true).
  { unfold userRecord in Hrec. unfold JsMap.has.
    now destruct (JsMap.get (userPreferences d) (sender req1)). }
  assert (Hd1 : d1 = with_userLocations
                       (fun m => JsMap.delete m (sender req1))
                       (with_subscribers
                          (fun s => JsSet.delete s (sender req1)) d)).
  { unfold d1. rewrite webhook_known by assumption.
    rewrite Hm1, commands_unsubscribe. now io_simpl. }
  rewrite Hd1. repeat split.
  - unfold userRecord, activitiesOf in *. simpl.
    destruct (JsMap.get (userPreferences d) (sender req1)); [|discriminate].
    injection Hrec as <-. simpl.
    now rewrite JsSetFacts.set_has_delete_same, JsMapFacts.get_delete_same.
  - rewrite webhook_known; rewrite ?Hsame; auto.
    rewrite Hm2, commands_unsubscribe. io_simpl.
    unfold with_userLocations, with_subscribers; simpl.
    now rewrite JsSetFacts.set_delete_idem, JsMapFacts.delete_idem.
Qed.

Lemma C6_unsubscribe_witness :
  userRecord (dir_of (webhook sample_env (req alice "Unsubscribe")
                        d_sample [])) alice
  = Some {| subscribed := false; location := None; lang := mr;
            activityLog := [{| activity := "sowed wheat";
                               date := "2025-01-01T00:00:00.000Z" |}] |} /\
  userPreferences (dir_of (webhook sample_env (req alice "Unsubscribe")
                             d_sample []))
  = userPreferences d_sample /\
  userActivities (dir_of (webhook sample_env (req alice "Unsubscribe")
                            d_sample []))
  = userActivities d_sample /\
  dir_of (webhook down_env (req alice " unsubscribe ")
            (dir_of (webhook sample_env (req alice "Unsubscribe")
                       d_sample [])) [])
  = dir_of (webhook sample_env (req alice "Unsubscribe") d_sample []).
Proof.
  apply (C6_unsubscribe sample_env down_env (req alice "Unsubscribe")
           (req alice " unsubscribe ") d_sample [] []
           {| subscribed := true; location := Some "mumbai"; lang := mr;
              activityLog := [{| activity := "sowed wheat";
                                 date := "2025-01-01T00:00:00.000Z" |}] |});
    try reflexivity.
  vm_compute. discriminate.
Defined.

(** C5.  A first message from a phone number that has no record, in a
    reachable directory, creates one record for it with language [en],
    not subscribed, and sends the welcome text as the only provider
    call; the answer is [200 OK], the records of the other users are
    untouched, and nothing of this depends on the text of the message. *)
Theorem C5_first_contact :
  forall env req d h,
    reachable d -> sender req <> "" -> userRecord d (sender req) = None ->
    webhook env req d h
    = (ok200,
       with_userPreferences
         (fun m => JsMap.set m (sender req) {| language := en |}) d,
       [EvMessage (sender req) welcome
          (messages_create env h (sender req) welcome)]) /\
    userRecord (dir_of (webhook env req d h)) (sender req)
    = Some {| subscribed := false; location := None; lang := en;
              activityLog := [] |} /\
    JsMap.keys (userPreferences (dir_of (webhook env req d h)))
    = JsMap.keys (userPreferences d) ++ [sender req] /\
    (forall p, p <> sender req ->
       userRecord (dir_of (webhook env req d h)) p = userRecord d p) /\
    (forall body, webhook env {| Body := body; From := From req |} d h
                  = webhook env req d h).
Proof.
  intros env req d h Hr Hs Hrec.
  destruct (reachable_ok d Hr) as [_ _ _ _ _ Hsk Hlk Hak].
  assert (Hp : JsMap.has (userPreferences d) (sender req) = false).
  { unfold userRecord in Hrec. unfold JsMap.has.
    now destruct (JsMap.get (userPreferences d) (sender req)). }
  assert (Hsub : JsSet.has (subscribers d) (sender req) = false).
  { destruct (JsSet.has (subscribers d) (sender req)) eqn:E; [|reflexivity].
    apply Hsk in E. congruence. }
  assert (Hloc : JsMap.get (userLocations d) (sender req) = None).
  { specialize (Hlk (sender req)). unfold JsMap.has in Hlk at 1.
    destruct (JsMap.get (userLocations d) (sender req)); [|reflexivity].
    rewrite Hlk in Hp by reflexivity. discriminate. }
  assert (Hact : JsMap.get (userActivities d) (sender req) = None).
  { specialize (Hak (sender req)). unfold JsMap.has in Hak at 1.
    destruct (JsMap.get (userActivities d) (sender req)); [|reflexivity].
    rewrite Hak in Hp by reflexivity. discriminate. }
  rewrite webhook_first_contact by assumption.
  cbn [dir_of fst snd]. repeat split.
  - unfold userRecord, activitiesOf; simpl.
    now rewrite JsMapFacts.get_set_same, Hsub, Hloc, Hact.
  - simpl. now apply JsMapFacts.keys_set_new.
  - intros p Hne. unfold userRecord, activitiesOf; simpl.
    now rewrite JsMapFacts.get_set_other by congruence.
  - intros body.
    exact (webhook_first_contact env {| Body := body; From := From req |}
             d h Hs Hp).
Qed.

Lemma C5_first_contact_witness :
  webhook sample_env (req "whatsapp:+15550001" "subscribe Delhi") d_sample []
  = (ok200,
     with_userPreferences
       (fun m => JsMap.set m "+15550001" {| language := en |}) d_sample,
     [EvMessage "+15550001" welcome true]) /\
  userRecord (dir_of (webhook sample_env
                        (req "whatsapp:+15550001" "subscribe Delhi")
                        d_sample [])) "+15550001"
  = Some {| subscribed := false; location := None; lang := en;
            activityLog := [] |}.
Proof.
  destruct (C5_first_contact sample_env
              (req "whatsapp:+15550001" "subscribe Delhi") d_sample [])
    as [H1 [H2 _]].
  - apply reachable_after, reach_start.
  - vm_compute. discriminate.
  - reflexivity.
  - split; [exact H1 | exact H2].
Defined.

(** The handler on a body whose keys occur once is [webhook]. *)
Lemma parsed_once env from text d h :
  Parsed.webhook env (Parsed.once from text) d h
  = liftX (webhook env (req from text)) d h.
Proof. reflexivity. Qed.




(** ** Weather alerts *)

Lemma readWeather_alerts env weather t c :
  api_main weather = Some t -> weather0 weather = Some c ->
  exists w, readWeather env weather = Some w /\
            alerts w = alerts_by_rules env t (api_wind weather) c.
Proof.
  intros Ht Hc. unfold readWeather. rewrite Ht, Hc.
  eexists. split; [reflexivity|]. cbn [alerts].
  unfold alerts_by_rules, alert_order, push. cbn [filter fires].
  destruct (Qgtb t (35 # 1)), (Qltb t (5 # 1));
    destruct (api_wind weather) as [v|]; try destruct (Qgtb v (10 # 1));
    destruct (cond_main c =? "Rain")%string,
             (cond_main c =? "Thunderstorm")%string;
    reflexivity.
Qed.

(** C2.  Whenever [getWeather] returns a result, its alert list is the
    list of the rules that fire, taken in the order heat, cold, wind,
    rain, storm, and a provider answer with a temperature and a first
    condition always gives such a result.  For 40 degrees, wind 15 and
    condition [Rain] the list is the heat, the wind and the rain
    alert. *)
Theorem C2_alert_rules :
  (forall env q d h w,
     result_of (getWeather env q d h) = Some w ->
     exists weather t c,
       axios_get env h q = Some weather /\
       api_main weather = Some t /\ weather0 weather = Some c /\
       alerts w = alerts_by_rules env t (api_wind weather) c)
  /\
  (forall env q d h weather t c,
     axios_get env h q = Some weather ->
     api_main weather = Some t -> weather0 weather = Some c ->
     exists w, result_of (getWeather env q d h) = Some w /\
               alerts w = alerts_by_rules env t (api_wind weather) c)
  /\
  (forall env name desc rest,
     exists w,
       readWeather env
         {| api_name := name; api_main := Some (40 # 1)%Q;
            api_wind := Some (15 # 1)%Q;
            api_weather := Some ({| cond_main := "Rain";
                                    cond_description := desc |} :: rest) |}
       = Some w /\
       alerts w = [heatAlert env (40 # 1); windAlert env (15 # 1);
                   rainAlert desc]).
Proof.
  split; [|split].
  - intros env q d h w H. rewrite getWeather_eq in H.
    unfold result_of in H; cbn [fst] in H.
    destruct (axios_get env h q) as [weather|]; [|discriminate].
    destruct (api_main weather) as [t|] eqn:Ht.
    2:{ unfold readWeather in H. rewrite Ht in H. discriminate. }
    destruct (weather0 weather) as [c|] eqn:Hc.
    2:{ unfold readWeather in H. rewrite Ht, Hc in H. discriminate. }
    destruct (readWeather_alerts env weather t c Ht Hc) as [w' [E Ha]].
    exists weather, t, c. repeat split; auto. congruence.
  - intros env q d h weather t c Hq Ht Hc.
    rewrite getWeather_eq. unfold result_of; cbn [fst]. rewrite Hq.
    now apply readWeather_alerts.
  - intros env name desc rest. eexists. split; reflexivity.
Qed.

Lemma C2_alert_rules_witness :
  (exists weather t c,
     axios_get sample_env [] "mumbai" = Some weather /\
     api_main weather = Some t /\ weather0 weather = Some c /\
     alerts w_mumbai
     = alerts_by_rules sample_env t (api_wind weather) c)
  /\
  (exists w, result_of (getWeather sample_env "pune" empty_dir []) = Some w /\
             alerts w = alerts_by_rules sample_env (25 # 1) (Some (3 # 1)%Q)
                          {| cond_main := "Clear";
                             cond_description := "clear sky" |}).
Proof.
  split.
  - apply (proj1 C2_alert_rules sample_env "mumbai" empty_dir []).
    reflexivity.
  - apply (proj1 (proj2 C2_alert_rules) sample_env "pune" empty_dir [] mild);
      reflexivity.
Defined.

(** ** The weather command *)

Lemma replyAndEnd_events env phone text d h :
  events_of (replyAndEnd env phone text d h) = replyEvents env d phone text h.
Proof. now rewrite replyAndEnd_eq. Qed.

Lemma webhook_weather env req d h q :
  weather_request req d q ->
  webhook env req d h = weatherReply env (sender req) q d h.
Proof.
  intros (Hs & Hp & Hw & Hq & Hne).
  rewrite webhook_known by assumption.
  rewrite commands_weather by exact Hw. cbv zeta.
  fold (weatherQuery d (sender req) (incomingMsg req)). rewrite Hq.
  apply String.eqb_neq in Hne. now rewrite Hne.
Qed.

(** C3, as the code has it.  When the weather lookup of a weather
    command fails, the handler makes that one lookup, never calls
    [getCropAdviceAI], leaves the directory as it was and answers
    [200 OK] after handing the fixed text to [replyAndEnd].  A user
    whose language is [en] is sent the fixed text and Gemini is not
    called at all; for [hi] and [mr] Gemini is called once, to translate
    the fixed text, and the user is sent the translation, or the fixed
    text when that call fails. *)
Theorem C3_weather_failure :
  forall env req d h q,
    weather_request req d q ->
    result_of (getWeather env q d h) = None ->
    let lookup := EvWeatherGet q (axios_get env h q) in
    webhook env req d h
    = (ok200, d,
       lookup :: replyEvents env d (sender req) weatherFailedText
                   (h ++ [lookup])) /\
    existsb is_advice_call (events_of (webhook env req d h)) = false /\
    (languageOf d (sender req) = en ->
     messages (events_of (webhook env req d h))
     = [(sender req, weatherFailedText)] /\
     existsb is_generate_call (events_of (webhook env req d h)) = false).
Proof.
  intros env req d h q Hreq Hfail lookup.
  assert (E : webhook env req d h
              = (ok200, d,
                 lookup :: replyEvents env d (sender req) weatherFailedText
                             (h ++ [lookup]))).
  { rewrite (webhook_weather env req d h q Hreq), weatherReply_eq.
    cbv zeta. rewrite Hfail. now rewrite replyAndEnd_events. }
  rewrite E. cbn [events_of snd]. unfold replyEvents. repeat split.
  - now destruct (languageOf d (sender req)).
  - now rewrite H.
  - now rewrite H.
Qed.

Lemma C3_weather_failure_witness :
  webhook sample_env (req bob "Weather Atlantis") d_sample []
  = (ok200, d_sample,
     [EvWeatherGet "atlantis" None; EvMessage bob weatherFailedText true]) /\
  webhook sample_env (req alice "weather atlantis") d_sample []
  = (ok200, d_sample,
     [EvWeatherGet "atlantis" None;
      EvGenerate Translator (translatePrompt weatherFailedText mr)
        (Some "anuvaad");
      EvMessage alice "anuvaad" true]).
Proof.
  split.
  - apply (C3_weather_failure sample_env (req bob "Weather Atlantis")
             d_sample [] "atlantis"); [|reflexivity].
    repeat split; try reflexivity; vm_compute; discriminate.
  - apply (C3_weather_failure sample_env (req alice "weather atlantis")
             d_sample [] "atlantis"); [|reflexivity].
    repeat split; try reflexivity; vm_compute; discriminate.
Defined.

(** C3 as stated fails for a user whose language is not [en]: Alice has
    chosen Marathi, her lookup fails, and what she is sent is Gemini's
    translation, not the fixed text; Gemini has been called. *)
Lemma C3_counterexample :
  weather_request (req alice "weather atlantis") d_sample "atlantis" /\
  result_of (getWeather sample_env "atlantis" d_sample []) = None /\
  messages (events_of (webhook sample_env (req alice "weather atlantis")
                         d_sample []))
  = [(alice, "anuvaad")] /\
  "anuvaad" <> weatherFailedText /\
  existsb is_generate_call
    (events_of (webhook sample_env (req alice "weather atlantis")
                  d_sample [])) = true.
Proof.
  repeat split; try reflexivity; vm_compute; discriminate.
Qed.

(** C4, as the code has it.  When the lookup of a weather command
    succeeds and the advice call fails, the handler hands to
    [replyAndEnd] the weather section followed by the tips heading and
    the fixed fallback sentence, leaves the directory as it was and
    answers [200 OK].  A user whose language is [en] is sent exactly
    that text; for [hi] and [mr] it is sent translated, or as it is when
    the translation call fails. *)
Theorem C4_advice_failure :
  forall env req d h q weather,
    weather_request req d q ->
    result_of (getWeather env q d h) = Some weather ->
    let lookup := EvWeatherGet q (axios_get env h q) in
    let prompt := advicePrompt env weather (languageOf d (sender req)) in
    generateContent env (h ++ [lookup]) prompt = None ->
    let call := EvGenerate Advisory prompt None in
    webhook env req d h
    = (ok200, d,
       lookup :: call
       :: replyEvents env d (sender req) (weatherWithFallback env weather)
            (h ++ [lookup; call])) /\
    (languageOf d (sender req) = en ->
     messages (events_of (webhook env req d h))
     = [(sender req, weatherWithFallback env weather)]) /\
    Js.includes (weatherWithFallback env weather) (weatherSection env weather)
    = true.
Proof.
  intros env req d h q weather Hreq Hw lookup prompt Hfail call.
  assert (E : webhook env req d h
              = (ok200, d,
                 lookup :: call
                 :: replyEvents env d (sender req)
                      (weatherWithFallback env weather)
                      (h ++ [lookup; call]))).
  { rewrite (webhook_weather env req d h q Hreq), weatherReply_eq.
    cbv zeta. rewrite Hw. fold lookup. fold prompt. rewrite Hfail.
    fold call. now rewrite replyAndEnd_events. }
  rewrite E. cbn [events_of snd]. unfold replyEvents. repeat split.
  - intros ->. reflexivity.
  - unfold weatherWithFallback.
    destruct (weatherSection env weather +++ tipsSection adviceFallback)
      eqn:Es; cbn [Js.includes]; rewrite <- Es, JsFacts.prefix_app;
      reflexivity.
Qed.

Lemma C4_advice_failure_witness :
  webhook sample_env (req bob "weather mumbai") d_sample []
  = (ok200, d_sample,
     [EvWeatherGet "mumbai" (Some hot_rainy);
      EvGenerate Advisory
        (advicePrompt sample_env w_mumbai en) None;
      EvMessage bob
        (weatherWithFallback sample_env w_mumbai) true]).
Proof.
  apply (C4_advice_failure sample_env (req bob "weather mumbai") d_sample []
           "mumbai"); try reflexivity.
  repeat split; try reflexivity; vm_compute; discriminate.
Defined.

(** C4 as stated fails for a user whose language is not [en]: Alice's
    lookup succeeds, the advice call fails, the translation call
    succeeds, and what she is sent is Gemini's translation, which holds
    neither the weather section nor the fallback sentence. *)
Lemma C4_counterexample :
  weather_request (req alice "weather") d_sample "mumbai" /\
  result_of (getWeather sample_env "mumbai" d_sample []) = Some w_mumbai /\
  generateContent sample_env [EvWeatherGet "mumbai" (Some hot_rainy)]
    (advicePrompt sample_env w_mumbai mr) = None /\
  messages (events_of (webhook sample_env (req alice "weather") d_sample []))
  = [(alice, "anuvaad")] /\
  Js.includes "anuvaad" (weatherSection sample_env w_mumbai) = false /\
  Js.includes "anuvaad" adviceFallback = false.
Proof.
  repeat split; try reflexivity; vm_compute; discriminate.
Qed.

(** ** The activity log *)

(** The message the handler matches on has no white space at its end. *)
Lemma incomingMsg_trimmed req :
  Js.trimEnd (incomingMsg req) = incomingMsg req.
Proof.
  unfold incomingMsg.
  rewrite JsFacts.toLowerCase_trim. apply JsFacts.trim_trimEnd.
Qed.

(** A message that starts with [log ] always carries an activity: the
    test for an empty activity in the [log ] branch never succeeds. *)
Lemma log_activity_not_empty req :
  Js.startsWith (incomingMsg req) "log " = true ->
  (String.length (logActivity (incomingMsg req)) =? 0) = false.
Proof.
  intros H. apply Nat.eqb_neq. intros Hlen.
  apply JsFacts.length_zero, JsFacts.trim_empty in Hlen.
  pose proof (incomingMsg_trimmed req) as Ht.
  apply JsFacts.prefix_slice in H. cbn [String.length] in H.
  rewrite H in Ht at 1.
  rewrite JsFacts.trimEnd_app_ws in Ht by exact Hlen.
  rewrite H in Ht. discriminate Ht.
Qed.

(** A [log ] message of a known user appends one entry, with the
    activity of the message and the time of the request, at the end of
    that user's log, touches nothing else, and is confirmed. *)
Lemma log_appends_one env req d h :
  sender req <> "" ->
  JsMap.has (userPreferences d) (sender req) = true ->
  Js.startsWith (incomingMsg req) "log " = true ->
  let entry := {| activity := logActivity (incomingMsg req);
                  date := now_iso env h |} in
  let d' := dir_of (webhook env req d h) in
  activitiesOf d' (sender req) = activitiesOf d (sender req) ++ [entry] /\
  subscribers d' = subscribers d /\
  userLocations d' = userLocations d /\
  userPreferences d' = userPreferences d /\
  (forall p, p <> sender req -> activitiesOf d' p = activitiesOf d p) /\
  events_of (webhook env req d h)
  = replyEvents env d' (sender req)
      (loggedText (logActivity (incomingMsg req))) h.
Proof.
  intros Hs Hp Hlog entry d'.
  assert (E : webhook env req d h
              = (modify (with_userActivities
                           (logAppend (sender req)
                              (logActivity (incomingMsg req))
                              (now_iso env h))) ;;;
                 replyAndEnd env (sender req)
                   (loggedText (logActivity (incomingMsg req)))) d h).
  { rewrite webhook_known by assumption.
    rewrite commands_log by exact Hlog.
    now rewrite log_activity_not_empty. }
  assert (Hd : d' = with_userActivities
                      (logAppend (sender req)
                         (logActivity (incomingMsg req)) (now_iso env h)) d).
  { unfold d'. rewrite E. now io_simpl. }
  assert (Hget : forall p,
            JsMap.get (logAppend (sender req)
                         (logActivity (incomingMsg req)) (now_iso env h)
                         (userActivities d)) p
            = if (sender req =? p)%string
              then Some (activitiesOf d (sender req) ++ [entry])
              else JsMap.get (userActivities d) p).
  { intros p. unfold logAppend, activitiesOf.
    destruct (String.eqb_spec (sender req) p) as [<-|Hne].
    - unfold JsMap.has.
      destruct (JsMap.get (userActivities d) (sender req)) eqn:G;
        cbn [negb].
      + rewrite G. apply JsMapFacts.get_set_same.
      + rewrite JsMapFacts.get_set_same. apply JsMapFacts.get_set_same.
    - unfold JsMap.has.
      destruct (JsMap.get (userActivities d) (sender req)) eqn:G;
        cbn [negb].
      + rewrite G. now apply JsMapFacts.get_set_other.
      + rewrite JsMapFacts.get_set_same.
        rewrite !JsMapFacts.get_set_other by exact Hne. reflexivity. }
  repeat split.
  - rewrite Hd. unfold activitiesOf at 1. cbn [userActivities with_userActivities].
    now rewrite Hget, String.eqb_refl.
  - now rewrite Hd.
  - now rewrite Hd.
  - now rewrite Hd.
  - intros p Hne. rewrite Hd. unfold activitiesOf.
    cbn [userActivities with_userActivities]. rewrite Hget.
    destruct (String.eqb_spec (sender req) p); [congruence | reflexivity].
  - rewrite E, events_of_bind. cbn [modify events_of result_of dir_of fst snd].
    rewrite app_nil_r, replyAndEnd_events. cbn [app]. now rewrite Hd.
Qed.

(** C7, first half, at the message [log ] followed by nothing.  Bob is a
    known user; the message starts with [log ] and what follows is
    empty, yet the reply is the help text, not the text that asks for an
    activity.  Trimming comes before the prefix test, so [log ] has
    become [log] and reaches the default branch.  The directory is
    unchanged. *)
Theorem C7_blank_log_gets_help :
  Js.startsWith (Js.toLowerCase "log ") "log " = true /\
  Js.slice 4 "log " = "" /\
  JsMap.has (userPreferences d_sample) bob = true /\
  webhook sample_env (req bob "log ") d_sample []
  = (ok200, d_sample, [EvMessage bob helpText true]) /\
  helpText <> logUsageText.
Proof.
  repeat split; try reflexivity. vm_compute. discriminate.
Qed.

(** The same for every blank remainder: a known user who sends [log ]
    followed by white space only is answered with the help text. *)
Lemma blank_log_gets_help env from ws d h :
  let r := {| Body := Some ("log " +++ ws); From := from |} in
  Js.all_ws ws = true ->
  sender r <> "" -> JsMap.has (userPreferences d) (sender r) = true ->
  webhook env r d h = replyAndEnd env (sender r) helpText d h.
Proof.
  intros r Hws Hs Hp. rewrite webhook_known by assumption.
  assert (E : incomingMsg r = "log").
  { unfold incomingMsg, r. cbn [Body opt_str].
    now rewrite JsFacts.trim_app_ws_r. }
  rewrite E. reflexivity.
Qed.

(** ** The alert job *)

Lemma alertOne_events env entry d h :
  alertOne env entry d h = (tt, d, alertEvents env (subscribers d) entry h).
Proof.
  destruct entry as [phone q]. rewrite alertOne_eq. unfold alertEvents.
  cbn [fst snd]. f_equal.
  destruct (JsSet.has (subscribers d) phone); [|reflexivity].
  cbv zeta. f_equal. rewrite getWeather_eq. unfold result_of; cbn [fst].
  destruct (axios_get env h q) as [data|]; [|reflexivity].
  destruct (readWeather env data) as [weather|]; [|reflexivity].
  now destruct (alerts weather).
Qed.

Lemma forEach_alertOne_events env entries d h :
  events_of (forEach (alertOne env) entries d h)
  = sweepEvents env (subscribers d) entries h.
Proof.
  revert h. induction entries as [|entry entries IH]; intros h.
  - reflexivity.
  - cbn [forEach sweepEvents]. rewrite events_of_bind, alertOne_events.
    cbn [events_of result_of dir_of fst snd]. now rewrite IH.
Qed.

Lemma alertSweep_events env d h :
  events_of (alertSweep env d h)
  = sweepEvents env (subscribers d) (userLocations d) h.
Proof.
  unfold alertSweep. rewrite events_of_bind.
  cbn [getDir events_of result_of dir_of fst snd app].
  rewrite app_nil_r. apply forEach_alertOne_events.
Qed.

Lemma lookups_app es1 es2 : lookups (es1 ++ es2) = lookups es1 ++ lookups es2.
Proof.
  induction es1 as [|[q r|who p r|to body ok] es1 IH]; simpl;
    now rewrite ?IH.
Qed.

(** One lookup for a subscriber, none for the others, whatever the
    provider answers. *)
Lemma lookups_alertEvents env subs entry h :
  lookups (alertEvents env subs entry h)
  = if JsSet.has subs (fst entry) then [snd entry] else [].
Proof.
  unfold alertEvents. destruct (JsSet.has subs (fst entry)); [|reflexivity].
  cbn [lookups]. f_equal.
  destruct (axios_get env h (snd entry)) as [data|]; [|reflexivity].
  destruct (readWeather env data) as [weather|]; [|reflexivity].
  now destruct (alerts weather).
Qed.

Lemma lookups_sweepEvents env subs entries h :
  lookups (sweepEvents env subs entries h)
  = map snd (filter (fun entry => JsSet.has subs (fst entry)) entries).
Proof.
  revert h. induction entries as [|entry entries IH]; intros h.
  - reflexivity.
  - cbn [sweepEvents filter]. rewrite lookups_app, lookups_alertEvents, IH.
    now destruct (JsSet.has subs (fst entry)).
Qed.

(** A notification in the events of one entry comes right after that
    entry's successful lookup, which gave at least one alert. *)
Lemma message_in_alertEvents env subs entry h to body ok :
  In (EvMessage to body ok) (alertEvents env subs entry h) ->
  to = fst entry /\ JsSet.has subs to = true /\
  exists data weather,
    alertEvents env subs entry h
    = [EvWeatherGet (snd entry) (Some data); EvMessage to body ok] /\
    readWeather env data = Some weather /\
    alerts weather <> [] /\ body = alertMessage weather.
Proof.
  unfold alertEvents. destruct (JsSet.has subs (fst entry)) eqn:Hs.
  2:{ intros []. }
  cbv zeta. destruct (axios_get env h (snd entry)) as [data|].
  2:{ intros [H|[]]. discriminate. }
  destruct (readWeather env data) as [weather|] eqn:Hw.
  2:{ intros [H|[]]. discriminate. }
  destruct (alerts weather) as [|a rest] eqn:Ha.
  { intros [H|[]]. discriminate. }
  intros [H|[H|[]]]; [discriminate|].
  injection H as <- <- <-.
  repeat split; [exact Hs|].
  exists data, weather. repeat split; auto.
  rewrite Ha. discriminate.
Qed.

Lemma message_in_sweepEvents env subs entries h to body ok :
  In (EvMessage to body ok) (sweepEvents env subs entries h) ->
  JsSet.has subs to = true /\
  exists q data weather pre post,
    In (to, q) entries /\
    sweepEvents env subs entries h
    = pre ++ EvWeatherGet q (Some data) :: EvMessage to body ok :: post /\
    readWeather env data = Some weather /\
    alerts weather <> [] /\ body = alertMessage weather.
Proof.
  revert h. induction entries as [|entry entries IH]; intros h; [intros []|].
  cbn [sweepEvents]. intros H. apply in_app_or in H as [H|H].
  - apply message_in_alertEvents in H
      as (Hto & Hs & data & weather & Ev & Hw & Ha & Hb).
    split; [exact Hs|].
    exists (snd entry), data, weather, [],
      (sweepEvents env subs entries (h ++ alertEvents env subs entry h)).
    repeat split; auto.
    + left. rewrite Hto. now destruct entry.
    + now rewrite Ev.
  - apply IH in H as (Hs & q & data & weather & pre & post
                      & Hin & Ev & Hw & Ha & Hb).
    split; [exact Hs|].
    exists q, data, weather, (alertEvents env subs entry h ++ pre), post.
    repeat split; auto.
    + now right.
    + rewrite Ev. now rewrite app_assoc.
Qed.

Lemma sweepEvents_app env subs before rest h :
  sweepEvents env subs (before ++ rest) h
  = sweepEvents env subs before h
    ++ sweepEvents env subs rest (h ++ sweepEvents env subs before h).
Proof.
  revert h. induction before as [|entry before IH]; intros h.
  - cbn [app sweepEvents]. now rewrite app_nil_r.
  - cbn [app sweepEvents]. rewrite IH, <- !app_assoc. reflexivity.
Qed.

(** The notification of one entry, written out. *)
Lemma alertEvents_subscribed env subs phone q h :
  JsSet.has subs phone = true ->
  alertEvents env subs (phone, q) h
  = EvWeatherGet q (axios_get env h q)
    :: match axios_get env h q with
       | Some data =>
           match readWeather env data with
           | Some weather =>
               if 0 <? List.length (alerts weather)
               then [EvMessage phone (alertMessage weather)
                       (messages_create env
                          (h ++ [EvWeatherGet q (axios_get env h q)])
                          phone (alertMessage weather))]
               else []
           | None => []
           end
       | None => []
       end.
Proof.
  intros Hs. unfold alertEvents. cbn [fst snd]. rewrite Hs. cbv zeta.
  f_equal. destruct (axios_get env h q) as [data|]; [|reflexivity].
  destruct (readWeather env data) as [weather|]; [|reflexivity].
  now destruct (alerts weather).
Qed.

(** C8.  In one firing of the alert job a notification goes to a phone
    number only if it is a subscriber with a city in [userLocations]
    whose lookup, made just before, succeeded and gave at least one
    alert, and the notification is the alert message of that lookup.
    Every subscriber with a city gets its turn, whatever the lookups
    and the sends of the entries before it gave: after the events of
    those entries comes its lookup, then its notification exactly when
    the lookup succeeded with at least one alert, then the loop goes on
    with the entries after it.  The cities looked up are those of all
    subscribers, in the order of [userLocations], and the directory is
    not changed. *)
Theorem C8_alert_sweep :
  forall env d h,
    (forall to body ok,
       In (EvMessage to body ok) (events_of (alertSweep env d h)) ->
       JsSet.has (subscribers d) to = true /\
       exists q data weather pre post,
         In (to, q) (userLocations d) /\
         events_of (alertSweep env d h)
         = pre ++ EvWeatherGet q (Some data) :: EvMessage to body ok :: post /\
         readWeather env data = Some weather /\
         alerts weather <> [] /\ body = alertMessage weather) /\
    (forall before phone q rest,
       userLocations d = before ++ (phone, q) :: rest ->
       JsSet.has (subscribers d) phone = true ->
       let e0 := events_of (forEach (alertOne env) before d h) in
       let outcome := axios_get env (h ++ e0) q in
       let lookup := EvWeatherGet q outcome in
       let note :=
         match outcome with
         | Some data =>
             match readWeather env data with
             | Some weather =>
                 if 0 <? List.length (alerts weather)
                 then [EvMessage phone (alertMessage weather)
                         (messages_create env (h ++ e0 ++ [lookup]) phone
                            (alertMessage weather))]
                 else []
             | None => []
             end
         | None => []
         end in
       events_of (alertSweep env d h)
       = e0 ++ lookup :: note
         ++ events_of (forEach (alertOne env) rest d
                         (h ++ e0 ++ lookup :: note))) /\
    lookups (events_of (alertSweep env d h)) = map snd (subscribedEntries d) /\
    dir_of (alertSweep env d h) = d.
Proof.
  intros env d h. rewrite alertSweep_events. split; [|split; [|split]].
  - intros to body ok H. now apply message_in_sweepEvents in H.
  - intros before phone q rest Hl Hs. cbv zeta.
    rewrite !forEach_alertOne_events, Hl, sweepEvents_app.
    f_equal. cbn [sweepEvents].
    rewrite (alertEvents_subscribed env _ phone q _ Hs).
    rewrite <- !app_assoc. reflexivity.
  - apply lookups_sweepEvents.
  - apply alertSweep_dir.
Qed.

Lemma C8_alert_sweep_witness :
  events_of (alertSweep sample_env d_sweep [])
  = [EvWeatherGet "mumbai" (Some hot_rainy);
     EvMessage alice (alertMessage w_mumbai) true;
     EvWeatherGet "atlantis" None;
     EvWeatherGet "pune" (Some mild)] /\
  JsSet.has (subscribers d_sweep) alice = true /\
  events_of (alertSweep sample_env d_bob_first [])
  = [EvWeatherGet "atlantis" None;
     EvWeatherGet "mumbai" (Some hot_rainy);
     EvMessage alice (alertMessage w_mumbai) true] /\
  lookups (events_of (alertSweep sample_env d_sweep []))
  = ["mumbai"; "atlantis"; "pune"].
Proof.
  assert (E : events_of (alertSweep sample_env d_sweep [])
              = [EvWeatherGet "mumbai" (Some hot_rainy);
                 EvMessage alice (alertMessage w_mumbai) true;
                 EvWeatherGet "atlantis" None;
                 EvWeatherGet "pune" (Some mild)]) by reflexivity.
  destruct (C8_alert_sweep sample_env d_sweep []) as [Hm [_ [Hl _]]].
  destruct (C8_alert_sweep sample_env d_bob_first []) as [_ [Hturn _]].
  split; [exact E|]. split; [|split].
  - apply (Hm alice (alertMessage w_mumbai) true).
    rewrite E. right. left. reflexivity.
  - exact (eq_trans
             (Hturn [(bob, "atlantis")] alice "mumbai" [] eq_refl eq_refl)
             eq_refl).
  - rewrite Hl. reflexivity.
Defined.

(** ** Normalisation of the message *)







(** * Further properties of the handler *)

(** ** One request, one reply *)

Lemma messages_app es1 es2 :
  messages (es1 ++ es2) = messages es1 ++ messages es2.
Proof.
  induction es1 as [|[q r|who p r|to body ok] es1 IH]; simpl;
    now rewrite ?IH.
Qed.

Lemma replyEvents_messages env d phone text h :
  exists body, messages (replyEvents env d phone text h) = [(phone, body)].
Proof. unfold replyEvents. destruct (languageOf d phone); simpl; eauto. Qed.

Lemma replyEvents_lookups env d phone text h :
  lookups (replyEvents env d phone text h) = [].
Proof. unfold replyEvents. now destruct (languageOf d phone). Qed.

Lemma weatherReply_messages env from q d h :
  (exists body,
     messages (events_of (weatherReply env from q d h)) = [(from, body)]) /\
  lookups (events_of (weatherReply env from q d h)) = [q].
Proof.
  rewrite weatherReply_eq. cbv zeta.
  destruct (result_of (getWeather env q d h));
    cbn [events_of snd messages lookups];
    rewrite replyAndEnd_events, replyEvents_lookups;
    (split; [apply replyEvents_messages | reflexivity]).
Qed.

Ltac ev_simpl :=
  repeat first
    [ rewrite events_of_bind | rewrite dir_of_bind
    | rewrite replyAndEnd_dir | rewrite replyAndEnd_events
    | progress cbn [modify history getDir ret dir_of result_of events_of
                    fst snd app] ].

Lemma commands_messages env from msg d h :
  (exists body,
     messages (events_of (commands env from msg d d h)) = [(from, body)]) /\
  List.length (lookups (events_of (commands env from msg d d h))) <= 1.
Proof.
  unfold commands.
  repeat match goal with
  | |- context [if ?c then _ else _] => destruct c eqn:?
  end;
  try (destruct (weatherReply_messages env from
                   (Js.or_else (weatherCity msg)
                      (opt_str (JsMap.get (userLocations d) from))) d h)
         as [Hm Hl]; rewrite Hl; split; [exact Hm | simpl; lia]);
  ev_simpl; rewrite replyEvents_lookups;
  (split; [apply replyEvents_messages | simpl; lia]).
Qed.

(** X1.  A request with a sender is answered with exactly one WhatsApp
    message, addressed to the sender, and makes at most one weather
    lookup; a request without a sender calls no provider. *)
Theorem X1_one_reply_per_request :
  forall env req d h,
    (sender req <> "" ->
     (exists body,
        messages (events_of (webhook env req d h)) = [(sender req, body)]) /\
     List.length (lookups (events_of (webhook env req d h))) <= 1) /\
    (sender req = "" -> events_of (webhook env req d h) = []).
Proof.
  intros env req d h. split.
  - intros Hs. destruct (JsMap.has (userPreferences d) (sender req)) eqn:Hp.
    + rewrite webhook_known by assumption. apply commands_messages.
    + rewrite webhook_first_contact by assumption. simpl.
      split; [eauto | lia].
  - intros E. now rewrite webhook_missing_sender.
Qed.

Lemma X1_one_reply_per_request_witness :
  ((exists body,
      messages (events_of (webhook sample_env (req alice "weather") d_sample []))
      = [(sender (req alice "weather"), body)]) /\
   List.length
     (lookups (events_of (webhook sample_env (req alice "weather")
                            d_sample []))) <= 1) /\
  events_of (webhook sample_env {| Body := Some "weather"; From := None |}
               d_sample []) = [].
Proof.
  split.
  - apply (proj1 (X1_one_reply_per_request sample_env (req alice "weather")
                    d_sample [])).
    vm_compute. discriminate.
  - apply (proj2 (X1_one_reply_per_request sample_env
                    {| Body := Some "weather"; From := None |} d_sample [])).
    reflexivity.
Defined.

(** ** A request touches its sender only *)

Lemma set_has_add_other (s : JsSet.t) (x p : string) :
  p <> x -> JsSet.has (JsSet.add s x) p = JsSet.has s p.
Proof.
  intros Hne. destruct (JsSet.has s p) eqn:E.
  - apply JsSetFacts.set_has_add. now right.
  - destruct (JsSet.has (JsSet.add s x) p) eqn:E'; [|reflexivity].
    apply JsSetFacts.set_has_add in E' as [->|E']; congruence.
Qed.

Lemma set_has_delete_other (s : JsSet.t) (x p : string) :
  p <> x -> JsSet.has (JsSet.delete s x) p = JsSet.has s p.
Proof.
  intros Hne. destruct (JsSet.has s p) eqn:E.
  - apply JsSetFacts.set_has_delete. split; [congruence | exact E].
  - destruct (JsSet.has (JsSet.delete s x) p) eqn:E'; [|reflexivity].
    apply JsSetFacts.set_has_delete in E' as [_ E']. congruence.
Qed.

Lemma get_logAppend_other from a t m p :
  p <> from ->
  JsMap.get (logAppend from a t m) p = JsMap.get m p.
Proof.
  intros Hne. unfold logAppend.
  destruct (JsMap.has m from); cbn [negb].
  - destruct (JsMap.get m from); [|reflexivity].
    apply JsMapFacts.get_set_other. congruence.
  - rewrite JsMapFacts.get_set_same.
    rewrite !JsMapFacts.get_set_other by congruence. reflexivity.
Qed.

Lemma dir_change_other from d d' p :
  dir_change from d d' -> p <> from -> userRecord d' p = userRecord d p.
Proof.
  intros Hc Hne. assert (Hne' : from <> p) by congruence.
  destruct Hc as [|l|a t Hknown| |c Hknown Hc|];
    unfold userRecord, activitiesOf; simpl;
    rewrite ?JsMapFacts.get_set_other, ?JsMapFacts.get_delete_other,
      ?get_logAppend_other, ?set_has_add_other, ?set_has_delete_other
      by assumption;
    reflexivity.
Qed.

(** X2.  A request changes the record of no user but its sender. *)
Theorem X2_other_users_untouched :
  forall env req d h p,
    p <> sender req ->
    userRecord (dir_of (webhook env req d h)) p = userRecord d p.
Proof.
  intros env req d h p Hne.
  exact (dir_change_other _ _ _ _ (webhook_dir_change env req d h) Hne).
Qed.

Lemma X2_other_users_untouched_witness :
  userRecord (dir_of (webhook sample_env (req bob "subscribe Pune")
                        d_sample [])) alice
  = userRecord d_sample alice.
Proof.
  apply (X2_other_users_untouched sample_env (req bob "subscribe Pune")
           d_sample [] alice).
  vm_compute. discriminate.
Defined.

(** ** Records stay *)

Lemma dir_change_known from d d' p :
  dir_change from d d' ->
  JsMap.has (userPreferences d) p = true ->
  JsMap.has (userPreferences d') p = true.
Proof.
  intros Hc Hp. destruct Hc; simpl; auto.
  now apply JsMapFacts.has_set.
Qed.

Lemma commands_preferences env from msg d h :
  (msg =? "1")%string || (msg =? "2")%string || (msg =? "3")%string = false ->
  userPreferences (dir_of (commands env from msg d d h)) = userPreferences d.
Proof.
  intros H123. unfold commands. rewrite H123.
  repeat match goal with
  | |- context [if ?c then _ else _] => destruct c eqn:?
  end; io_simpl; reflexivity.
Qed.

(** X3.  No request removes a user: a phone number with a record keeps
    one.  The stored language of a known user is changed by the
    messages [1], [2] and [3] only: after any other message
    [userPreferences] is what it was. *)
Theorem X3_records_stay :
  forall env req d h,
    (forall p, JsMap.has (userPreferences d) p = true ->
       JsMap.has (userPreferences (dir_of (webhook env req d h))) p = true) /\
    (JsMap.has (userPreferences d) (sender req) = true ->
     incomingMsg req <> "1" -> incomingMsg req <> "2" ->
     incomingMsg req <> "3" ->
     userPreferences (dir_of (webhook env req d h)) = userPreferences d).
Proof.
  intros env req d h. split.
  - intros p. apply dir_change_known with (from := sender req).
    apply webhook_dir_change.
  - intros Hp H1 H2 H3.
    destruct (string_dec (sender req) "") as [E|Hs].
    { now rewrite webhook_missing_sender. }
    rewrite webhook_known by assumption.
    apply commands_preferences.
    apply String.eqb_neq in H1, H2, H3. now rewrite H1, H2, H3.
Qed.

Lemma X3_records_stay_witness :
  JsMap.has (userPreferences
               (dir_of (webhook sample_env (req alice "unsubscribe")
                          d_sample []))) alice = true /\
  userPreferences (dir_of (webhook sample_env (req alice "unsubscribe")
                             d_sample []))
  = userPreferences d_sample.
Proof.
  destruct (X3_records_stay sample_env (req alice "unsubscribe") d_sample [])
    as [H1 H2].
  split.
  - apply H1. reflexivity.
  - apply H2; [reflexivity | | | ]; vm_compute; discriminate.
Defined.

(** ** Locations and subscribers go together *)

Lemma dir_change_loc_sub from d d' :
  dir_change from d d' ->
  (forall p, JsMap.has (userLocations d) p = true ->
             JsSet.has (subscribers d) p = true) ->
  forall p, JsMap.has (userLocations d') p = true ->
            JsSet.has (subscribers d') p = true.
Proof.
  intros Hc H p. destruct Hc as [|l|a t Hknown| |c Hknown Hc|]; simpl; auto.
  - intros Hp. apply JsSetFacts.set_has_add.
    apply has_set_inv in Hp as [->|Hp]; auto.
  - intros Hp. apply JsSetFacts.set_has_delete.
    destruct (string_dec from p) as [->|Hne].
    + now rewrite JsMapFacts.has_delete_same in Hp.
    + split; [exact Hne|]. apply H. now apply JsMapFacts.has_delete in Hp.
Qed.

Lemma reachable_loc_sub d :
  reachable d ->
  forall p, JsMap.has (userLocations d) p = true ->
            JsSet.has (subscribers d) p = true.
Proof.
  induction 1 as [|env req d h _ IH|env d h _ IH].
  - intros p H. discriminate.
  - exact (dir_change_loc_sub _ _ _ (webhook_dir_change env req d h) IH).
  - now rewrite alertSweep_dir.
Qed.

Lemma filter_all (A : Type) (f : A -> bool) (xs : list A) :
  (forall x, In x xs -> f x = true) -> filter f xs = xs.
Proof.
  induction xs as [|x xs IH]; intros H; simpl; [reflexivity|].
  rewrite (H x) by now left. f_equal. apply IH. intros y Hy. apply H.
  now right.
Qed.

(** X4.  In every reachable directory the phone numbers with a stored
    location are exactly the subscribers.  The test
    [subscribers.has(phone)] of the alert job therefore never fails:
    one firing looks up every stored location, in the order of
    [userLocations]. *)
Theorem X4_locations_are_subscribers :
  forall d, reachable d ->
    (forall p, JsMap.has (userLocations d) p = JsSet.has (subscribers d) p) /\
    subscribedEntries d = userLocations d /\
    (forall env h,
       lookups (events_of (alertSweep env d h)) = map snd (userLocations d)).
Proof.
  intros d Hr. pose proof (reachable_loc_sub d Hr) as Hls.
  destruct (reachable_ok d Hr) as [_ _ _ _ Hloc _ _ _].
  assert (Hall : subscribedEntries d = userLocations d).
  { unfold subscribedEntries. apply filter_all. intros [p c] Hin.
    apply Hls, JsMapFacts.has_In. unfold JsMap.keys.
    apply in_map_iff. now exists (p, c). }
  repeat split.
  - intros p. destruct (JsSet.has (subscribers d) p) eqn:E.
    + unfold JsMap.has. destruct (Hloc p E) as [c [Hc _]]. now rewrite Hc.
    + destruct (JsMap.has (userLocations d) p) eqn:E'; [|reflexivity].
      apply Hls in E'. congruence.
  - exact Hall.
  - intros env h. rewrite alertSweep_events, lookups_sweepEvents.
    fold (subscribedEntries d). now rewrite Hall.
Qed.

Lemma X4_locations_are_subscribers_witness :
  subscribedEntries d_sweep = userLocations d_sweep /\
  lookups (events_of (alertSweep down_env d_sweep []))
  = map snd (userLocations d_sweep).
Proof.
  destruct (X4_locations_are_subscribers d_sweep) as [_ [H1 H2]].
  - apply reachable_after, reach_start.
  - split; [exact H1 | apply H2].
Defined.

(** ** The [status] command *)

Lemma commands_status env from msg d h :
  msg = "status" \/ msg = "/status" \/ msg = "my status" ->
  commands env from msg d d h = replyAndEnd env from (statusText d from) d h.
Proof. intros [ -> | [ -> | -> ] ]; reflexivity. Qed.

(** X5.  The [status] command of a known user changes nothing and, in a
    reachable directory, its report is consistent: it shows either the
    stored city together with [Subscribed: Yes], or [Not subscribed]
    together with [Subscribed: No]. *)
Theorem X5_status_report :
  forall env req d h,
    reachable d -> sender req <> "" ->
    JsMap.has (userPreferences d) (sender req) = true ->
    incomingMsg req = "status" \/ incomingMsg req = "/status"
    \/ incomingMsg req = "my status" ->
    webhook env req d h
    = replyAndEnd env (sender req) (statusText d (sender req)) d h /\
    dir_of (webhook env req d h) = d /\
    ((exists c,
        JsMap.get (userLocations d) (sender req) = Some c /\ c <> "" /\
        statusText d (sender req)
        = statusLines c (lang_code (languageOf d (sender req))) "Yes")
     \/
     (JsMap.get (userLocations d) (sender req) = None /\
      statusText d (sender req)
      = statusLines "Not subscribed"
          (lang_code (languageOf d (sender req))) "No")).
Proof.
  intros env req d h Hr Hs Hp Hmsg.
  assert (E : webhook env req d h
              = replyAndEnd env (sender req) (statusText d (sender req)) d h).
  { rewrite webhook_known by assumption. now apply commands_status. }
  split; [exact E|]. split; [rewrite E; apply replyAndEnd_dir|].
  pose proof (reachable_loc_sub d Hr (sender req)) as Hls.
  destruct (reachable_ok d Hr) as [_ _ _ _ Hloc _ _ _].
  unfold statusText, statusLines.
  destruct (JsSet.has (subscribers d) (sender req)) eqn:Hsub.
  - left. destruct (Hloc _ Hsub) as [c [Hc Hne]]. exists c.
    repeat split; auto. rewrite Hc. cbn [opt_str]. unfold Js.or_else.
    apply String.eqb_neq in Hne. now rewrite Hne.
  - right. unfold JsMap.has in Hls.
    destruct (JsMap.get (userLocations d) (sender req)).
    + specialize (Hls eq_refl). congruence.
    + split; reflexivity.
Qed.

Lemma X5_status_report_witness :
  webhook sample_env (req bob " /Status") d_sample []
  = replyAndEnd sample_env bob (statusText d_sample bob) d_sample [] /\
  statusText d_sample alice = statusLines "mumbai" "mr" "Yes" /\
  statusText d_sample bob = statusLines "Not subscribed" "en" "No".
Proof.
  split; [|split; reflexivity].
  apply (X5_status_report sample_env (req bob " /Status") d_sample []).
  - apply reachable_after, reach_start.
  - vm_compute. discriminate.
  - reflexivity.
  - right. left. reflexivity.
Defined.

(** ** Choosing a language *)

Lemma langChoice_inv msg code name :
  langChoice msg = Some (code, name) ->
  (msg = "1" /\ code = hi /\ name = "Hindi") \/
  (msg = "2" /\ code = mr /\ name = "Marathi") \/
  (msg = "3" /\ code = en /\ name = "English").
Proof.
  unfold langChoice.
  destruct (String.eqb_spec msg "1"); [intros [= <- <-]; auto|].
  destruct (String.eqb_spec msg "2"); [intros [= <- <-]; auto|].
  destruct (String.eqb_spec msg "3"); [intros [= <- <-]; auto|].
  discriminate.
Qed.

Lemma commands_language env from msg code name d h :
  langChoice msg = Some (code, name) ->
  commands env from msg d d h
  = (modify (with_userPreferences
               (fun m => JsMap.set m from {| language := code |})) ;;;
     replyAndEnd env from (languageSetText name)) d h.
Proof.
  intros H.
  destruct (langChoice_inv _ _ _ H) as [(-> & -> & ->)|[(-> & -> & ->)|
                                        (-> & -> & ->)]];
    reflexivity.
Qed.

(** X6.  The messages [1], [2] and [3] of a known user store [hi],
    [mr] and [en] and leave the rest of the record alone.  The
    confirmation is sent in the language just chosen: Gemini is asked
    to translate it exactly when the new language is not [en], whatever
    the language was before. *)
Theorem X6_language_choice :
  forall env req d h code name r0,
    sender req <> "" ->
    userRecord d (sender req) = Some r0 ->
    langChoice (incomingMsg req) = Some (code, name) ->
    let d' := with_userPreferences
                (fun m => JsMap.set m (sender req) {| language := code |}) d in
    webhook env req d h
    = (ok200, d', replyEvents env d' (sender req) (languageSetText name) h) /\
    userRecord d' (sender req)
    = Some {| subscribed := subscribed r0; location := location r0;
              lang := code; activityLog := activityLog r0 |} /\
    existsb is_generate_call (events_of (webhook env req d h))
    = negb (lang_eqb code en).
Proof.
  intros env req d h code name r0 Hs Hrec Hch d'.
  assert (Hp : JsMap.has (userPreferences d) (sender req) = true).
  { unfold userRecord in Hrec. unfold JsMap.has.
    now destruct (JsMap.get (userPreferences d) (sender req)). }
  assert (E : webhook env req d h
              = (ok200, d',
                 replyEvents env d' (sender req) (languageSetText name) h)).
  { rewrite webhook_known by assumption.
    rewrite (commands_language env _ _ code name d h Hch).
    rewrite (triple_eta _ (bind _ _ _ _)). ev_simpl. io_simpl.
    now rewrite app_nil_r. }
  assert (Hl : languageOf d' (sender req) = code).
  { unfold languageOf, d'; simpl. now rewrite JsMapFacts.get_set_same. }
  split; [exact E|]. split.
  - unfold userRecord, activitiesOf in *. unfold d'; simpl.
    rewrite JsMapFacts.get_set_same.
    destruct (JsMap.get (userPreferences d) (sender req)); [|discriminate].
    now injection Hrec as <-.
  - rewrite E. cbn [events_of snd]. unfold replyEvents. rewrite Hl.
    now destruct code.
Qed.

Lemma X6_language_choice_witness :
  webhook sample_env (req alice " 1 ") d_sample []
  = (ok200,
     with_userPreferences
       (fun m => JsMap.set m alice {| language := hi |}) d_sample,
     [EvGenerate Translator (translatePrompt (languageSetText "Hindi") hi)
        (Some "anuvaad");
      EvMessage alice "anuvaad" true]) /\
  webhook sample_env (req alice "3") d_sample []
  = (ok200,
     with_userPreferences
       (fun m => JsMap.set m alice {| language := en |}) d_sample,
     [EvMessage alice (languageSetText "English") true]).
Proof.
  split.
  - apply (X6_language_choice sample_env (req alice " 1 ") d_sample []
             hi "Hindi"
             {| subscribed := true; location := Some "mumbai"; lang := mr;
                activityLog := [{| activity := "sowed wheat";
                                   date := "2025-01-01T00:00:00.000Z" |}] |});
      [vm_compute; discriminate | reflexivity | reflexivity].
  - apply (X6_language_choice sample_env (req alice "3") d_sample []
             en "English"
             {| subscribed := true; location := Some "mumbai"; lang := mr;
                activityLog := [{| activity := "sowed wheat";
                                   date := "2025-01-01T00:00:00.000Z" |}] |});
      [vm_compute; discriminate | reflexivity | reflexivity].
Defined.

(** ** Logging, viewing and clearing *)

Lemma commands_view_log env from d h :
  commands env from "view log" d d h
  = if List.length (activitiesOf d from) =? 0
    then replyAndEnd env from noLogText d h
    else replyAndEnd env from (viewLogText env (activitiesOf d from)) d h.
Proof.
  unfold commands, activitiesOf. cbn [String.eqb Ascii.eqb Bool.eqb orb
                                      Js.startsWith String.prefix].
  now destruct (List.length _ =? 0).
Qed.

Lemma commands_clear_log env from d h :
  commands env from "clear log" d d h
  = (modify (with_userActivities (fun m => JsMap.delete m from)) ;;;
     replyAndEnd env from logClearedText) d h.
Proof. reflexivity. Qed.

(** X7.  After a [log ] message of a known user, [view log] lists the
    entries that were there, in their order, followed by the new one. *)
Theorem X7_log_then_view :
  forall env env2 req req2 d h h2,
    sender req <> "" ->
    JsMap.has (userPreferences d) (sender req) = true ->
    Js.startsWith (incomingMsg req) "log " = true ->
    sender req2 = sender req -> incomingMsg req2 = "view log" ->
    let d1 := dir_of (webhook env req d h) in
    let entry := {| activity := logActivity (incomingMsg req);
                    date := now_iso env h |} in
    webhook env2 req2 d1 h2
    = replyAndEnd env2 (sender req)
        (viewLogText env2 (activitiesOf d (sender req) ++ [entry])) d1 h2 /\
    dir_of (webhook env2 req2 d1 h2) = d1.
Proof.
  intros env env2 req req2 d h h2 Hs Hp Hlog Hsame Hview d1 entry.
  destruct (log_appends_one env req d h Hs Hp Hlog)
    as (Hact & _ & _ & Hprefs & _).
  fold d1 in Hact, Hprefs. fold entry in Hact.
  assert (E : webhook env2 req2 d1 h2
              = replyAndEnd env2 (sender req)
                  (viewLogText env2 (activitiesOf d (sender req) ++ [entry]))
                  d1 h2).
  { rewrite webhook_known; rewrite ?Hsame, ?Hprefs; auto.
    rewrite Hview, commands_view_log, Hact.
    rewrite length_app. cbn [List.length].
    now replace (List.length (activitiesOf d (sender req)) + 1 =? 0)
      with false by (symmetry; apply Nat.eqb_neq; lia). }
  split; [exact E | rewrite E; apply replyAndEnd_dir].
Qed.

Lemma X7_log_then_view_witness :
  webhook down_env (req alice "View Log")
    (dir_of (webhook sample_env (req alice "log watered maize") d_sample []))
    []
  = replyAndEnd down_env alice
      (viewLogText down_env
         [{| activity := "sowed wheat"; date := "2025-01-01T00:00:00.000Z" |};
          {| activity := "watered maize";
             date := "2025-01-01T00:00:00.000Z" |}])
      (dir_of (webhook sample_env (req alice "log watered maize")
                 d_sample [])) [].
Proof.
  apply (X7_log_then_view sample_env down_env (req alice "log watered maize")
           (req alice "View Log") d_sample [] []);
    try reflexivity.
  vm_compute. discriminate.
Defined.

(** X8.  [clear log] of a known user empties that user's log and
    touches nothing else; a [view log] that follows is answered with
    the nothing-logged text, and a [log ] that follows starts a list
    with one entry. *)
Theorem X8_clear_log :
  forall env env2 req req2 d h h2,
    sender req <> "" ->
    JsMap.has (userPreferences d) (sender req) = true ->
    incomingMsg req = "clear log" -> sender req2 = sender req ->
    let d1 := dir_of (webhook env req d h) in
    d1 = with_userActivities (fun m => JsMap.delete m (sender req)) d /\
    activitiesOf d1 (sender req) = [] /\
    (incomingMsg req2 = "view log" ->
     webhook env2 req2 d1 h2
     = replyAndEnd env2 (sender req) noLogText d1 h2) /\
    (Js.startsWith (incomingMsg req2) "log " = true ->
     activitiesOf (dir_of (webhook env2 req2 d1 h2)) (sender req)
     = [{| activity := logActivity (incomingMsg req2);
           date := now_iso env2 h2 |}]).
Proof.
  intros env env2 req req2 d h h2 Hs Hp Hclear Hsame d1.
  assert (Hd1 : d1 = with_userActivities
                       (fun m => JsMap.delete m (sender req)) d).
  { unfold d1. rewrite webhook_known by assumption.
    rewrite Hclear, commands_clear_log. now io_simpl. }
  assert (Hact : activitiesOf d1 (sender req) = []).
  { rewrite Hd1. unfold activitiesOf; simpl.
    now rewrite JsMapFacts.get_delete_same. }
  assert (Hp1 : JsMap.has (userPreferences d1) (sender req2) = true).
  { rewrite Hd1, Hsame. exact Hp. }
  assert (Hs2 : sender req2 <> "") by now rewrite Hsame.
  repeat split; auto.
  - intros Hview. rewrite webhook_known by assumption.
    rewrite Hview, commands_view_log, Hsame, Hact. reflexivity.
  - intros Hlog.
    destruct (log_appends_one env2 req2 d1 h2 Hs2 Hp1 Hlog) as (H & _).
    rewrite Hsame in H. now rewrite H, Hact.
Qed.

Lemma X8_clear_log_witness :
  activitiesOf (dir_of (webhook sample_env (req alice "clear log")
                          d_sample [])) alice = [] /\
  webhook sample_env (req alice "view log")
    (dir_of (webhook sample_env (req alice "clear log") d_sample [])) []
  = replyAndEnd sample_env alice noLogText
      (dir_of (webhook sample_env (req alice "clear log") d_sample [])) [].
Proof.
  destruct (X8_clear_log sample_env sample_env (req alice "clear log")
              (req alice "view log") d_sample [] [])
    as (_ & H1 & H2 & _); try reflexivity.
  - vm_compute. discriminate.
  - split; [exact H1 | apply H2; reflexivity].
Defined.

(** X9.  The help text lists [log view] and [log clear] as commands,
    but a message that starts with [log ] is always stored: for a known
    user [log view] appends the activity [view] and [log clear] the
    activity [clear], and the log is neither shown nor emptied. *)
Theorem X9_log_view_is_stored :
  forall env from word d h,
    let r := {| Body := Some ("log " +++ word); From := from |} in
    word = "view" \/ word = "clear" ->
    sender r <> "" -> JsMap.has (userPreferences d) (sender r) = true ->
    Js.includes helpText ("*log " +++ word +++ "*") = true /\
    activitiesOf (dir_of (webhook env r d h)) (sender r)
    = activitiesOf d (sender r)
      ++ [{| activity := word; date := now_iso env h |}].
Proof.
  intros env from word d h r Hw Hs Hp.
  assert (Hlog : Js.startsWith (incomingMsg r) "log " = true)
    by (destruct Hw as [-> | ->]; reflexivity).
  assert (Ha : logActivity (incomingMsg r) = word)
    by (destruct Hw as [-> | ->]; reflexivity).
  split.
  - destruct Hw as [-> | ->]; vm_compute; reflexivity.
  - destruct (log_appends_one env r d h Hs Hp Hlog) as (H & _).
    now rewrite H, Ha.
Qed.

Lemma X9_log_view_is_stored_witness :
  activitiesOf (dir_of (webhook sample_env (req alice "log view")
                          d_sample [])) alice
  = [{| activity := "sowed wheat"; date := "2025-01-01T00:00:00.000Z" |};
     {| activity := "view"; date := "2025-01-01T00:00:00.000Z" |}].
Proof.
  apply (X9_log_view_is_stored sample_env (Some alice) "view" d_sample []).
  - left. reflexivity.
  - vm_compute. discriminate.
  - reflexivity.
Defined.

(** ** Subscribing and the alert job *)

Lemma get_In (V : Type) (m : JsMap.t V) k v :
  JsMap.get m k = Some v -> In (k, v) m.
Proof.
  induction m as [|[k' v'] m IH]; simpl; [discriminate|].
  destruct (String.eqb_spec k k') as [->|Hne].
  - intros [= ->]. now left.
  - intros H. right. auto.
Qed.

Lemma In_has (V : Type) (m : JsMap.t V) k v :
  In (k, v) m -> JsMap.has m k = true.
Proof.
  intros H. apply JsMapFacts.has_In. unfold JsMap.keys.
  apply in_map_iff. now exists (k, v).
Qed.

Lemma webhook_subscribe env req d h :
  sender req <> "" ->
  JsMap.has (userPreferences d) (sender req) = true ->
  Js.startsWith (incomingMsg req) "subscribe" = true ->
  subscribeCity (incomingMsg req) <> "" ->
  let d' := with_userLocations
              (fun m => JsMap.set m (sender req)
                          (subscribeCity (incomingMsg req)))
              (with_subscribers (fun s => JsSet.add s (sender req)) d) in
  webhook env req d h
  = (ok200, d',
     replyEvents env d' (sender req)
       (subscribedText (subscribeCity (incomingMsg req))) h).
Proof.
  intros Hs Hp Hpre Hc d'.
  rewrite webhook_known by assumption.
  rewrite commands_subscribe by exact Hpre.
  apply String.eqb_neq in Hc. rewrite Hc.
  rewrite (triple_eta _ (bind _ _ _ _)). ev_simpl. io_simpl.
  now rewrite !app_nil_r.
Qed.

(** X10.  A [subscribe] message with a city, from a known user, makes
    the record subscribed with that city as its location, whatever the
    record said before, and keeps language and log.  A user who is
    already a subscriber is not added a second time, and the city is
    replaced in place. *)
Theorem X10_subscribe_sets_city :
  forall env req d h r0,
    sender req <> "" ->
    userRecord d (sender req) = Some r0 ->
    Js.startsWith (incomingMsg req) "subscribe" = true ->
    subscribeCity (incomingMsg req) <> "" ->
    let d' := dir_of (webhook env req d h) in
    userRecord d' (sender req)
    = Some {| subscribed := true;
              location := Some (subscribeCity (incomingMsg req));
              lang := lang r0; activityLog := activityLog r0 |} /\
    (subscribed r0 = true -> subscribers d' = subscribers d) /\
    (JsMap.has (userLocations d) (sender req) = true ->
     JsMap.keys (userLocations d') = JsMap.keys (userLocations d)).
Proof.
  intros env req d h r0 Hs Hrec Hpre Hc d'.
  assert (Hp : JsMap.has (userPreferences d) (sender req) = true).
  { unfold userRecord in Hrec. unfold JsMap.has.
    now destruct (JsMap.get (userPreferences d) (sender req)). }
  unfold d'. rewrite (webhook_subscribe env req d h Hs Hp Hpre Hc).
  cbn [dir_of fst snd]. repeat split.
  - unfold userRecord, activitiesOf in *; simpl.
    destruct (JsMap.get (userPreferences d) (sender req)); [|discriminate].
    injection Hrec as <-. simpl.
    rewrite JsMapFacts.get_set_same.
    assert (Hadd : JsSet.has (JsSet.add (subscribers d) (sender req))
                     (sender req) = true)
      by (apply JsSetFacts.set_has_add; now left).
    now rewrite Hadd.
  - intros Hsub. simpl. unfold JsSet.add.
    unfold userRecord in Hrec.
    destruct (JsMap.get (userPreferences d) (sender req)); [|discriminate].
    injection Hrec as <-. simpl in Hsub. now rewrite Hsub.
  - intros Hl. simpl. now apply JsMapFacts.keys_set_old.
Qed.

Lemma X10_subscribe_sets_city_witness :
  userRecord (dir_of (webhook sample_env (req alice "subscribe  Pune ")
                        d_sample [])) alice
  = Some {| subscribed := true; location := Some "pune"; lang := mr;
            activityLog := [{| activity := "sowed wheat";
                               date := "2025-01-01T00:00:00.000Z" |}] |} /\
  subscribers (dir_of (webhook sample_env (req alice "subscribe  Pune ")
                         d_sample []))
  = subscribers d_sample.
Proof.
  destruct (X10_subscribe_sets_city sample_env (req alice "subscribe  Pune ")
              d_sample []
              {| subscribed := true; location := Some "mumbai"; lang := mr;
                 activityLog := [{| activity := "sowed wheat";
                                    date := "2025-01-01T00:00:00.000Z" |}] |})
    as (H1 & H2 & _); try reflexivity.
  - vm_compute. discriminate.
  - vm_compute. discriminate.
  - split; [exact H1 | apply H2; reflexivity].
Defined.

(** X11.  The alert job that fires after a [subscribe] message with a
    city looks that city up for the sender, in any world. *)
Theorem X11_subscribe_then_sweep :
  forall env env2 req d h h2,
    sender req <> "" ->
    JsMap.has (userPreferences d) (sender req) = true ->
    Js.startsWith (incomingMsg req) "subscribe" = true ->
    subscribeCity (incomingMsg req) <> "" ->
    let d' := dir_of (webhook env req d h) in
    In (sender req, subscribeCity (incomingMsg req)) (subscribedEntries d') /\
    In (subscribeCity (incomingMsg req))
       (lookups (events_of (alertSweep env2 d' h2))).
Proof.
  intros env env2 req d h h2 Hs Hp Hpre Hc d'.
  assert (Hin : In (sender req, subscribeCity (incomingMsg req))
                   (subscribedEntries d')).
  { unfold d'. rewrite (webhook_subscribe env req d h Hs Hp Hpre Hc).
    cbn [dir_of fst snd]. unfold subscribedEntries. apply filter_In.
    simpl. split.
    - apply get_In, JsMapFacts.get_set_same.
    - apply JsSetFacts.set_has_add. now left. }
  split; [exact Hin|].
  rewrite alertSweep_events, lookups_sweepEvents.
  fold (subscribedEntries d').
  apply in_map_iff. now exists (sender req, subscribeCity (incomingMsg req)).
Qed.

Lemma X11_subscribe_then_sweep_witness :
  In "pune"
     (lookups (events_of
                 (alertSweep down_env
                    (dir_of (webhook sample_env (req bob "subscribe Pune")
                               d_sample [])) []))).
Proof.
  apply (X11_subscribe_then_sweep sample_env down_env
           (req bob "subscribe Pune") d_sample [] []);
    try reflexivity; vm_compute; discriminate.
Defined.

(** X12.  After [unsubscribe] of a known user the alert job sends that
    user nothing, in any world, and none of the entries it handles is
    the user's. *)
Theorem X12_unsubscribe_stops_alerts :
  forall env env2 req d h h2,
    sender req <> "" ->
    JsMap.has (userPreferences d) (sender req) = true ->
    incomingMsg req = "unsubscribe" ->
    let d' := dir_of (webhook env req d h) in
    (forall body ok,
       ~ In (EvMessage (sender req) body ok)
            (events_of (alertSweep env2 d' h2))) /\
    (forall c, ~ In (sender req, c) (subscribedEntries d')).
Proof.
  intros env env2 req d h h2 Hs Hp Hm d'.
  assert (Hd : d' = with_userLocations
                      (fun m => JsMap.delete m (sender req))
                      (with_subscribers
                         (fun s => JsSet.delete s (sender req)) d)).
  { unfold d'. rewrite webhook_known by assumption.
    rewrite Hm, commands_unsubscribe. now io_simpl. }
  assert (Hno : forall c, ~ In (sender req, c) (userLocations d')).
  { intros c Hin. apply In_has in Hin. rewrite Hd in Hin. simpl in Hin.
    now rewrite JsMapFacts.has_delete_same in Hin. }
  split.
  - intros body ok Hin. rewrite alertSweep_events in Hin.
    apply message_in_sweepEvents in Hin
      as (_ & q & _ & _ & _ & _ & Hq & _).
    exact (Hno q Hq).
  - intros c Hin. unfold subscribedEntries in Hin.
    apply filter_In in Hin as [Hin _]. exact (Hno c Hin).
Qed.

Lemma X12_unsubscribe_stops_alerts_witness :
  ~ In (EvMessage alice (alertMessage w_mumbai) true)
       (events_of
          (alertSweep sample_env
             (dir_of (webhook sample_env (req alice "unsubscribe")
                        d_sample [])) [])).
Proof.
  apply (X12_unsubscribe_stops_alerts sample_env sample_env
           (req alice "unsubscribe") d_sample [] []);
    try reflexivity.
  vm_compute. discriminate.
Defined.

(** ** The weather command, the other paths *)

(** X13.  A [weather] command whose argument is empty asks for the
    stored location.  When there is none, the reply is the usage text
    and neither the weather provider nor the advisory generator is
    called; when there is one, exactly that city is looked up. *)
Theorem X13_weather_without_city :
  forall env req d h,
    sender req <> "" ->
    JsMap.has (userPreferences d) (sender req) = true ->
    Js.startsWith (incomingMsg req) "weather" = true ->
    weatherCity (incomingMsg req) = "" ->
    (JsMap.get (userLocations d) (sender req) = None ->
     webhook env req d h
     = replyAndEnd env (sender req) weatherUsageText d h /\
     lookups (events_of (webhook env req d h)) = [] /\
     existsb is_advice_call (events_of (webhook env req d h)) = false) /\
    (forall c, JsMap.get (userLocations d) (sender req) = Some c ->
               c <> "" ->
               lookups (events_of (webhook env req d h)) = [c]).
Proof.
  intros env req d h Hs Hp Hw Hc. split.
  - intros Hnone.
    assert (E : webhook env req d h
                = replyAndEnd env (sender req) weatherUsageText d h).
    { rewrite webhook_known by assumption.
      rewrite commands_weather by exact Hw. cbv zeta.
      now rewrite Hc, Hnone. }
    split; [exact E|]. rewrite E, replyAndEnd_events.
    split; [apply replyEvents_lookups|].
    unfold replyEvents. now destruct (languageOf d (sender req)).
  - intros c Hsome Hne.
    assert (Hreq : weather_request req d c).
    { repeat split; auto. unfold weatherQuery. rewrite Hc, Hsome.
      reflexivity. }
    rewrite (webhook_weather env req d h c Hreq).
    apply weatherReply_messages.
Qed.

Lemma X13_weather_without_city_witness :
  webhook sample_env (req bob "Weather") d_sample []
  = replyAndEnd sample_env bob weatherUsageText d_sample [] /\
  lookups (events_of (webhook sample_env (req alice "weather") d_sample []))
  = ["mumbai"].
Proof.
  split.
  - apply (X13_weather_without_city sample_env (req bob "Weather")
             d_sample []); try reflexivity.
    vm_compute. discriminate.
  - apply (proj2 (X13_weather_without_city sample_env (req alice "weather")
                    d_sample [] ltac:(vm_compute; discriminate)
                    eq_refl eq_refl eq_refl) "mumbai");
      [reflexivity | discriminate].
Defined.

(** X14.  When the lookup of a weather command succeeds and Gemini
    answers, the advice is asked in the user's language, and the reply
    handed to [replyAndEnd] is the weather section followed by the tips
    heading and Gemini's text; when Gemini answers with the empty
    string the reply is the weather section alone. *)
Theorem X14_weather_with_advice :
  forall env req d h q weather advice,
    weather_request req d q ->
    result_of (getWeather env q d h) = Some weather ->
    let lookup := EvWeatherGet q (axios_get env h q) in
    let prompt := advicePrompt env weather (languageOf d (sender req)) in
    generateContent env (h ++ [lookup]) prompt = Some advice ->
    let call := EvGenerate Advisory prompt (Some advice) in
    let response :=
      if (advice =? "")%string then weatherSection env weather
      else weatherSection env weather +++ tipsSection advice in
    webhook env req d h
    = (ok200, d,
       lookup :: call
       :: replyEvents env d (sender req) response (h ++ [lookup; call])).
Proof.
  intros env req d h q weather advice Hreq Hw lookup prompt Hgen call
    response.
  rewrite (webhook_weather env req d h q Hreq), weatherReply_eq.
  cbv zeta. rewrite Hw. fold lookup. fold prompt. rewrite Hgen. fold call.
  rewrite replyAndEnd_events. unfold response.
  destruct advice; reflexivity.
Qed.

Lemma X14_weather_with_advice_witness :
  webhook {| axios_get := axios_get sample_env;
             generateContent := fun _ _ => Some "Grow millet.";
             messages_create := messages_create sample_env;
             now_iso := now_iso sample_env;
             num_to_string := sample_num;
             toLocaleString := toLocaleString sample_env |}
    (req bob "weather mumbai") d_sample []
  = (ok200, d_sample,
     [EvWeatherGet "mumbai" (Some hot_rainy);
      EvGenerate Advisory (advicePrompt sample_env w_mumbai en)
        (Some "Grow millet.");
      EvMessage bob
        (weatherSection sample_env w_mumbai +++ tipsSection "Grow millet.")
        true]).
Proof.
  apply (X14_weather_with_advice
           {| axios_get := axios_get sample_env;
              generateContent := fun _ _ => Some "Grow millet.";
              messages_create := messages_create sample_env;
              now_iso := now_iso sample_env;
              num_to_string := sample_num;
              toLocaleString := toLocaleString sample_env |}
           (req bob "weather mumbai") d_sample [] "mumbai" w_mumbai
           "Grow millet."); try reflexivity.
  repeat split; try reflexivity; vm_compute; discriminate.
Defined.

(** ** What [getWeather] returns *)

Lemma Qgtb_false (a b : Q) : Qgtb a b = false <-> (a <= b)%Q.
Proof.
  unfold Qgtb. rewrite negb_false_iff. apply Qle_bool_iff.
Qed.

Lemma Qltb_false (a b : Q) : Qltb a b = false <-> (b <= a)%Q.
Proof.
  unfold Qltb. rewrite negb_false_iff. apply Qle_bool_iff.
Qed.

Lemma heat_excludes_cold (t : Q) :
  Qgtb t (35 # 1) = true -> Qltb t (5 # 1) = false.
Proof.
  unfold Qgtb. rewrite negb_true_iff. intros H. apply Qltb_false.
  destruct (Qle_bool t (35 # 1)) eqn:E; [discriminate|].
  apply Qnot_lt_le. intros Hlt.
  assert (Hle : (t <= 35 # 1)%Q).
  { apply Qlt_le_weak, (Qlt_trans _ (5 # 1)); [exact Hlt | reflexivity]. }
  apply Qle_bool_iff in Hle. congruence.
Qed.

(** X15.  A weather result never has more than three alerts, since the
    heat and the cold rule exclude each other and so do the rain and
    the storm rule.  It has none exactly when the temperature lies
    between 5 and 35 degrees, bounds included, the wind, if reported,
    is at most 10 m/s, and the first condition is neither [Rain] nor
    [Thunderstorm]. *)
Theorem X15_alert_bounds :
  forall env weather w t c,
    readWeather env weather = Some w ->
    api_main weather = Some t -> weather0 weather = Some c ->
    List.length (alerts w) <= 3 /\
    (alerts w = [] <->
     (5 # 1 <= t)%Q /\ (t <= 35 # 1)%Q /\
     (forall v, api_wind weather = Some v -> (v <= 10 # 1)%Q) /\
     cond_main c <> "Rain" /\ cond_main c <> "Thunderstorm").
Proof.
  intros env weather w t c Hw Ht Hc.
  destruct (readWeather_alerts env weather t c Ht Hc) as [w' [Hw' Ha]].
  assert (w' = w) by congruence. subst w'. rewrite Ha.
  unfold alerts_by_rules, alert_order. cbn [filter fires].
  pose proof (heat_excludes_cold t) as Hhc.
  pose proof (Qgtb_false t (35 # 1)) as Hheat.
  pose proof (Qltb_false t (5 # 1)) as Hcold.
  assert (Hwind : (match api_wind weather with
                   | Some v => Qgtb v (10 # 1)
                   | None => false
                   end = false)
                  <-> (forall v, api_wind weather = Some v ->
                                 (v <= 10 # 1)%Q)).
  { destruct (api_wind weather) as [v|].
    - rewrite Qgtb_false. split.
      + intros H v' [= <-]. exact H.
      + intros H. now apply H.
    - split; [discriminate | reflexivity]. }
  assert (Hrs : (cond_main c =? "Rain")%string = true ->
                (cond_main c =? "Thunderstorm")%string = false).
  { intros H. apply String.eqb_eq in H. now rewrite H. }
  pose proof (String.eqb_neq (cond_main c) "Rain") as Hrain.
  pose proof (String.eqb_neq (cond_main c) "Thunderstorm") as Hstorm.
  destruct (Qgtb t (35 # 1)) eqn:E1; [rewrite (Hhc eq_refl) in *|];
    destruct (Qltb t (5 # 1)) eqn:E2;
    destruct (match api_wind weather with
              | Some v => Qgtb v (10 # 1)
              | None => false
              end) eqn:E3;
    destruct (cond_main c =? "Rain")%string eqn:E4;
    try rewrite (Hrs eq_refl) in *;
    destruct (cond_main c =? "Thunderstorm")%string eqn:E5;
    cbn [map List.length];
    (split; [lia|]);
    (split;
     [ try discriminate; intros _; repeat split;
       try (apply Hheat; reflexivity); try (apply Hcold; reflexivity);
       try (apply Hwind; reflexivity); try (apply Hrain; reflexivity);
       try (apply Hstorm; reflexivity)
     | intros (H1 & H2 & H3 & H4 & H5);
       try reflexivity;
       try (apply Hheat in H2; discriminate);
       try (apply Hcold in H1; discriminate);
       try (apply Hwind in H3; discriminate);
       try (apply Hrain in H4; discriminate);
       try (apply Hstorm in H5; discriminate) ]).
Qed.

Lemma X15_alert_bounds_witness :
  List.length (alerts w_mumbai) <= 3 /\
  (alerts {| city := "Pune"; temp := 35 # 1; description := "clear sky";
             alerts := []; wind := 10 # 1 |} = [] <->
   (5 # 1 <= 35 # 1)%Q /\ (35 # 1 <= 35 # 1)%Q /\
   (forall v, Some (10 # 1)%Q = Some v -> (v <= 10 # 1)%Q) /\
   "Clear" <> "Rain" /\ "Clear" <> "Thunderstorm").
Proof.
  split.
  - apply (X15_alert_bounds sample_env hot_rainy w_mumbai (40 # 1)
             {| cond_main := "Rain"; cond_description := "light rain" |});
      reflexivity.
  - apply (X15_alert_bounds sample_env
             {| api_name := "Pune"; api_main := Some (35 # 1)%Q;
                api_wind := Some (10 # 1)%Q;
                api_weather := Some [{| cond_main := "Clear";
                                        cond_description := "clear sky" |}] |}
             {| city := "Pune"; temp := 35 # 1; description := "clear sky";
                alerts := []; wind := 10 # 1 |} (35 # 1)
             {| cond_main := "Clear"; cond_description := "clear sky" |});
      reflexivity.
Defined.

(** X16.  [getWeather] makes one call to the provider, never changes
    the directory, and returns [null] exactly when the call fails or
    the answer lacks [main] or a first condition.  A result carries the
    name, temperature and first description of the answer, and the wind
    speed of the answer or 0 when the answer has no [wind]. *)
Theorem X16_getWeather_result :
  forall env q d h,
    dir_of (getWeather env q d h) = d /\
    events_of (getWeather env q d h) = [EvWeatherGet q (axios_get env h q)] /\
    (result_of (getWeather env q d h) = None <->
     axios_get env h q = None \/
     exists weather, axios_get env h q = Some weather /\
                     (api_main weather = None \/ weather0 weather = None)) /\
    (forall w, result_of (getWeather env q d h) = Some w ->
       exists weather t c,
         axios_get env h q = Some weather /\
         api_main weather = Some t /\ weather0 weather = Some c /\
         city w = api_name weather /\ temp w = t /\
         description w = cond_description c /\
         wind w = match api_wind weather with
                  | Some v => v
                  | None => (0 # 1)%Q
                  end).
Proof.
  intros env q d h. rewrite getWeather_eq.
  cbn [dir_of result_of events_of fst snd]. repeat split.
  - destruct (axios_get env h q) as [weather|]; [|now left].
    intros H. right. exists weather. split; [reflexivity|].
    unfold readWeather in H.
    destruct (api_main weather); [|now left].
    destruct (weather0 weather); [discriminate | now right].
  - intros [H | (weather & H & Hm)]; rewrite H; [reflexivity|].
    unfold readWeather.
    destruct Hm as [-> | Hm]; [reflexivity|].
    destruct (api_main weather); [|reflexivity]. now rewrite Hm.
  - intros w H. destruct (axios_get env h q) as [weather|]; [|discriminate].
    unfold readWeather in H.
    destruct (api_main weather) as [t|] eqn:Ht; [|discriminate].
    destruct (weather0 weather) as [c|] eqn:Hc; [|discriminate].
    injection H as <-. exists weather, t, c. repeat split; auto.
Qed.

Lemma X16_getWeather_result_witness :
  exists weather t c,
    axios_get sample_env [] "pune" = Some weather /\
    api_main weather = Some t /\ weather0 weather = Some c /\
    "Pune" = api_name weather /\ (25 # 1)%Q = t /\
    "clear sky" = cond_description c /\
    (3 # 1)%Q = match api_wind weather with
                | Some v => v
                | None => (0 # 1)%Q
                end.
Proof.
  apply (proj2 (proj2 (proj2 (X16_getWeather_result sample_env "pune"
                                empty_dir [])))
           {| city := "Pune"; temp := 25 # 1; description := "clear sky";
              alerts := []; wind := 3 # 1 |}).
  reflexivity.
Defined.

(** ** The daily reminder *)

Lemma sendActivityReminder_eq env phone d h :
  sendActivityReminder env phone d h
  = match languageOf d phone with
    | en =>
        (Some tt, d,
         [EvMessage phone reminderText
            (messages_create env h phone reminderText)])
    | l =>
        let prompt := translatePrompt reminderText l in
        let call := EvGenerate Translator prompt
                      (generateContent env h prompt) in
        match generateContent env h prompt with
        | Some t =>
            (Some tt, d,
             [call;
              EvMessage phone t (messages_create env (h ++ [call]) phone t)])
        | None => (None, d, [call])
        end
    end.
Proof.
  unfold sendActivityReminder, translateText, sendWhatsAppMessage.
  unfold bindX, liftX, retX, throwX, bind, getDir, ret, history, emit.
  destruct (languageOf d phone); cbn; rewrite ?app_nil_r;
    try reflexivity;
    match goal with
    | |- context [generateContent env ?a ?b] =>
        destruct (generateContent env a b)
    end;
    cbn; now rewrite ?app_nil_r.
Qed.

Lemma forEachX_cons (A : Type) (f : A -> X unit) x xs d h :
  forEachX f (x :: xs) d h
  = match f x d h with
    | (Some _, d1, e1) =>
        (result_of (forEachX f xs d1 (h ++ e1)),
         dir_of (forEachX f xs d1 (h ++ e1)),
         e1 ++ events_of (forEachX f xs d1 (h ++ e1)))
    | (None, d1, e1) => (None, d1, e1)
    end.
Proof.
  cbn [forEachX]. unfold bindX.
  destruct (f x d h) as [[[u|] d1] e1]; [|reflexivity].
  now destruct (forEachX f xs d1 (h ++ e1)) as [[r d2] e2].
Qed.

(** Subscribers whose language is [en] are reminded one after the
    other, and the loop goes on with the rest. *)
Lemma reminders_en env pre rest d h :
  (forall p, In p pre -> languageOf d p = en) ->
  exists e,
    messages e = map (fun p => (p, reminderText)) pre /\
    existsb is_generate_call e = false /\
    forEachX (sendActivityReminder env) (pre ++ rest) d h
    = (result_of (forEachX (sendActivityReminder env) rest d (h ++ e)),
       dir_of (forEachX (sendActivityReminder env) rest d (h ++ e)),
       e ++ events_of (forEachX (sendActivityReminder env) rest d (h ++ e))).
Proof.
  revert h. induction pre as [|p pre IH]; intros h Hen.
  - exists []. rewrite app_nil_r. split; [reflexivity|].
    split; [reflexivity|]. cbn [app]. apply triple_eta.
  - destruct (IH (h ++ [EvMessage p reminderText
                          (messages_create env h p reminderText)]))
      as (e & Hm & Hg & E).
    { intros x Hx. apply Hen. now right. }
    exists (EvMessage p reminderText
              (messages_create env h p reminderText) :: e).
    split; [simpl; now rewrite Hm|]. split; [exact Hg|].
    cbn [app]. rewrite forEachX_cons, sendActivityReminder_eq.
    rewrite (Hen p) by now left.
    rewrite E. cbn [result_of dir_of events_of fst snd].
    now rewrite <- !app_assoc.
Qed.

Lemma forEachX_reminder_dir env subs d h :
  dir_of (forEachX (sendActivityReminder env) subs d h) = d.
Proof.
  revert h. induction subs as [|p subs IH]; intros h; [reflexivity|].
  rewrite forEachX_cons, sendActivityReminder_eq.
  destruct (languageOf d p); cbv zeta;
    try match goal with
        | |- context [generateContent env ?a ?b] =>
            destruct (generateContent env a b)
        end;
    cbn [dir_of fst snd]; auto.
Qed.

Lemma reminderSweep_eq env d h :
  reminderSweep env d h
  = forEachX (sendActivityReminder env) (subscribers d) d h.
Proof.
  unfold reminderSweep, bindX, liftX, getDir. rewrite app_nil_r.
  now destruct (forEachX _ _ d h) as [[r d1] e1].
Qed.

(** X17.  The reminder job never changes the directory.  When every
    subscriber's language is [en], each subscriber is sent the reminder
    text once, in the order of [subscribers], Gemini is not called and
    the job runs to its end. *)
Theorem X17_reminders_en :
  forall env d h,
    dir_of (reminderSweep env d h) = d /\
    ((forall p, In p (subscribers d) -> languageOf d p = en) ->
     result_of (reminderSweep env d h) = Some tt /\
     messages (events_of (reminderSweep env d h))
     = map (fun p => (p, reminderText)) (subscribers d) /\
     existsb is_generate_call (events_of (reminderSweep env d h)) = false).
Proof.
  intros env d h. rewrite reminderSweep_eq. split.
  - apply forEachX_reminder_dir.
  - intros Hen.
    destruct (reminders_en env (subscribers d) [] d h Hen) as (e & Hm & Hg & E).
    rewrite app_nil_r in E. rewrite E.
    cbn [forEachX retX result_of dir_of events_of fst snd].
    rewrite app_nil_r. auto.
Qed.

Lemma X17_reminders_en_witness :
  result_of (reminderSweep sample_env d_sweep []) = Some tt /\
  messages (events_of (reminderSweep sample_env d_sweep []))
  = [(alice, reminderText); (bob, reminderText); (carol, reminderText)] /\
  existsb is_generate_call (events_of (reminderSweep sample_env d_sweep []))
  = false.
Proof.
  assert (E : subscribers d_sweep = [alice; bob; carol]) by reflexivity.
  apply (proj2 (X17_reminders_en sample_env d_sweep [])).
  intros p Hp. rewrite E in Hp.
  destruct Hp as [<- | [<- | [<- | []]]]; vm_compute; reflexivity.
Defined.

(** X18.  A reminder whose translation fails ends the job: when the
    subscribers before [p] use [en], [p] does not, and Gemini rejects
    the translation of the reminder into [p]'s language, the job is
    rejected after reminding the subscribers before [p]; [p] and every
    subscriber after [p] are sent nothing. *)
Theorem X18_reminder_failure_stops :
  forall env d h pre p post,
    subscribers d = pre ++ p :: post ->
    (forall x, In x pre -> languageOf d x = en) ->
    languageOf d p <> en ->
    (forall h', generateContent env h'
                  (translatePrompt reminderText (languageOf d p)) = None) ->
    result_of (reminderSweep env d h) = None /\
    messages (events_of (reminderSweep env d h))
    = map (fun x => (x, reminderText)) pre.
Proof.
  intros env d h pre p post Hsubs Hen Hl Hdown.
  rewrite reminderSweep_eq, Hsubs.
  destruct (reminders_en env pre (p :: post) d h Hen) as (e & Hm & _ & E).
  rewrite E. rewrite forEachX_cons, sendActivityReminder_eq.
  destruct (languageOf d p) eqn:El; [congruence| |];
    cbv zeta; rewrite Hdown;
    cbn [result_of dir_of events_of fst snd];
    rewrite messages_app, Hm; simpl; now rewrite app_nil_r.
Qed.

Lemma X18_reminder_failure_stops_witness :
  result_of (reminderSweep down_env
               (after sample_env [req carol "subscribe Pune"; req carol "1";
                                  req dave "subscribe Delhi"] d_sweep) [])
  = None /\
  messages (events_of
              (reminderSweep down_env
                 (after sample_env [req carol "subscribe Pune"; req carol "1";
                                    req dave "subscribe Delhi"] d_sweep) []))
  = [(alice, reminderText); (bob, reminderText)].
Proof.
  apply (X18_reminder_failure_stops down_env
           (after sample_env [req carol "subscribe Pune"; req carol "1";
                              req dave "subscribe Delhi"] d_sweep)
           [] [alice; bob] carol [dave]).
  - reflexivity.
  - intros x [<- | [<- | []]]; reflexivity.
  - vm_compute. discriminate.
  - reflexivity.
Defined.

(** ** The earlier handler *)

Lemma bindX_eq (A B : Type) (m : X A) (f : A -> X B) d h :
  bindX m f d h
  = match result_of (m d h) with
    | Some a =>
        (result_of (f a (dir_of (m d h)) (h ++ events_of (m d h))),
         dir_of (f a (dir_of (m d h)) (h ++ events_of (m d h))),
         events_of (m d h)
         ++ events_of (f a (dir_of (m d h)) (h ++ events_of (m d h))))
    | None => (None, dir_of (m d h), events_of (m d h))
    end.
Proof.
  unfold bindX, result_of, dir_of, events_of.
  destruct (m d h) as [[[a|] d1] e1]; [|reflexivity]. simpl.
  now destruct (f a d1 (h ++ e1)) as [[b d2] e2].
Qed.

Lemma liftX_eq (A : Type) (m : M A) d h :
  liftX m d h = (Some (result_of (m d h)), dir_of (m d h), events_of (m d h)).
Proof. unfold liftX. now destruct (m d h) as [[a d1] e1]. Qed.

Lemma old_greet_eq env from d h :
  Old.greet env from d h
  = if JsMap.has (userPreferences d) from then (Some tt, d, [])
    else (Some tt,
          with_userPreferences
            (fun m => JsMap.set m from {| language := en |}) d,
          [EvMessage from welcome (messages_create env h from welcome)]).
Proof.
  unfold Old.greet, bindX at 1, liftX at 1, getDir.
  destruct (JsMap.has (userPreferences d) from); cbn [negb].
  - reflexivity.
  - unfold bindX, liftX, modify. rewrite sendWhatsAppMessage_eq.
    cbn. now rewrite ?app_nil_r.
Qed.

(** X19.  In the earlier handler the first-contact block does not end
    the request: an unknown sender is sent the welcome text and then the
    message is handled as that of a known user with language [en], in
    the same request. *)
Theorem X19_old_first_contact_goes_on :
  forall env body fromRaw d h,
    let r := {| Body := Some body; From := Some fromRaw |} in
    let from := Js.remove_first "whatsapp:" fromRaw in
    JsMap.has (userPreferences d) from = false ->
    let w := EvMessage from welcome (messages_create env h from welcome) in
    let d0 := with_userPreferences
                (fun m => JsMap.set m from {| language := en |}) d in
    Old.webhook env r d h
    = (result_of (Old.webhook env r d0 (h ++ [w])),
       dir_of (Old.webhook env r d0 (h ++ [w])),
       w :: events_of (Old.webhook env r d0 (h ++ [w]))).
Proof.
  intros env body fromRaw d h r from Hp w d0.
  unfold Old.webhook, r; cbn [Body From]. fold from.
  rewrite !bindX_eq, !old_greet_eq, Hp.
  assert (Hp0 : JsMap.has (userPreferences d0) from = true)
    by apply JsMapFacts.has_set_same.
  rewrite Hp0. cbn [result_of dir_of events_of fst snd app].
  now rewrite app_nil_r.
Qed.

Lemma X19_old_first_contact_goes_on_witness :
  Old.webhook sample_env (req "whatsapp:+15550009" "subscribe Pune")
    d_sample []
  = (Some ok200,
     with_userLocations (fun m => JsMap.set m "+15550009" "pune")
       (with_subscribers (fun s => JsSet.add s "+15550009")
          (with_userPreferences
             (fun m => JsMap.set m "+15550009" {| language := en |})
             d_sample)),
     [EvMessage "+15550009" welcome true;
      EvMessage "+15550009" (subscribedText "pune") true]).
Proof.
  exact (eq_trans
           (X19_old_first_contact_goes_on sample_env "subscribe Pune"
              "whatsapp:+15550009" d_sample [] eq_refl)
           eq_refl).
Defined.

Lemma old_getWeather_eq env q d h :
  Old.getWeather env q d h
  = (match axios_get env h q with
     | Some weather => Old.readWeather env weather
     | None => None
     end, d, [EvWeatherGet q (axios_get env h q)]).
Proof.
  unfold Old.getWeather, bind, history, emit, ret; simpl.
  now destruct (axios_get env h q).
Qed.

Lemma old_getCropAdviceAI_eq env weather l d h :
  Old.getCropAdviceAI env weather l d h
  = (match generateContent env h (Old.advicePrompt env weather l) with
     | Some text => text
     | None => adviceFallback
     end, d,
     [EvGenerate Advisory (Old.advicePrompt env weather l)
        (generateContent env h (Old.advicePrompt env weather l))]).
Proof.
  unfold Old.getCropAdviceAI, bind, history, emit, ret; simpl.
  now destruct (generateContent env h (Old.advicePrompt env weather l)).
Qed.

(** The command branches of the earlier handler send nothing and leave
    [userPreferences] alone. *)
Lemma old_respond_quiet env from msg d h :
  userPreferences (dir_of (Old.respond env from msg d h)) = userPreferences d /\
  messages (events_of (Old.respond env from msg d h)) = [].
Proof.
  unfold Old.respond.
  destruct (Js.startsWith msg "subscribe").
  { destruct (negb (subscribeCity msg =? "")%string); split; reflexivity. }
  destruct (msg =? "unsubscribe")%string; [split; reflexivity|].
  destruct (Js.startsWith msg "weather"); [|split; reflexivity].
  rewrite dir_of_bind, events_of_bind.
  cbn [getDir dir_of result_of events_of fst snd app]. rewrite app_nil_r.
  destruct (negb (Js.or_else (weatherCity msg)
                    (opt_str (JsMap.get (userLocations d) from)) =? "")%string);
    [|split; reflexivity].
  rewrite dir_of_bind, events_of_bind, old_getWeather_eq.
  cbn [dir_of result_of events_of fst snd].
  destruct (match axios_get env h _ with
            | Some weather => Old.readWeather env weather
            | None => None
            end) as [weather|]; [|split; reflexivity].
  rewrite dir_of_bind, events_of_bind.
  cbn [getDir dir_of result_of events_of fst snd app]. rewrite app_nil_r.
  rewrite dir_of_bind, events_of_bind, old_getCropAdviceAI_eq.
  cbn [dir_of result_of events_of fst snd].
  match goal with
  | |- context [if ?c then _ else _] => destruct c
  end; split; reflexivity.
Qed.

Lemma langChoice_none msg :
  langChoice msg = None ->
  (msg =? "1")%string || (msg =? "2")%string || (msg =? "3")%string = false.
Proof.
  unfold langChoice.
  destruct (msg =? "1")%string; [discriminate|].
  destruct (msg =? "2")%string; [discriminate|].
  destruct (msg =? "3")%string; [discriminate | reflexivity].
Qed.

Lemma old_translateText_eq env text l d h :
  Old.translateText env text l d h
  = (generateContent env h (Old.translatePrompt text l), d,
     [EvGenerate Translator (Old.translatePrompt text l)
        (generateContent env h (Old.translatePrompt text l))]).
Proof.
  unfold Old.translateText, bindX, liftX, history, emit, retX, throwX.
  cbn -[Old.translatePrompt]. rewrite ?app_nil_r.
  now destruct (generateContent env h (Old.translatePrompt text l)).
Qed.

(** X20.  In the earlier handler a failed translation rejects the
    handler after the command has been carried out: for a known user
    whose language is not [en] and a message other than [1], [2], [3]
    whose reply Gemini fails to translate, the failed translation call
    is the last thing the handler does.  The handler throws, so that it
    never calls [res.send] and hands no WhatsApp message to Twilio,
    and the directory stays as the command left it; a [subscribe] with
    a city is stored all the same.  What the client receives once the
    handler has thrown is up to Express and outside the model. *)
Theorem X20_old_translation_failure :
  forall env body fromRaw d h,
    let r := {| Body := Some body; From := Some fromRaw |} in
    let from := Js.remove_first "whatsapp:" fromRaw in
    let msg := Js.trim (Js.toLowerCase body) in
    let r1 := Old.respond env from msg d h in
    JsMap.has (userPreferences d) from = true ->
    langChoice msg = None ->
    languageOf d from <> en ->
    generateContent env (h ++ events_of r1)
      (Old.translatePrompt (result_of r1) (languageOf d from)) = None ->
    Old.webhook env r d h
    = (None, dir_of r1,
       events_of r1
       ++ [EvGenerate Translator
             (Old.translatePrompt (result_of r1) (languageOf d from))
             None]) /\
    result_of (Old.webhook env r d h) = None /\
    dir_of (Old.webhook env r d h) = dir_of r1 /\
    messages (events_of (Old.webhook env r d h)) = [] /\
    (Js.startsWith msg "subscribe" = true -> subscribeCity msg <> "" ->
     JsMap.get (userLocations (dir_of (Old.webhook env r d h))) from
     = Some (subscribeCity msg)).
Proof.
  intros env body fromRaw d h r from msg r1 Hp Hch Hl Hfail.
  destruct (old_respond_quiet env from msg d h) as [Hprefs Hquiet].
  fold r1 in Hprefs, Hquiet.
  assert (Hlang : languageOf (dir_of r1) from = languageOf d from).
  { unfold languageOf. now rewrite Hprefs. }
  assert (E : Old.webhook env r d h
              = (None, dir_of r1,
                 events_of r1
                 ++ [EvGenerate Translator
                       (Old.translatePrompt (result_of r1)
                          (languageOf d from)) None])).
  { unfold Old.webhook, r; cbn [Body From]. fold from. fold msg.
    rewrite bindX_eq, old_greet_eq, Hp.
    cbn [result_of dir_of events_of fst snd app]. rewrite app_nil_r.
    unfold Old.answer. rewrite (langChoice_none msg Hch).
    rewrite bindX_eq, liftX_eq. fold r1.
    cbn [result_of dir_of events_of fst snd].
    rewrite bindX_eq, liftX_eq.
    cbn [getDir result_of dir_of events_of fst snd]. rewrite app_nil_r.
    rewrite Hlang.
    assert (Hne : negb (lang_eqb (languageOf d from) en) = true)
      by (destruct (languageOf d from); [congruence | reflexivity
                                         | reflexivity]).
    rewrite Hne, bindX_eq, old_translateText_eq, Hfail.
    cbn [result_of dir_of events_of fst snd app]. reflexivity. }
  rewrite E. cbn [result_of dir_of events_of fst snd].
  split; [reflexivity|]. repeat split.
  - rewrite messages_app, Hquiet. reflexivity.
  - intros Hpre Hc. unfold r1, Old.respond. rewrite Hpre.
    apply String.eqb_neq in Hc. rewrite Hc. cbn [negb].
    rewrite !dir_of_bind. cbn. apply JsMapFacts.get_set_same.
Qed.

Lemma X20_old_translation_failure_witness :
  result_of (Old.webhook down_env (req alice "subscribe Pune") d_sample [])
  = None /\
  messages (events_of (Old.webhook down_env (req alice "subscribe Pune")
                         d_sample [])) = [] /\
  JsMap.get (userLocations
               (dir_of (Old.webhook down_env (req alice "subscribe Pune")
                          d_sample []))) alice
  = Some "pune".
Proof.
  destruct (X20_old_translation_failure down_env "subscribe Pune" alice
              d_sample []) as (_ & H1 & _ & H3 & H4); try reflexivity.
  - vm_compute. discriminate.
  - split; [exact H1|]. split; [exact H3|].
    apply H4; [reflexivity | vm_compute; discriminate].
Defined.

(** X21.  In the earlier handler the confirmation of a language choice
    is sent as it is, untranslated, whichever language is chosen, and
    Gemini is not called. *)
Theorem X21_old_language_choice :
  forall env body fromRaw d h code name,
    let r := {| Body := Some body; From := Some fromRaw |} in
    let from := Js.remove_first "whatsapp:" fromRaw in
    JsMap.has (userPreferences d) from = true ->
    langChoice (Js.trim (Js.toLowerCase body)) = Some (code, name) ->
    Old.webhook env r d h
    = (Some ok200,
       with_userPreferences
         (fun m => JsMap.set m from {| language := code |}) d,
       [EvMessage from (languageSetText name)
          (messages_create env h from (languageSetText name))]).
Proof.
  intros env body fromRaw d h code name r from Hp Hch.
  unfold Old.webhook, r; cbn [Body From]. fold from.
  rewrite bindX_eq, old_greet_eq, Hp.
  cbn [result_of dir_of events_of fst snd app]. rewrite app_nil_r.
  destruct (langChoice_inv _ _ _ Hch) as [(-> & -> & ->)|[(-> & -> & ->)|
                                          (-> & -> & ->)]];
    unfold Old.answer; cbn [String.eqb Ascii.eqb Bool.eqb orb];
    unfold bindX, liftX, modify, retX; rewrite sendWhatsAppMessage_eq;
    cbn; now rewrite ?app_nil_r.
Qed.

Lemma X21_old_language_choice_witness :
  Old.webhook sample_env (req alice "2") d_sample []
  = (Some ok200,
     with_userPreferences
       (fun m => JsMap.set m alice {| language := mr |}) d_sample,
     [EvMessage alice (languageSetText "Marathi") true]).
Proof.
  apply (X21_old_language_choice sample_env "2" alice d_sample [] mr
           "Marathi"); reflexivity.
Defined.

(** X22.  The two versions of [getWeather] agree wherever the earlier
    one gives a result; the later one also accepts an answer without
    [wind], which the earlier one turns into [null], and reports a wind
    speed of 0 for it. *)
Theorem X22_getWeather_versions :
  forall env weather,
    (forall w, Old.readWeather env weather = Some w ->
               readWeather env weather = Some w) /\
    (api_wind weather = None -> Old.readWeather env weather = None) /\
    (forall w, readWeather env weather = Some w ->
               api_wind weather <> None ->
               Old.readWeather env weather = Some w) /\
    (forall w, readWeather env weather = Some w ->
               api_wind weather = None -> wind w = (0 # 1)%Q).
Proof.
  intros env weather. unfold Old.readWeather, readWeather.
  destruct (api_main weather) as [t|]; [|repeat split; congruence].
  destruct (api_wind weather) as [v|];
    destruct (weather0 weather) as [c|];
    repeat split; try congruence; try discriminate.
  intros w [= <-] _. reflexivity.
Qed.

Lemma X22_getWeather_versions_witness :
  readWeather sample_env hot_rainy = Some w_mumbai /\
  Old.readWeather sample_env
    {| api_name := "Pune"; api_main := Some (25 # 1)%Q; api_wind := None;
       api_weather := Some [{| cond_main := "Clear";
                               cond_description := "clear sky" |}] |}
  = None.
Proof.
  split.
  - apply (proj1 (X22_getWeather_versions sample_env hot_rainy)).
    reflexivity.
  - apply (proj1 (proj2 (X22_getWeather_versions sample_env
             {| api_name := "Pune"; api_main := Some (25 # 1)%Q;
                api_wind := None;
                api_weather := Some [{| cond_main := "Clear";
                                        cond_description := "clear sky" |}] |}))).
    reflexivity.
Defined.

(** ** The rule-based advice *)

(** X23.  [getCropAdvice] never returns an empty list and never more
    than three tips, because the heat tip and the vegetable tip exclude
    each other.  The fallback tip is returned exactly when no rule
    fires, that is when the temperature is at most 20 degrees, the
    description mentions neither rain, mist nor fog, and the wind is at
    most 10 m/s; it then stands alone. *)
Theorem X23_getCropAdvice :
  forall weather,
    let fallback :=
      "No specific tips for this weather. Monitor your fields regularly." in
    getCropAdvice weather <> [] /\
    List.length (getCropAdvice weather) <= 3 /\
    (In fallback (getCropAdvice weather) ->
     getCropAdvice weather = [fallback]) /\
    (getCropAdvice weather = [fallback] <->
     (temp weather <= 20 # 1)%Q /\ (wind weather <= 10 # 1)%Q /\
     Js.includes (description weather) "rain" = false /\
     Js.includes (description weather) "mist" = false /\
     Js.includes (description weather) "fog" = false).
Proof.
  intros weather fallback. unfold getCropAdvice, push, fallback.
  pose proof (Qgtb_false (temp weather) (20 # 1)) as H20.
  pose proof (Qgtb_false (wind weather) (10 # 1)) as H10.
  assert (H35 : Qgtb (temp weather) (35 # 1) = true ->
                Qgtb (temp weather) (20 # 1) = true).
  { unfold Qgtb. rewrite !negb_true_iff. intros H.
    destruct (Qle_bool (temp weather) (20 # 1)) eqn:E; [|reflexivity].
    apply Qle_bool_iff in E.
    assert (Hle : (temp weather <= 35 # 1)%Q)
      by (apply (Qle_trans _ (20 # 1)); [exact E | discriminate]).
    apply Qle_bool_iff in Hle. congruence. }
  assert (Hle35 : Qle_bool (temp weather) (35 # 1)
                  = negb (Qgtb (temp weather) (35 # 1)))
    by (unfold Qgtb; now rewrite negb_involutive).
  rewrite Hle35.
  destruct (Qgtb (temp weather) (35 # 1)) eqn:E1;
    [rewrite (H35 eq_refl) in *|];
    destruct (Qgtb (temp weather) (20 # 1)) eqn:E2;
    destruct (Js.includes (description weather) "rain") eqn:E3;
    destruct (Js.includes (description weather) "mist") eqn:E4;
    destruct (Js.includes (description weather) "fog") eqn:E5;
    destruct (Qgtb (wind weather) (10 # 1)) eqn:E6;
    cbn [negb andb orb app List.length Nat.eqb];
    (split; [discriminate|]); (split; [lia|]);
    (split;
     [ cbn [In]; intros H;
       repeat (destruct H as [H|H]; [discriminate H|]);
       try contradiction; reflexivity
     | split;
       [ try discriminate; intros _; repeat split;
         try (apply H20; reflexivity); try (apply H10; reflexivity)
       | intros (Ht & Hw & Hr & Hm & Hf);
         try reflexivity; try discriminate;
         try (apply H20 in Ht; discriminate);
         try (apply H10 in Hw; discriminate) ] ]).
Qed.

Lemma X23_getCropAdvice_witness :
  getCropAdvice {| city := "Pune"; temp := 20 # 1; description := "clear sky";
                   alerts := []; wind := 10 # 1 |}
  = ["No specific tips for this weather. Monitor your fields regularly."].
Proof.
  apply (proj2 (proj2 (proj2 (X23_getCropAdvice
           {| city := "Pune"; temp := 20 # 1; description := "clear sky";
              alerts := []; wind := 10 # 1 |})))).
  repeat split; try reflexivity; discriminate.
Defined.

(** ** The voice pipeline *)

Module VoiceFacts.
Import Voice.

Lemma bindV_eq (A B : Type) (m : V A) (f : A -> V B) h :
  bindV m f h
  = match fst (m h) with
    | Some a => (fst (f a (h ++ snd (m h))),
                 snd (m h) ++ snd (f a (h ++ snd (m h))))
    | None => (None, snd (m h))
    end.
Proof.
  unfold bindV. destruct (m h) as [[a|] e1]; [|reflexivity]. simpl.
  now destruct (f a (h ++ e1)) as [b e2].
Qed.

Lemma transcribeAudio_eq env audio h :
  transcribeAudio env audio h
  = (match recognize env h audio with
     | Some results =>
         match firstAlternatives results with
         | Some ts => Some (Js.join Js.nl ts)
         | None => None
         end
     | None => None
     end, [VRecognize audio (recognize env h audio)]).
Proof.
  unfold transcribeAudio. rewrite bindV_eq. unfold callV; cbn [fst snd].
  destruct (recognize env h audio) as [results|]; [|reflexivity].
  destruct (firstAlternatives results); cbn; now rewrite ?app_nil_r.
Qed.

(** The three stages, one after the other. *)
Lemma processVoiceRequest_eq env audio h :
  processVoiceRequest env audio h
  = let e1 := VRecognize audio (recognize env h audio) in
    match fst (transcribeAudio env audio h) with
    | None => (None, [e1])
    | Some text =>
        let e2 := VGenerate text (generate env (h ++ [e1]) text) in
        match generate env (h ++ [e1]) text with
        | None => (None, [e1; e2])
        | Some reply =>
            (synthesize env (h ++ [e1; e2]) reply,
             [e1; e2;
              VSynthesize reply (synthesize env (h ++ [e1; e2]) reply)])
        end
    end.
Proof.
  unfold processVoiceRequest. rewrite bindV_eq, transcribeAudio_eq.
  cbn [fst snd]. cbv zeta.
  destruct (match recognize env h audio with
            | Some results =>
                match firstAlternatives results with
                | Some ts => Some (Js.join Js.nl ts)
                | None => None
                end
            | None => None
            end) as [text|]; [|reflexivity].
  rewrite bindV_eq. unfold generateAIResponse, synthesizeSpeech, callV.
  cbn [fst snd].
  destruct (generate env _ text) as [reply|]; [|reflexivity].
  cbn [app]. now rewrite <- app_assoc.
Qed.

(** X24.  [processVoiceRequest] calls speech-to-text, Gemini and
    text-to-speech in this order and stops at the first failure.
    Gemini is asked with the first alternative of every result, joined
    by new lines; a failed recognition, or a result without an
    alternative, rejects the pipeline before Gemini is called, and a
    failed Gemini call rejects it before text-to-speech is called.  The
    audio is returned exactly when all three stages succeed. *)
Theorem X24_voice_pipeline :
  forall env audio h,
    let r := processVoiceRequest env audio h in
    (forall out,
       fst r = Some out <->
       exists results ts reply,
         recognize env h audio = Some results /\
         firstAlternatives results = Some ts /\
         generate env (h ++ [VRecognize audio (Some results)])
           (Js.join Js.nl ts) = Some reply /\
         synthesize env
           (h ++ [VRecognize audio (Some results);
                  VGenerate (Js.join Js.nl ts) (Some reply)]) reply
         = Some out) /\
    (fst (transcribeAudio env audio h) = None ->
     r = (None, [VRecognize audio (recognize env h audio)])) /\
    (forall text,
       fst (transcribeAudio env audio h) = Some text ->
       generate env (h ++ [VRecognize audio (recognize env h audio)]) text
       = None ->
       r = (None, [VRecognize audio (recognize env h audio);
                   VGenerate text None])) /\
    List.length (snd r) <= 3.
Proof.
  intros env audio h r. unfold r. rewrite processVoiceRequest_eq.
  rewrite transcribeAudio_eq. cbn [fst]. cbv zeta. repeat split.
  - destruct (recognize env h audio) as [results|]; [|discriminate].
    destruct (firstAlternatives results) as [ts|] eqn:Ef; [|discriminate].
    destruct (generate env _ (Js.join Js.nl ts)) as [reply|] eqn:Eg;
      [|discriminate].
    cbn [fst]. intros Hs. exists results, ts, reply. auto.
  - intros (results & ts & reply & Hr & Hf & Hg & Hs).
    rewrite Hr, Hf, Hg. exact Hs.
  - intros H. now rewrite H.
  - intros text Ht Hg. rewrite Ht, Hg. reflexivity.
  - destruct (match recognize env h audio with
              | Some results =>
                  match firstAlternatives results with
                  | Some ts => Some (Js.join Js.nl ts)
                  | None => None
                  end
              | None => None
              end) as [text|]; [|simpl; lia].
    destruct (generate env _ text); simpl; lia.
Qed.

Lemma X24_voice_pipeline_witness :
  fst (processVoiceRequest up_env "ogg-bytes" []) = Some "mp3-bytes" /\
  processVoiceRequest deaf_env "ogg-bytes" []
  = (None, [VRecognize "ogg-bytes" None]).
Proof.
  destruct (X24_voice_pipeline up_env "ogg-bytes" []) as (H1 & _).
  destruct (X24_voice_pipeline deaf_env "ogg-bytes" []) as (_ & H2 & _).
  split.
  - apply H1.
    exists [["when to sow wheat"; "went to so wheat"]; ["in pune"]],
      ["when to sow wheat"; "in pune"], "Sow in November.".
    repeat split; reflexivity.
  - apply H2. reflexivity.
Defined.

(** ** The audio branch *)

Lemma callV_eq (A : Type) (ask : list VoiceEvent -> option A) ev h :
  callV ask ev h = (ask h, [ev (ask h)]).
Proof. reflexivity. Qed.

(** What the [try] does, step by step. *)
Lemma voiceReply_eq env from req h :
  voiceReply env from req h
  = let e1 := VMediaGet (MediaUrl0 req) (media_get env h (MediaUrl0 req)) in
    match media_get env h (MediaUrl0 req) with
    | None => (None, [e1])
    | Some audio =>
        let p := processVoiceRequest env audio (h ++ [e1]) in
        match fst p with
        | None => (None, e1 :: snd p)
        | Some out =>
            let h2 := (h ++ [e1]) ++ snd p in
            let fileName := show_ms (now_ms env h2) +++ "_response.mp3" in
            let e3 := VWriteFile ("responses/" +++ fileName) out
                        (write_file env h2 ("responses/" +++ fileName) out) in
            if write_file env h2 ("responses/" +++ fileName) out then
              let url := "https://YOUR_DOMAIN/responses/" +++ fileName in
              let ok := send_media env (h2 ++ [e3]) from url in
              (if ok then Some tt else None,
               e1 :: snd p ++ [e3; VMediaMessage from url ok])
            else (None, e1 :: snd p ++ [e3])
        end
    end.
Proof.
  unfold voiceReply. rewrite bindV_eq, callV_eq. cbn [fst snd]. cbv zeta.
  destruct (media_get env h (MediaUrl0 req)) as [audio|]; [|reflexivity].
  rewrite bindV_eq.
  destruct (fst (processVoiceRequest env audio _)) as [out|]; [|reflexivity].
  rewrite bindV_eq. cbn [fst snd]. rewrite bindV_eq. unfold actV.
  cbn [fst snd]. rewrite ?app_nil_r.
  destruct (write_file env _ _ out); [|reflexivity].
  cbn [fst snd app]. reflexivity.
Qed.

Lemma existsb_snoc (A : Type) (f : A -> bool) xs x :
  existsb f (xs ++ [x]) = existsb f xs || f x.
Proof. rewrite existsb_app. simpl. now rewrite orb_false_r. Qed.

Lemma stage_events_only env audio h :
  existsb is_text_message (snd (processVoiceRequest env audio h)) = false /\
  existsb is_delivered_media (snd (processVoiceRequest env audio h)) = false.
Proof.
  rewrite processVoiceRequest_eq. cbv zeta.
  destruct (fst (transcribeAudio env audio h)) as [text|];
    [|split; reflexivity].
  destruct (generate env _ text); split; reflexivity.
Qed.

(** X25.  The audio branch always answers [200 OK] and ends in exactly
    one of two ways: with a delivered media message to the sender and
    no text message, or with the apology text to the sender and no
    delivered media message.  When the media download fails no stage of
    the pipeline is called. *)
Theorem X25_audio_branch :
  forall env from req h,
    let r := handleVoice env from req h in
    fst r = ok200 /\
    (exists before last,
       snd r = before ++ [last] /\
       ((exists url, last = VMediaMessage from url true) /\
        existsb is_text_message (snd r) = false
        \/
        (exists ok, last = VTextMessage from apologyText ok) /\
        existsb is_delivered_media (snd r) = false)) /\
    (media_get env h (MediaUrl0 req) = None ->
     existsb is_stage (snd r) = false).
Proof.
  intros env from req h r. unfold r, handleVoice.
  rewrite voiceReply_eq. cbv zeta.
  destruct (media_get env h (MediaUrl0 req)) as [audio|] eqn:Em.
  2:{ cbn [fst snd app]. split; [reflexivity|]. split; [|reflexivity].
      exists [VMediaGet (MediaUrl0 req) None],
        (VTextMessage from apologyText
           (send_text env (h ++ [VMediaGet (MediaUrl0 req) None]) from
              apologyText)).
      split; [reflexivity|]. right. split; [eauto | reflexivity]. }
  destruct (stage_events_only env audio
              (h ++ [VMediaGet (MediaUrl0 req) (Some audio)])) as [Ht Hd].
  set (p := processVoiceRequest env audio
              (h ++ [VMediaGet (MediaUrl0 req) (Some audio)])) in *.
  destruct (fst p) as [out|].
  2:{ cbn [fst snd]. split; [reflexivity|]. split; [|discriminate].
      eexists _, _. split; [reflexivity|]. right. split; [eauto|].
      rewrite existsb_snoc. cbn [existsb is_delivered_media].
      now rewrite Hd. }
  destruct (write_file env _ _ out) eqn:Ew.
  2:{ cbn [fst snd]. split; [reflexivity|]. split; [|discriminate].
      eexists _, _. split; [reflexivity|]. right. split; [eauto|].
      rewrite existsb_snoc. cbn [existsb is_delivered_media].
      rewrite existsb_snoc. cbn [is_delivered_media]. now rewrite Hd. }
  destruct (send_media env _ from _) eqn:Es.
  - cbn [fst snd]. split; [reflexivity|]. split; [|discriminate].
    eexists (_ :: snd p ++ [_]), _. split.
    + cbn [app]. f_equal. apply (app_assoc (snd p) [_] [_]).
    + left. split; [eauto|]. cbn [existsb is_text_message].
      rewrite existsb_app. cbn. now rewrite Ht.
  - cbn [fst snd]. split; [reflexivity|]. split; [|discriminate].
    eexists _, _. split; [reflexivity|]. right. split; [eauto|].
    rewrite existsb_snoc. cbn [existsb is_delivered_media].
    rewrite existsb_app. cbn. now rewrite Hd.
Qed.

Lemma X25_audio_branch_witness :
  existsb is_stage
    (snd (handleVoice
            {| media_get := fun _ _ => None;
               recognize := recognize up_env; generate := generate up_env;
               synthesize := synthesize up_env; now_ms := now_ms up_env;
               write_file := write_file up_env;
               send_media := send_media up_env;
               send_text := send_text up_env |} alice voice_note []))
  = false.
Proof.
  apply (X25_audio_branch
           {| media_get := fun _ _ => None;
              recognize := recognize up_env; generate := generate up_env;
              synthesize := synthesize up_env; now_ms := now_ms up_env;
              write_file := write_file up_env;
              send_media := send_media up_env;
              send_text := send_text up_env |} alice voice_note []).
  reflexivity.
Defined.

End VoiceFacts.

(** ** The audio test *)

Lemma digitsPrefix_string_of_uint (u : Decimal.uint) :
  Voice.digitsPrefix (NilEmpty.string_of_uint u) = u.
Proof.
  induction u; cbn [NilEmpty.string_of_uint Voice.digitsPrefix];
    [reflexivity | ..];
    match goal with
    | |- context [Voice.digit_of ?c] =>
        change (Voice.digit_of c) with (Voice.digit_of c);
        let v := eval vm_compute in (Voice.digit_of c) in
        change (Voice.digit_of c) with v
    end; cbn iota; now rewrite IHu.
Qed.

(** *** Doubles *)

(** The number of binary digits of a mantissa. *)
Local Notation "'size2' p" := (Zpos (SpecFloat.digits2_pos p))
  (at level 10, p at level 9).

Lemma shr_1_pos mrs p :
  SpecFloat.shr_m mrs = Zpos p -> (1 < size2 p)%Z ->
  exists q, SpecFloat.shr_m (SpecFloat.shr_1 mrs) = Zpos q
            /\ size2 q = (size2 p - 1)%Z.
Proof.
  destruct mrs as [m r s]. cbn [SpecFloat.shr_m]. intros -> H.
  destruct p as [p|p|]; cbn [SpecFloat.shr_1 SpecFloat.shr_m SpecFloat.digits2_pos] in *;
    [exists p | exists p | lia]; split; try reflexivity; lia.
Qed.

Lemma iter_shr_pos n : forall mrs p,
  SpecFloat.shr_m mrs = Zpos p -> (Zpos n < size2 p)%Z ->
  exists q, SpecFloat.shr_m (SpecFloat.iter_pos SpecFloat.shr_1 n mrs) = Zpos q
            /\ size2 q = (size2 p - Zpos n)%Z.
Proof.
  induction n as [n IH|n IH|]; intros mrs p Hm Hn; cbn [SpecFloat.iter_pos].
  - destruct (shr_1_pos mrs p Hm) as (q1 & H1 & S1); [lia|].
    destruct (IH _ q1 H1) as (q2 & H2 & S2); [lia|].
    destruct (IH _ q2 H2) as (q3 & H3 & S3); [lia|].
    exists q3. split; [exact H3 | lia].
  - destruct (IH _ p Hm) as (q2 & H2 & S2); [lia|].
    destruct (IH _ q2 H2) as (q3 & H3 & S3); [lia|].
    exists q3. split; [exact H3 | lia].
  - apply shr_1_pos; [exact Hm | lia].
Qed.

Lemma shr_fexp_pos p e l :
  (-1074 <= e)%Z ->
  exists q, SpecFloat.shr_m (fst (SpecFloat.shr_fexp 53 1024 (Zpos p) e l)) = Zpos q
            /\ (e <= snd (SpecFloat.shr_fexp 53 1024 (Zpos p) e l))%Z.
Proof.
  intros He. unfold SpecFloat.shr_fexp, SpecFloat.shr.
  set (mrs := SpecFloat.shr_record_of_loc (Zpos p) l).
  assert (Hm : SpecFloat.shr_m mrs = Zpos p).
  { unfold mrs. destruct l as [|[| |]]; reflexivity. }
  remember (SpecFloat.fexp 53 1024 (SpecFloat.Zdigits2 (Z.pos p) + e) - e)%Z
    as n eqn:En.
  assert (Hn : (n < size2 p)%Z).
  { subst n. unfold SpecFloat.fexp, SpecFloat.emin.
    cbn [SpecFloat.Zdigits2]. lia. }
  destruct n as [|n|n]; cbn [fst snd].
  - exists p. split; [exact Hm | lia].
  - destruct (iter_shr_pos n mrs p Hm Hn) as (q & Hq & _).
    exists q. split; [exact Hq | lia].
  - exists p. split; [exact Hm | lia].
Qed.

Lemma binary_round_aux_sign sx p e l :
  (-1074 <= e)%Z ->
  (exists m e', SpecFloat.binary_round_aux 53 1024 sx (Zpos p) e l
                = SpecFloat.S754_finite sx m e')
  \/ SpecFloat.binary_round_aux 53 1024 sx (Zpos p) e l
     = SpecFloat.S754_infinity sx.
Proof.
  intros He. unfold SpecFloat.binary_round_aux.
  destruct (shr_fexp_pos p e l He) as (q & Hq & He').
  destruct (SpecFloat.shr_fexp 53 1024 (Z.pos p) e l) as [mrs' e'].
  cbn [fst snd] in Hq, He'.
  assert (Hr : exists q', SpecFloat.round_nearest_even (SpecFloat.shr_m mrs')
                            (SpecFloat.loc_of_shr_record mrs') = Zpos q').
  { rewrite Hq. unfold SpecFloat.round_nearest_even.
    destruct (SpecFloat.loc_of_shr_record mrs') as [|[| |]];
      try (now exists q).
    - destruct (Z.even (Z.pos q)); [now exists q|].
      exists (q + 1)%positive. reflexivity.
    - exists (q + 1)%positive. reflexivity. }
  destruct Hr as (q' & ->).
  destruct (shr_fexp_pos q' e' SpecFloat.loc_Exact) as (q'' & Hq'' & _); [lia|].
  destruct (SpecFloat.shr_fexp 53 1024 (Z.pos q') e' SpecFloat.loc_Exact)
    as [mrs'' e''].
  cbn [fst] in Hq''. rewrite Hq''.
  destruct (e'' <=? 1024 - 53)%Z; [left; eauto | now right].
Qed.

Lemma binary_round_sign sx p :
  (exists m e', SpecFloat.binary_round 53 1024 sx p 0
                = SpecFloat.S754_finite sx m e')
  \/ SpecFloat.binary_round 53 1024 sx p 0 = SpecFloat.S754_infinity sx.
Proof.
  unfold SpecFloat.binary_round, SpecFloat.shl_align.
  remember (SpecFloat.fexp 53 1024 (Z.pos (SpecFloat.digits2_pos p) + 0))
    as ex' eqn:E.
  assert (Hex : (-1074 <= ex')%Z).
  { subst ex'. unfold SpecFloat.fexp, SpecFloat.emin. lia. }
  replace (ex' - 0)%Z with ex' by lia.
  destruct ex' as [|d|d]; apply binary_round_aux_sign; lia.
Qed.

(** Rounding to a double keeps the sign. *)
Lemma gt0_double n negative :
  Voice.gt0 (Voice.double n negative) = (0 <? n)%Z.
Proof.
  unfold Voice.gt0, Voice.double, SpecFloat.binary_normalize.
  destruct n as [|p|p]; [reflexivity| |].
  - destruct (binary_round_sign false p) as [(m & e & ->)| ->]; reflexivity.
  - destruct (binary_round_sign true p) as [(m & e & ->)| ->]; reflexivity.
Qed.

(** *** [parseInt] *)

Lemma parseInt10_digit_first (c : ascii) (t : string)
  (d : Decimal.uint -> Decimal.uint) :
  Voice.digit_of c = Some d ->
  Voice.parseInt10 (String c t)
  = Voice.double (Z.of_uint (d (Voice.digitsPrefix t))) false /\
  Voice.parseInt10 (String "-" (String c t))
  = Voice.double (Z.opp (Z.of_uint (d (Voice.digitsPrefix t)))) true.
Proof.
  intros H.
  destruct c as [[|] [|] [|] [|] [|] [|] [|] [|]];
    try discriminate H;
    injection H as <-; split; reflexivity.
Qed.

Lemma parseInt10_digits (u : Decimal.uint) :
  u <> Decimal.Nil ->
  Voice.parseInt10 (NilEmpty.string_of_uint u)
  = Voice.double (Z.of_uint u) false /\
  Voice.parseInt10 (String "-" (NilEmpty.string_of_uint u))
  = Voice.double (Z.opp (Z.of_uint u)) true.
Proof.
  intros Hu.
  destruct u as [|u|u|u|u|u|u|u|u|u|u]; [congruence | ..];
    cbn [NilEmpty.string_of_uint];
    rewrite <- (digitsPrefix_string_of_uint u) at 2 4;
    apply parseInt10_digit_first; reflexivity.
Qed.

Lemma string_of_uint_nonnil (u : Decimal.uint) :
  u <> Decimal.Nil -> NilZero.string_of_uint u = NilEmpty.string_of_uint u.
Proof. destruct u; [congruence | ..]; reflexivity. Qed.

(** [parseInt] reads the decimal text of a whole number digit by
    digit and returns its double. *)
Lemma parseInt10_show (n : Z) :
  Voice.parseInt10 (Voice.show_ms n) = Voice.double n (n <? 0)%Z.
Proof.
  unfold Voice.show_ms.
  destruct n as [|p|p]; [reflexivity | |];
    pose proof (DecimalPos.Unsigned.to_uint_nonnil p) as Hnn;
    destruct (parseInt10_digits (Pos.to_uint p) Hnn) as [Hpos Hneg];
    unfold Z.to_int, NilZero.string_of_int;
    rewrite (string_of_uint_nonnil _ Hnn);
    [rewrite Hpos | rewrite Hneg];
    unfold Z.of_uint; now rewrite DecimalPos.Unsigned.of_to.
Qed.

Lemma show_ms_not_empty (n : Z) : (Voice.show_ms n =? "")%string = false.
Proof.
  unfold Voice.show_ms.
  destruct n as [|p|p]; [reflexivity | |].
  - pose proof (DecimalPos.Unsigned.to_uint_nonnil p) as Hnn.
    unfold Z.to_int, NilZero.string_of_int.
    destruct (Pos.to_uint p); [congruence | ..]; reflexivity.
  - reflexivity.
Qed.

(** X26.  [parseInt(s, 10)] reads the decimal text of a whole number
    [n] digit by digit and returns the double of [n], which is [n]
    rounded once it has more than 53 binary digits; white space before
    the number, inside or outside ASCII, is skipped.  Rounding keeps
    the sign, so that in the audio test a request whose [NumMedia] is
    the decimal text of [n] is an audio message exactly when [n] is
    positive and the content type starts with [audio]; with [n]
    positive and no content type the test throws, and a request
    without [NumMedia], or with one that is not a number, is never an
    audio message, whatever its content type. *)
Theorem X26_audio_test :
  (forall n,
     Voice.parseInt10 (Voice.show_ms n) = Voice.double n (n <? 0)%Z) /\
  (forall ws s,
     Js.all_ws ws = true ->
     Voice.parseInt10 (ws +++ s) = Voice.parseInt10 s) /\
  (forall n contentType url,
     Voice.isAudio {| Voice.NumMedia := Some (Voice.show_ms n);
                      Voice.MediaContentType0 := contentType;
                      Voice.MediaUrl0 := url |}
     = if (0 <? n)%Z
       then option_map (fun c => Js.startsWith c "audio") contentType
       else Some false) /\
  (forall req,
     Voice.numMedia req = SpecFloat.S754_nan \/ Voice.NumMedia req = None ->
     Voice.isAudio req = Some false).
Proof.
  split; [exact parseInt10_show|]. split; [|split].
  - intros ws s Hws. unfold Voice.parseInt10.
    now rewrite JsFacts.trimStart_app_ws.
  - intros n contentType url. unfold Voice.isAudio, Voice.numMedia.
    cbn [Voice.NumMedia Voice.MediaContentType0 opt_str].
    unfold Js.or_else. rewrite show_ms_not_empty, parseInt10_show.
    rewrite gt0_double.
    destruct (0 <? n)%Z; [|reflexivity]. now destruct contentType.
  - intros req [H | H]; unfold Voice.isAudio.
    + now rewrite H.
    + unfold Voice.numMedia. rewrite H. reflexivity.
Qed.

Lemma X26_audio_test_witness :
  Voice.parseInt10 "9007199254740993"
  = SpecFloat.S754_finite false 4503599627370496 1 /\
  Voice.parseInt10 (Js.utf8 0xA0 +++ "1") = Voice.parseInt10 "1" /\
  Voice.isAudio Voice.voice_note = Some true /\
  Voice.isAudio {| Voice.NumMedia := Some "abc";
                   Voice.MediaContentType0 := Some "audio/ogg";
                   Voice.MediaUrl0 := None |} = Some false /\
  Voice.isAudio {| Voice.NumMedia := None;
                   Voice.MediaContentType0 := Some "audio/ogg";
                   Voice.MediaUrl0 := None |} = Some false.
Proof.
  destruct X26_audio_test as (Hshow & Hws & Htest & Hnan).
  split; [|split; [|split; [|split]]].
  - exact (eq_trans (Hshow 9007199254740993%Z) eq_refl).
  - apply Hws. reflexivity.
  - exact (Htest 1%Z (Some "audio/ogg")
             (Some "https://api.twilio.com/media/1")).
  - apply Hnan. left. reflexivity.
  - apply Hnan. right. reflexivity.
Defined.
